(** * rl_sdn_routing: a shallow embedding of the agent, controller,
      topology builder and monitor, with the properties of their
      specification.

    Numbers that the Python code holds as floats (table entries, rewards,
    learning rate, discount, model outputs) are modelled as exact rationals
    [Q]; integers are [Z] or [nat].  The arithmetic of the value update,
    where rounding matters, is taken up with its rounding in module
    [Floating].  The Keras model, Python's [str] and networkx's
    [shortest_path] are external to the repository and enter as section
    variables. *)

From Stdlib Require Import QArith Qabs Qround Qpower ZArith Lia Lqa Ascii.
From Stdlib Require Floats.
From stdpp Require Import gmap strings list pretty.

Local Open Scope string_scope.
Set Warnings "-register-all".

(** ** JSON values, as [json.loads] / [request.get_json] deliver them *)

Inductive json : Type :=
| JNull
| JBool (b : bool)
| JNum (q : Q)
| JStr (s : string)
| JArr (items : list json)
| JObj (fields : list (string * json)).

(** Python truthiness of a decoded JSON value ([not x], [all([...])]). *)
Definition truthy (j : json) : bool :=
  match j with
  | JNull => false
  | JBool b => b
  | JNum q => negb (Qeq_bool q 0)
  | JStr s => negb (String.eqb s "")
  | JArr l => match l with [] => false | _ => true end
  | JObj f => match f with [] => false | _ => true end
  end.

(** [data.get(key)] on a decoded JSON object (keys are unique after
    decoding); a missing key gives [None], which Python shows as [None]
    and the helpers below read as [JNull]. *)
Fixpoint dict_get {V : Type} (key : string) (fields : list (string * V)) : option V :=
  match fields with
  | [] => None
  | (k, v) :: rest => if String.eqb k key then Some v else dict_get key rest
  end.

(** [d[key] = v] on an insertion-ordered dict: an existing key keeps its
    place, a new key goes last. *)
Fixpoint dict_set {V : Type} (key : string) (v : V) (fields : list (string * V))
  : list (string * V) :=
  match fields with
  | [] => [(key, v)]
  | (k, w) :: rest =>
      if String.eqb k key then (k, v) :: rest else (k, w) :: dict_set key v rest
  end.

Definition get_or_null (key : string) (fields : list (string * json)) : json :=
  default JNull (dict_get key fields).

(** A decoded JSON value as an operand of [+]: a number, or a boolean
    (Python's [True] and [False] are 1 and 0); with a string, [None] or a
    dict the sum raises [TypeError].  A list, which numpy would broadcast,
    is outside this model and is treated like the raising cases. *)
Definition as_number (j : json) : option Q :=
  match j with
  | JNum q => Some q
  | JBool b => Some (if b then 1%Q else 0%Q)
  | _ => None
  end.

(** A JSON list read as a numeric vector ([np.array(state)] fed to the
    model); an entry that is not a number is taken to make the model call
    raise. *)
Fixpoint as_vector (l : list json) : option (list Q) :=
  match l with
  | [] => Some []
  | j :: rest =>
      match j, as_vector rest with
      | JNum q, Some v => Some (q :: v)
      | _, _ => None
      end
  end.

(** What a call leaves behind: a returned value or a raised exception. *)
Inductive outcome (A : Type) : Type :=
| Returned (a : A)
| Raised.
Arguments Returned {A} a.
Arguments Raised {A}.

(** ** The path-selection agent (src/rl_agent.py) *)

Module Agent.

Record agent : Type := mkAgent {
  state_size : nat;
  learning_rate : Q;
  discount_factor : Q;
  save_interval : Z;
  possible_paths : gmap string (list json);
  q_table : gmap string (list Q);
  recent_rewards : list json;
  total_steps : Z;
  saved_models : list Z
}.

Definition set_q_table (ag : agent) (t : gmap string (list Q)) : agent :=
  mkAgent (state_size ag) (learning_rate ag) (discount_factor ag)
          (save_interval ag) (possible_paths ag) t
          (recent_rewards ag) (total_steps ag) (saved_models ag).

(** [np.zeros(n)] *)
Definition np_zeros (n : nat) : list Q := replicate n 0%Q.

(** [np.argmax]: index of the first maximal element (0 on an empty list is
    never used: the callers pass a non-empty list). *)
Fixpoint argmax_from (best : Q) (best_idx next_idx : nat) (l : list Q) : nat :=
  match l with
  | [] => best_idx
  | x :: rest =>
      if Qlt_le_dec best x
      then argmax_from x next_idx (S next_idx) rest
      else argmax_from best best_idx (S next_idx) rest
  end.

Definition np_argmax (l : list Q) : nat :=
  match l with
  | [] => 0
  | x :: rest => argmax_from x 0 1 rest
  end.

(** Python's [max] on a list: the first maximal element; raises on []. *)
Fixpoint max_from (best : Q) (l : list Q) : Q :=
  match l with
  | [] => best
  | x :: rest => if Qlt_le_dec best x then max_from x rest else max_from best rest
  end.

Definition py_max (l : list Q) : option Q :=
  match l with
  | [] => None
  | x :: rest => Some (max_from x rest)
  end.

Section WithModel.

(** [str(x)] of a decoded JSON value (Python built-in). *)
Variable py_str : json -> string.
(** [self.model.predict(v)[0][0]]: the network's scalar output. *)
Variable predict : list Q -> Q.

Definition path_key (src dst : json) : string :=
  py_str src ++ "->" ++ py_str dst.

(** The body of the [for path in paths] loop of [get_action]: create the
    table entry if missing, then evaluate the model on the state. *)
Fixpoint score_paths (t : gmap string (list Q)) (n : nat)
         (state : option (list Q)) (paths : list json)
  : gmap string (list Q) * outcome (list Q) :=
  match paths with
  | [] => (t, Returned [])
  | p :: rest =>
      let key := py_str p in
      let t1 := match t !! key with
                | Some _ => t
                | None => <[key := np_zeros n]> t
                end in
      match state with
      | None => (t1, Raised)
      | Some v =>
          match score_paths t1 n state rest with
          | (t2, Returned qs) => (t2, Returned (predict v :: qs))
          | (t2, Raised) => (t2, Raised)
          end
      end
  end.

(** [QLearningAgent.get_action]; [Returned None] is [(None, None)]. *)
Definition get_action (ag : agent) (state : list json) (src dst : json)
  : agent * outcome (option (json * nat)) :=
  match possible_paths ag !! path_key src dst with
  | None => (ag, Returned None)
  | Some paths =>
      match paths with
      | [] => (ag, Returned None)
      | first :: _ =>
          match score_paths (q_table ag) (state_size ag) (as_vector state) paths with
          | (t, Raised) => (set_q_table ag t, Raised)
          | (t, Returned q_values) =>
              let action_idx := np_argmax q_values in
              (set_q_table ag t,
               Returned (Some (nth action_idx paths first, action_idx)))
          end
      end
  end.

(** [QLearningAgent.update_q_table]. *)
Definition update_q_table (ag : agent) (state : list json) (action : json)
           (reward : json) (next_state : list json) : agent * outcome unit :=
  let action_str := py_str action in
  let t1 := match q_table ag !! action_str with
            | Some _ => q_table ag
            | None => <[action_str := np_zeros (state_size ag)]> (q_table ag)
            end in
  let current_q := default [] (t1 !! action_str) in
  match as_vector next_state with
  | None => (set_q_table ag t1, Raised)
  | Some nv =>
      match py_max (map (fun _ => predict nv) (map_to_list t1)) with
      | None => (set_q_table ag t1, Raised)
      | Some next_max_q =>
          match as_number reward with
          | None => (set_q_table ag t1, Raised)
          | Some r =>
              let alpha := learning_rate ag in
              let gamma := discount_factor ag in
              let new_q :=
                map (fun old => (1 - alpha) * old
                                + alpha * (r + gamma * next_max_q))%Q current_q in
              let t2 := <[action_str := new_q]> t1 in
              let steps := (total_steps ag + 1)%Z in
              let ag2 := mkAgent (state_size ag) alpha gamma (save_interval ag)
                                 (possible_paths ag) t2
                                 (recent_rewards ag ++ [reward]) steps
                                 (saved_models ag) in
              if (save_interval ag =? 0)%Z then (ag2, Raised)
              else if (steps mod save_interval ag =? 0)%Z
                   then (mkAgent (state_size ag) alpha gamma (save_interval ag)
                                 (possible_paths ag) t2
                                 (recent_rewards ag ++ [reward]) steps
                                 (saved_models ag ++ [steps]),
                         Returned tt)
                   else (ag2, Returned tt)
          end
      end
  end.

(** *** The HTTP handlers.  They run in a server whose agent has been
    constructed; [req] is what [request.get_json()] gives, [None] when it
    raises on a body that does not decode. *)

(** What a handler hands to Flask: an error body with status 400 or 500,
    or the arguments of [jsonify] on the success path. *)
Inductive response : Type :=
| Error400 (msg : string)
| Error500
| PathReply (path : json) (action_idx : nat)
| StatusSuccess.

Definition state_length_message (prefix : string) (ag : agent) : string :=
  prefix ++ " must be a list of length " ++ pretty (state_size ag).

(** [isinstance(x, list) and len(x) == agent.state_size] *)
Definition is_state_list (ag : agent) (x : json) : option (list json) :=
  match x with
  | JArr items => if Nat.eqb (length items) (state_size ag) then Some items else None
  | _ => None
  end.

(** [get_path], the handler of POST /get_path. *)
Definition get_path (ag : agent) (req : option json) : agent * response :=
  match req with
  | None => (ag, Error500)
  | Some data =>
      if negb (truthy data) then (ag, Error400 "No JSON data provided")
      else
        match data with
        | JObj fields =>
            let src := get_or_null "src" fields in
            let dst := get_or_null "dst" fields in
            let state := get_or_null "state" fields in
            if negb (truthy src) || negb (truthy dst)
            then (ag, Error400 "Missing src or dst")
            else
              match is_state_list ag state with
              | None => (ag, Error400 (state_length_message "State" ag))
              | Some items =>
                  let key := path_key src dst in
                  match possible_paths ag !! key with
                  | None => (ag, Error400 ("Invalid src-dst pair: " ++ key))
                  | Some _ =>
                      match get_action ag items src dst with
                      | (ag', Raised) => (ag', Error500)
                      | (ag', Returned None) => (ag', Error400 "No valid path found")
                      | (ag', Returned (Some (path, idx))) => (ag', PathReply path idx)
                      end
                  end
              end
        | _ => (ag, Error500)
        end
  end.

(** [reward is not None] *)
Definition is_not_none (j : json) : bool :=
  match j with JNull => false | _ => true end.

(** [update], the handler of POST /update. *)
Definition update (ag : agent) (req : option json) : agent * response :=
  match req with
  | Some (JObj fields) =>
      let state := get_or_null "state" fields in
      let action := get_or_null "action" fields in
      let reward := get_or_null "reward" fields in
      let next_state := get_or_null "next_state" fields in
      if negb (truthy state && truthy action && is_not_none reward
               && truthy next_state)
      then (ag, Error400 "Missing required fields")
      else
        match is_state_list ag state with
        | None => (ag, Error400 (state_length_message "State" ag))
        | Some s =>
            match is_state_list ag next_state with
            | None => (ag, Error400 (state_length_message "Next_state" ag))
            | Some ns =>
                match update_q_table ag s action reward ns with
                | (ag', Raised) => (ag', Error500)
                | (ag', Returned _) => (ag', StatusSuccess)
                end
            end
        end
  | _ => (ag, Error500)
  end.

End WithModel.

End Agent.

(** ** The topology descriptor (data/config/topology_info.json), written
    by the topology builder and read by the controller *)

Record switch_entry : Type := mkSwitch {
  sw_dpid : Z;
  sw_ports : list (string * Z)
}.

Record host_entry : Type := mkHost {
  host_ip : string;
  host_mac : string;
  host_connected_to : string
}.

Record link_entry : Type := mkLink {
  link_src : string;
  link_dst : string;
  link_port : Z
}.

Record topology_info : Type := mkTopologyInfo {
  ti_switches : list (string * switch_entry);
  ti_hosts : list (string * host_entry);
  ti_links : list link_entry
}.

(** ** The forwarding controller (src/ryu_controller.py) *)

Module Controller.

(** OpenFlow messages, as far as the controller builds them.  The keyword
    arguments of [parser.OFPMatch], in order; values are numbers and
    strings. *)
Definition ofp_match : Type := list (string * json).

Record action : Type := OFPActionOutput {
  out_port : Z;
  out_max_len : option Z
}.

Record datapath : Type := mkDatapath { dp_id : Z }.

Inductive message : Type :=
| OFPFlowMod (dpid priority : Z) (m : ofp_match) (actions : list action)
             (idle_timeout hard_timeout : Z)
| OFPPacketOut (dpid buffer_id in_port : Z) (actions : list action)
               (data : option string).

Record flow_record : Type := mkFlowRecord {
  fr_dpid : Z;
  fr_src_ip : json;
  fr_dst_ip : json;
  fr_actions : list string
}.

(** Constants of [ofproto_v1_3]. *)
Definition OFPP_FLOOD : Z := 0xfffffffb%Z.
Definition OFP_NO_BUFFER : Z := 0xffffffff%Z.

(** [nx.Graph] with a [port] attribute on every edge: node to neighbour to
    port; an edge is stored in both directions. *)
Definition graph : Type := gmap Z (gmap Z Z).

Definition nodes (g : graph) : list Z := map fst (map_to_list g).

Definition adjacent (g : graph) (u v : Z) : bool :=
  match g !! u with
  | Some nb => bool_decide (is_Some (nb !! v))
  | None => false
  end.

(** Undirected edges, each counted once ([len(G.edges())]). *)
Definition edge_count (g : graph) : nat :=
  length (filter (fun uv : Z * Z => (uv.1 <=? uv.2)%Z = true)
                 (flat_map (fun un : Z * gmap Z Z =>
                              map (fun vp : Z * Z => (un.1, vp.1))
                                  (map_to_list un.2))
                           (map_to_list g))).

Record controller : Type := mkController {
  mac_to_port : gmap Z (gmap string Z);
  topology_graph : graph;
  datapaths : gmap Z datapath;
  flow_count : Z;
  flow_log : list flow_record;
  existing_flows : gset (Z * string * string);
  sent : list message
}.

(** What the agent's HTTP endpoint gives back to [requests]: an exception
    (unreachable, timeout, error status, undecodable body) or a decoded
    JSON body. *)
Inductive agent_reply : Type :=
| AgentError
| AgentJson (body : json).

(** What [nx.shortest_path] does: a path, [NetworkXNoPath], or
    [NodeNotFound]. *)
Inductive nx_result : Type :=
| NxPath (p : list Z)
| NxNoPath
| NxNodeNotFound.

(** What the handlers find outside the controller while they run: the
    descriptor file ([None] when it cannot be read) and the agent's
    answers to GET /stats and POST /get_path. *)
Record environment : Type := mkEnv {
  env_descriptor : option topology_info;
  env_stats_reply : agent_reply;
  env_path_reply : agent_reply
}.

Section WithLibraries.

(** [str(match)], [str(actions)] and [str(action)] of Ryu's objects. *)
Variable str_match : ofp_match -> string.
Variable str_actions : list action -> string.
Variable str_action : action -> string.
(** [nx.shortest_path(G, source, target)] without a weight. *)
Variable nx_shortest_path : graph -> Z -> Z -> nx_result.

Definition match_get (key : string) (m : ofp_match) : json :=
  default (JStr "unknown") (dict_get key m).

(** [SimpleSwitch13.add_flow] *)
Definition add_flow (st : controller) (dp : datapath) (priority : Z)
           (m : ofp_match) (actions : list action)
           (idle_timeout hard_timeout : Z) : controller :=
  let flow_mod := OFPFlowMod (dp_id dp) priority m actions idle_timeout hard_timeout in
  let flow_key := (dp_id dp, str_match m, str_actions actions) in
  if decide (flow_key ∈ existing_flows st) then st
  else
    mkController (mac_to_port st) (topology_graph st) (datapaths st)
                 (flow_count st + 1)
                 (flow_log st ++ [mkFlowRecord (dp_id dp)
                                               (match_get "ipv4_src" m)
                                               (match_get "ipv4_dst" m)
                                               (map str_action actions)])
                 ({[flow_key]} ∪ existing_flows st)
                 (sent st ++ [flow_mod]).

(** [info['ip'] == ip] where the descriptor holds the address as text. *)
Definition ip_matches (info_ip : string) (ip : json) : bool :=
  match ip with
  | JStr s => String.eqb info_ip s
  | _ => false
  end.

(** [SimpleSwitch13._get_switch_for_ip]; [None] is Python's [None]. *)
Definition _get_switch_for_ip (descriptor : option topology_info)
           (ip : json) : option Z :=
  match descriptor with
  | None => None
  | Some ti =>
      match find (fun h : string * host_entry => ip_matches (host_ip h.2) ip)
                 (ti_hosts ti) with
      | None => None
      | Some (_, info) =>
          match dict_get (host_connected_to info) (ti_switches ti) with
          | Some sw => Some (sw_dpid sw)
          | None => None
          end
      end
  end.

(** [SimpleSwitch13._get_shortest_path] *)
Definition _get_shortest_path (st : controller) (src_switch dst_switch : Z)
  : outcome (list Z) :=
  match nx_shortest_path (topology_graph st) src_switch dst_switch with
  | NxPath p => Returned p
  | NxNoPath => Returned []
  | NxNodeNotFound => Raised
  end.

(** [len(x)] of a decoded JSON value; [TypeError] on an unsized one. *)
Definition py_len (j : json) : outcome nat :=
  match j with
  | JArr l => Returned (length l)
  | JStr s => Returned (String.length s)
  | JObj f => Returned (length f)
  | _ => Raised
  end.

Definition Qmax (a b : Q) : Q := if Qle_bool a b then b else a.

(** [SimpleSwitch13._get_current_network_state] *)
Definition _get_current_network_state (st : controller) (stats_reply : agent_reply)
  : outcome (list Q) :=
  let rl_stats :=
    match stats_reply with
    | AgentError => JObj [("count", JNum 0); ("recent_rewards", JArr []);
                          ("paths", JObj [])]
    | AgentJson body => body
    end in
  match rl_stats with
  | JObj fields =>
      match dict_get "recent_rewards" fields with
      | None => Raised
      | Some rewards =>
          match py_len rewards with
          | Raised => Raised
          | Returned n_rewards =>
              let n := inject_Z (Z.of_nat (length (nodes (topology_graph st)))) in
              let e := inject_Z (Z.of_nat (edge_count (topology_graph st))) in
              Returned [inject_Z (flow_count st);
                        inject_Z (Z.of_nat (length (flow_log st)));
                        (e / Qmax (n * (n - 1) / 2) 1)%Q;
                        inject_Z (Z.of_nat n_rewards)]
          end
      end
  | _ => Raised
  end.

(** [SimpleSwitch13._request_path_from_rl_agent]: the decoded answer, or
    [{}] after any exception. *)
Definition _request_path_from_rl_agent (reply : agent_reply) : json :=
  match reply with
  | AgentError => JObj []
  | AgentJson body => body
  end.

(** [path_info.get('path', []) if path_info else []] *)
Definition reply_path (path_info : json) : outcome json :=
  if truthy path_info then
    match path_info with
    | JObj fields => Returned (default (JArr []) (dict_get "path" fields))
    | _ => Raised
    end
  else Returned (JArr []).

(** A graph path as the Python list of dpids. *)
Definition path_of_nodes (p : list Z) : json :=
  JArr (map (fun z => JNum (inject_Z z)) p).

(** The four lines shared by [packet_in_handler] (281-286),
    [_reroute_affected_flows] (143-148) and [force_path_installation]
    (343-348): compute the network state, ask the agent, and take the
    shortest path when the agent gave none. *)
Definition request_path_with_fallback (st : controller) (env : environment)
           (src_switch dst_switch : Z) : outcome json :=
  match _get_current_network_state st (env_stats_reply env) with
  | Raised => Raised
  | Returned _ =>
      match reply_path (_request_path_from_rl_agent (env_path_reply env)) with
      | Raised => Raised
      | Returned path =>
          if truthy path then Returned path
          else
            match _get_shortest_path st src_switch dst_switch with
            | Raised => Raised
            | Returned p => Returned (path_of_nodes p)
            end
      end
  end.

(** A decoded JSON value used as a key of a dict with integer keys:
    [TypeError] for an unhashable value, no entry for a value that
    equals no integer. *)
Definition as_dpid (j : json) : outcome (option Z) :=
  match j with
  | JNum q => Returned (if Qeq_bool q (inject_Z (Qfloor q))
                        then Some (Qfloor q) else None)
  | JBool b => Returned (Some (if b then 1 else 0)%Z)
  | JStr _ | JNull => Returned None
  | JArr _ | JObj _ => Raised
  end.

(** The elements [path[0]], ..., [path[len(path)-1]] that the loop of
    [_install_path_flows] reads. *)
Definition path_elements (path : json) : outcome (list json) :=
  match path with
  | JArr items => Returned items
  | JStr s => Returned (map (fun c => JStr (String c "")) (String.list_ascii_of_string s))
  | JObj fields =>
      match fields with
      | [] | [_] => Returned []
      | _ => Raised
      end
  | _ => Raised
  end.

(** One turn of the loop of [_install_path_flows], for the hop from
    [path[i]] to [path[i+1]]. *)
Definition install_hop (st : controller) (src_dpid dst_dpid : json)
           (src_ip dst_ip : json) : controller * outcome unit :=
  match as_dpid src_dpid with
  | Raised => (st, Raised)
  | Returned None => (st, Returned tt)
  | Returned (Some u) =>
      match datapaths st !! u with
      | None => (st, Returned tt)
      | Some dp =>
          match topology_graph st !! u with
          | None => (st, Returned tt)
          | Some nb =>
              match as_dpid dst_dpid with
              | Raised => (st, Raised)
              | Returned None => (st, Returned tt)
              | Returned (Some v) =>
                  match nb !! v with
                  | None => (st, Returned tt)
                  | Some port =>
                      let m := [("eth_type", JNum (inject_Z 0x0800));
                                ("ipv4_src", src_ip); ("ipv4_dst", dst_ip);
                                ("ip_proto", JNum 6)] in
                      (add_flow st dp 10 m [OFPActionOutput port None] 120 300,
                       Returned tt)
                  end
              end
          end
      end
  end.

Fixpoint install_hops (st : controller) (items : list json)
         (src_ip dst_ip : json) : controller * outcome unit :=
  match items with
  | a :: ((b :: _) as rest) =>
      match install_hop st a b src_ip dst_ip with
      | (st', Raised) => (st', Raised)
      | (st', Returned _) => install_hops st' rest src_ip dst_ip
      end
  | _ => (st, Returned tt)
  end.

(** [SimpleSwitch13._install_path_flows] *)
Definition _install_path_flows (st : controller) (path : json)
           (src_ip dst_ip : json) : controller * outcome unit :=
  match path_elements path with
  | Raised => (st, Raised)
  | Returned items => install_hops st items src_ip dst_ip
  end.

(** [if src_switch and dst_switch] *)
Definition both_switches (src_switch dst_switch : option Z) : option (Z * Z) :=
  match src_switch, dst_switch with
  | Some s, Some d => if (s =? 0)%Z || (d =? 0)%Z then None else Some (s, d)
  | _, _ => None
  end.

(** Lines 278-288 and 140-150: resolve both switches, get a path, and
    install it if there is one. *)
Definition route_flow (st : controller) (env : environment)
           (src_ip dst_ip : json) : controller * outcome unit :=
  match both_switches (_get_switch_for_ip (env_descriptor env) src_ip)
                      (_get_switch_for_ip (env_descriptor env) dst_ip) with
  | None => (st, Returned tt)
  | Some (src_switch, dst_switch) =>
      match request_path_with_fallback st env src_switch dst_switch with
      | Raised => (st, Raised)
      | Returned path =>
          if truthy path then _install_path_flows st path src_ip dst_ip
          else (st, Returned tt)
      end
  end.

(** A packet-in event, as far as the handler reads it. *)
Record packet_in : Type := mkPacketIn {
  pi_datapath : datapath;
  pi_in_port : Z;
  pi_eth_src : string;
  pi_eth_dst : string;
  pi_ethertype : Z;
  pi_ipv4 : option (string * string);
  pi_buffer_id : Z;
  pi_data : string
}.

Definition set_mac_to_port (st : controller) (t : gmap Z (gmap string Z))
  : controller :=
  mkController t (topology_graph st) (datapaths st) (flow_count st)
               (flow_log st) (existing_flows st) (sent st).

Definition send_msg (st : controller) (msg : message) : controller :=
  mkController (mac_to_port st) (topology_graph st) (datapaths st)
               (flow_count st) (flow_log st) (existing_flows st)
               (sent st ++ [msg]).

(** Lines 263-264: record the ingress port of the source MAC. *)
Definition learn_mac (st : controller) (ev : packet_in) : controller :=
  let dpid := dp_id (pi_datapath ev) in
  let table := default ∅ (mac_to_port st !! dpid) in
  set_mac_to_port st (<[dpid := <[pi_eth_src ev := pi_in_port ev]> table]>
                        (mac_to_port st)).

(** Lines 266-269: the learned port of the destination MAC, or flood. *)
Definition learned_out_port (st : controller) (ev : packet_in) : Z :=
  let table := default ∅ (mac_to_port st !! dp_id (pi_datapath ev)) in
  default OFPP_FLOOD (table !! pi_eth_dst ev).

(** Lines 290-299: the packet-out for the packet just seen. *)
Definition packet_out (ev : packet_in) (out_port : Z) : message :=
  OFPPacketOut (dp_id (pi_datapath ev)) (pi_buffer_id ev) (pi_in_port ev)
               [OFPActionOutput out_port None]
               (if (pi_buffer_id ev =? OFP_NO_BUFFER)%Z
                then Some (pi_data ev) else None).

(** [SimpleSwitch13.packet_in_handler] *)
Definition packet_in_handler (st : controller) (env : environment)
           (ev : packet_in) : controller * outcome unit :=
  if (pi_ethertype ev =? 0x0806)%Z then (st, Returned tt)
  else
    let st1 := learn_mac st ev in
    let out_port := learned_out_port st1 ev in
    let routed :=
      if (out_port =? OFPP_FLOOD)%Z then (st1, Returned tt)
      else
        match pi_ipv4 ev with
        | None => (st1, Returned tt)
        | Some (src_ip, dst_ip) => route_flow st1 env (JStr src_ip) (JStr dst_ip)
        end in
    match routed with
    | (st2, Raised) => (st2, Raised)
    | (st2, Returned _) => (send_msg st2 (packet_out ev out_port), Returned tt)
    end.

(** The loop of [_reroute_affected_flows] over the affected flows; the
    i-th turn meets the environment [envs i]. *)
Fixpoint reroute_loop (st : controller) (envs : nat -> environment) (i : nat)
         (affected : list (json * json)) : controller * outcome unit :=
  match affected with
  | [] => (st, Returned tt)
  | (src_ip, dst_ip) :: rest =>
      match route_flow st (envs i) src_ip dst_ip with
      | (st', Raised) => (st', Raised)
      | (st', Returned _) => reroute_loop st' envs (S i) rest
      end
  end.

(** [SimpleSwitch13._reroute_affected_flows]; the closing sleep changes
    nothing. *)
Definition _reroute_affected_flows (st : controller) (envs : nat -> environment)
           (dpid port_no : Z) : controller * outcome unit :=
  let affected_flows :=
    map (fun f => (fr_src_ip f, fr_dst_ip f))
        (filter (fun f => fr_dpid f = dpid) (flow_log st)) in
  reroute_loop st envs 0 affected_flows.

(** The responses of the management API: status 400 with one of three
    error texts, 500, 503, or the success body naming the path. *)
Inductive bad_request : Type :=
| MissingAddresses
| SwitchesNotFound
| NoValidPath.

Inductive api_response : Type :=
| Api400 (reason : bad_request)
| Api500
| Api503
| ApiSuccess (path : json).

(** [RLControllerAPI.force_path_installation]; [req] is the decoded
    body, [None] when decoding raises.  The graph is the one seen when
    the wait for the topology ends. *)
Definition force_path_installation (st : controller) (env : environment)
           (req : option json) : controller * api_response :=
  match req with
  | Some (JObj data) =>
      let src_ip := default JNull (dict_get "src_ip" data) in
      let dst_ip := default JNull (dict_get "dst_ip" data) in
      let path := default (JArr []) (dict_get "path" data) in
      if negb (truthy src_ip) || negb (truthy dst_ip)
      then (st, Api400 MissingAddresses)
      else
        match nodes (topology_graph st) with
        | [] => (st, Api503)
        | _ :: _ =>
            match both_switches (_get_switch_for_ip (env_descriptor env) src_ip)
                                (_get_switch_for_ip (env_descriptor env) dst_ip) with
            | None => (st, Api400 SwitchesNotFound)
            | Some (src_switch, dst_switch) =>
                let chosen :=
                  if truthy path then Returned path
                  else request_path_with_fallback st env src_switch dst_switch in
                match chosen with
                | Raised => (st, Api500)
                | Returned path' =>
                    if truthy path' then
                      match _install_path_flows st path' src_ip dst_ip with
                      | (st', Raised) => (st', Api500)
                      | (st', Returned _) => (st', ApiSuccess path')
                      end
                    else (st, Api400 NoValidPath)
                end
            end
        end
  | _ => (st, Api500)
  end.

(** *** What the fallback is meant to do, for comparison with the code *)

(** Consecutive nodes of [p] are joined by an edge. *)
Fixpoint is_walk (g : graph) (p : list Z) : bool :=
  match p with
  | a :: ((b :: _) as rest) => adjacent g a b && is_walk g rest
  | _ => true
  end.

(** [p] leads from [s] to [d] through nodes of the graph. *)
Definition connects (g : graph) (s d : Z) (p : list Z) : Prop :=
  head p = Some s /\ last p = Some d /\ is_walk g p = true
  /\ Forall (fun x => is_Some (g !! x)) p.

(** The documented behaviour of [nx.shortest_path] without a weight on
    one call: a path with the fewest hops, [NetworkXNoPath] when the
    nodes are not connected, [NodeNotFound] when one is not in the
    graph. *)
Definition nx_contract (g : graph) (s d : Z) (r : nx_result) : Prop :=
  match r with
  | NxPath p => connects g s d p
                /\ forall q, connects g s d q -> length p <= length q
  | NxNoPath => is_Some (g !! s) /\ is_Some (g !! d)
                /\ forall q, ~ connects g s d q
  | NxNodeNotFound => g !! s = None \/ g !! d = None
  end.

(** The agent gave no path: the request failed, or the answer holds no
    path or an empty one. *)
Definition agent_gave_no_path (reply : agent_reply) : Prop :=
  exists path, reply_path (_request_path_from_rl_agent reply) = Returned path
               /\ truthy path = false.

(** Spec-side fallback: install the hop-count shortest path between the
    two switches over the live graph, and nothing when there is none. *)
Definition spec_fallback_route (st : controller) (src_switch dst_switch : Z)
           (src_ip dst_ip : json) : controller * outcome unit :=
  match nx_shortest_path (topology_graph st) src_switch dst_switch with
  | NxPath p => _install_path_flows st (path_of_nodes p) src_ip dst_ip
  | NxNoPath => (st, Returned tt)
  | NxNodeNotFound => (st, Raised)
  end.

End WithLibraries.

End Controller.

(** ** The topology builder (src/mininet_topology.py) *)

Module Topology.

(** [f's{k}'] and [f'h{k}'] *)
Definition switch_name (k : Z) : string := "s" ++ pretty k.
Definition host_name (k : Z) : string := "h" ++ pretty k.

(** [range(n)] *)
Definition py_range (n : Z) : list Z := seqZ 0 n.

(** [{key(i): val(i) for i in l}] *)
Definition dict_comprehension {V : Type} (key : Z -> string) (val : Z -> V)
           (l : list Z) : list (string * V) :=
  foldl (fun d i => dict_set (key i) (val i) d) [] l.

(** A loop whose body may raise: the first [None] ends it. *)
Fixpoint for_each {A S : Type} (body : S -> A -> option S) (l : list A) (s : S)
  : option S :=
  match l with
  | [] => Some s
  | a :: rest =>
      match body s a with
      | None => None
      | Some s' => for_each body rest s'
      end
  end.

(** The descriptor under construction together with [port_counters]. *)
Record gen_state : Type := mkGenState {
  gs_info : topology_info;
  gs_ports : gmap string Z
}.

(** [topology_info['switches'][sw]['ports'][nb] = port] *)
Definition set_port (sw nb : string) (port : Z) (ti : topology_info)
  : option topology_info :=
  match dict_get sw (ti_switches ti) with
  | None => None
  | Some entry =>
      Some (mkTopologyInfo
              (dict_set sw (mkSwitch (sw_dpid entry)
                                     (dict_set nb port (sw_ports entry)))
                        (ti_switches ti))
              (ti_hosts ti) (ti_links ti))
  end.

Definition add_link (src dst : string) (port : Z) (ti : topology_info)
  : topology_info :=
  mkTopologyInfo (ti_switches ti) (ti_hosts ti)
                 (ti_links ti ++ [mkLink src dst port]).

(** Lines 148-152: attach one host to its corner switch. *)
Definition attach_host (st : gen_state) (hs : string * string) : option gen_state :=
  let '(host, switch) := hs in
  match dict_get host (ti_hosts (gs_info st)) with
  | None => None
  | Some h =>
      let ti1 := mkTopologyInfo
                   (ti_switches (gs_info st))
                   (dict_set host (mkHost (host_ip h) (host_mac h) switch)
                             (ti_hosts (gs_info st)))
                   (ti_links (gs_info st)) in
      match gs_ports st !! switch with
      | None => None
      | Some port =>
          match set_port switch host port ti1 with
          | None => None
          | Some ti2 =>
              Some (mkGenState (add_link host switch port ti2)
                               (<[switch := (port + 1)%Z]> (gs_ports st)))
          end
      end
  end.

(** Lines 160-164 and 167-171: join two neighbouring switches. *)
Definition connect (current next : string) (st : gen_state) : option gen_state :=
  match gs_ports st !! current with
  | None => None
  | Some port_cur =>
      match set_port current next port_cur (gs_info st) with
      | None => None
      | Some ti1 =>
          match gs_ports st !! next with
          | None => None
          | Some port_next =>
              match set_port next current port_next ti1 with
              | None => None
              | Some ti2 =>
                  let counters1 := <[current := (port_cur + 1)%Z]> (gs_ports st) in
                  match counters1 !! next with
                  | None => None
                  | Some port_next' =>
                      Some (mkGenState (add_link current next port_cur ti2)
                                       (<[next := (port_next' + 1)%Z]> counters1))
                  end
              end
          end
      end
  end.

(** The body of the double loop at grid position (i, j). *)
Definition grid_cell (size : Z) (st : gen_state) (ij : Z * Z) : option gen_state :=
  let '(i, j) := ij in
  let current_switch := switch_name (i * size + j + 1) in
  match (if (j <? size - 1)%Z
         then connect current_switch (switch_name (i * size + j + 2)) st
         else Some st) with
  | None => None
  | Some st1 =>
      if (i <? size - 1)%Z
      then connect current_switch (switch_name ((i + 1) * size + j + 1)) st1
      else Some st1
  end.

(** The positions in the order the double loop visits them. *)
Definition grid_positions (size : Z) : list (Z * Z) :=
  flat_map (fun i => map (fun j => (i, j)) (py_range size)) (py_range size).

(** [GridTopo.generate_topology_info]; [n_hosts] is [len(hosts)], and
    [None] stands for the [KeyError] that ends the program before the
    file is written. *)
Definition generate_topology_info (n_hosts size : Z) : option topology_info :=
  let topology_info0 :=
    mkTopologyInfo
      (dict_comprehension (fun i => switch_name (i + 1))
                          (fun i => mkSwitch (i + 1) [])
                          (py_range (size * size)))
      (dict_comprehension (fun i => host_name (i + 1))
                          (fun i => mkHost ("10.0.0." ++ pretty (i + 1)%Z)
                                           ("00:00:00:00:00:0" ++ pretty (i + 1)%Z)
                                           "")
                          (py_range n_hosts))
      [] in
  let port_counters :=
    foldl (fun d i => <[switch_name (i + 1) := 1%Z]> d) ∅ (py_range (size * size)) in
  let corner_switches :=
    [("h1", "s1");
     ("h2", switch_name size);
     ("h3", switch_name (size * (size - 1) + 1));
     ("h4", switch_name (size * size))] in
  match for_each attach_host corner_switches
                 (mkGenState topology_info0 port_counters) with
  | None => None
  | Some st1 =>
      match for_each (grid_cell size) (grid_positions size) st1 with
      | None => None
      | Some st2 => Some (gs_info st2)
      end
  end.

(** [GridTopo.build]: the descriptor it leaves behind.  The calls into
    Mininet do not touch the descriptor; with [size <= 0] the corner
    lookup [switches[0]] raises before anything is written. *)
Definition build (size : Z) : option topology_info :=
  if (size <=? 0)%Z then None else generate_topology_info 4 size.

(** *** Notions used to state what the builder produces *)

(** The names and dpids of the switch table. *)
Definition switch_ids (ti : topology_info) : list (string * Z) :=
map (fun e : string * switch_entry => (e.1, sw_dpid e.2)) (ti_switches ti).

Definition expected_ids (size : Z) : list (string * Z) :=
map (fun k => (switch_name k, k)) (seqZ 1 (size * size)).

Definition good (size : Z) (st : gen_state) : Prop :=
switch_ids (gs_info st) = expected_ids size
/\ forall k : Z, (1 <= k <= size * size)%Z -> is_Some (gs_ports st !! switch_name k).

Definition cell_links (size : Z) (ij : Z * Z) : nat :=
(if (ij.2 <? size - 1)%Z then 1 else 0) + (if (ij.1 <? size - 1)%Z then 1 else 0).

Definition from_switch (l : link_entry) : Prop :=
exists k, link_src l = switch_name k.

(** A state reached from [st0] by grid steps: same hosts, the links of
    [st0] followed by [n] links between switches. *)
Definition extends (size : Z) (st0 : gen_state) (n : nat) (st : gen_state) : Prop :=
good size st
/\ ti_hosts (gs_info st) = ti_hosts (gs_info st0)
/\ exists new, ti_links (gs_info st) = (ti_links (gs_info st0) ++ new)%list
               /\ length new = n /\ Forall from_switch new.

Definition corners (size : Z) : list Z :=
[1; size; size * (size - 1) + 1; size * size]%Z.

End Topology.

(** ** Python string operations used by the monitor's parsers.  Strings
    are sequences of ASCII characters. *)

Module PyString.

(** [c.isspace()] on ASCII. *)
Definition is_space (c : ascii) : bool :=
  let n := nat_of_ascii c in
  (Nat.leb 9 n && Nat.leb n 13) || (Nat.leb 28 n && Nat.leb n 32).

(** [sub in s] *)
Definition contains (sub s : string) : bool :=
  match String.index 0 sub s with
  | Some _ => true
  | None => false
  end.

(** [s.find(sub, start)]; [None] is -1. *)
Definition find (sub s : string) (start : nat) : option nat :=
  String.index start sub s.

(** [s[start:end]] for [0 <= start], [0 <= end]. *)
Definition slice (s : string) (start stop : nat) : string :=
  String.substring start (stop - start) s.

(** [s.split(sep)] for a non-empty separator: the pieces between the
    non-overlapping occurrences of [sep], found from the left.  [skip]
    counts the characters of a separator still to pass over, [cur] is the
    piece collected so far. *)
Fixpoint split_go (sep : string) (skip : nat) (cur : string) (s : string)
  : list string :=
  match s with
  | EmptyString => [cur]
  | String c rest =>
      match skip with
      | S k => split_go sep k cur rest
      | O =>
          if String.prefix sep s
          then cur :: split_go sep (String.length sep - 1) "" rest
          else split_go sep 0 (cur ++ String c "") rest
      end
  end.

Definition split (sep s : string) : list string := split_go sep 0 "" s.

(** Removal of the leading and of the trailing characters that satisfy
    [blank]. *)
Fixpoint lstrip_with (blank : ascii -> bool) (s : string) : string :=
  match s with
  | String c rest => if blank c then lstrip_with blank rest else s
  | EmptyString => EmptyString
  end.

Fixpoint rstrip_with (blank : ascii -> bool) (s : string) : string :=
  match s with
  | EmptyString => EmptyString
  | String c rest =>
      match rstrip_with blank rest with
      | EmptyString => if blank c then EmptyString else String c EmptyString
      | rest' => String c rest'
      end
  end.

(** [s.strip()] *)
Definition strip (s : string) : string :=
  rstrip_with is_space (lstrip_with is_space s).

(** [s.split()]: the maximal runs of non-space characters. *)
Fixpoint words_go (cur : string) (s : string) : list string :=
  match s with
  | EmptyString => match cur with EmptyString => [] | _ => [cur] end
  | String c rest =>
      if is_space c
      then match cur with
           | EmptyString => words_go "" rest
           | _ => cur :: words_go "" rest
           end
      else words_go (cur ++ String c "") rest
  end.

Definition split_whitespace (s : string) : list string := words_go "" s.

Definition digit_value (c : ascii) : option Z :=
  let n := nat_of_ascii c in
  if Nat.leb 48 n && Nat.leb n 57 then Some (Z.of_nat (n - 48)) else None.

(** The digits of an integer literal, single underscores allowed between
    digits; [prev_digit] tells whether the previous character was a
    digit. *)
Fixpoint digits_go (acc : Z) (prev_digit : bool) (s : string) : option Z :=
  match s with
  | EmptyString => if prev_digit then Some acc else None
  | String c rest =>
      match digit_value c with
      | Some d => digits_go (acc * 10 + d) true rest
      | None =>
          if Ascii.eqb c "_"%char && prev_digit
          then match rest with
               | String c' _ =>
                   match digit_value c' with
                   | Some _ => digits_go acc false rest
                   | None => None
                   end
               | EmptyString => None
               end
          else None
      end
  end.

(** The blanks that [int] passes over around the literal: tab to carriage
    return, and the space (the separators 28-31, which [isspace] accepts,
    are not among them). *)
Definition is_int_space (c : ascii) : bool :=
  let n := nat_of_ascii c in
  (Nat.leb 9 n && Nat.leb n 13) || Nat.eqb n 32.

(** [int(s)] in base 10; [None] is [ValueError]. *)
Definition py_int (s : string) : option Z :=
  match rstrip_with is_int_space (lstrip_with is_int_space s) with
  | String "-"%char rest => option_map Z.opp (digits_go 0 false rest)
  | String "+"%char rest => digits_go 0 false rest
  | body => digits_go 0 false body
  end.

End PyString.

(** ** The monitor (scripts/monitor.py) *)

Module Monitor.

Import PyString.

(** What the body of a [try] does to the line being parsed: a value, or
    the exception that sends control to the handler. *)

(** The loop [for stat in part.split(',')] of [_parse_port_stats]: each
    token with an [=] is unpacked into key and value ([None] when the
    unpacking raises [ValueError]); a value that is not an integer is
    passed over. *)
Fixpoint parse_stats (side : string) (tokens : list string)
         (stats : list (string * Z)) : option (list (string * Z)) :=
  match tokens with
  | [] => Some stats
  | stat :: rest =>
      if contains "=" stat then
        match split "=" (strip stat) with
        | [key; value] =>
            match py_int value with
            | Some n => parse_stats side rest (dict_set (side ++ "_" ++ key) n stats)
            | None => parse_stats side rest stats
            end
        | _ => None
        end
      else parse_stats side rest stats
  end.

(** [{**rx_stats, **tx_stats}] *)
Definition dict_merge (a b : list (string * Z)) : list (string * Z) :=
  foldl (fun d kv => dict_set kv.1 kv.2 d) a b.

(** The [try] block of [_parse_port_stats] for one candidate line:
    [Some (Some entry)] when a port entry is stored, [Some None] when the
    line has no colon, [None] when [ValueError] or [IndexError] is
    raised and the line is passed over. *)
Definition parse_port_line (line : string) : option (option (Z * list (string * Z))) :=
  match split ":" line with
  | part0 :: stats_part :: _ =>
      match last (split_whitespace part0) with
      | None => None
      | Some word =>
          match py_int word with
          | None => None
          | Some port_num =>
              match (if contains "rx" stats_part
                     then parse_stats "rx"
                            (split "," (default "" (head (split "tx" stats_part)))) []
                     else Some []) with
              | None => None
              | Some rx_stats =>
                  match (if contains "tx" stats_part
                         then match split "tx" stats_part !! 1 with
                              | Some tx_part => parse_stats "tx" (split "," tx_part) []
                              | None => None
                              end
                         else Some []) with
                  | None => None
                  | Some tx_stats => Some (Some (port_num, dict_merge rx_stats tx_stats))
                  end
              end
          end
      end
  | _ => Some None
  end.

(** [NetworkMonitor._parse_port_stats] *)
Definition _parse_port_stats (output : string) : gmap Z (list (string * Z)) :=
  foldl (fun port_stats line =>
           if contains "port" line && contains "rx" line then
             match parse_port_line line with
             | Some (Some (port_num, stats)) => <[port_num := stats]> port_stats
             | _ => port_stats
             end
           else port_stats)
        ∅ (split (String "010"%char "") output).

(** A flow record of [_parse_flow_stats]. *)
Record flow_info : Type := mkFlowInfo {
  fi_line : string;
  fi_timestamp : Q;
  fi_n_packets : option Z;
  fi_n_bytes : option Z
}.

(** Lines 183-192 and 194-203: the integer after [token], up to the next
    comma, or up to the next space when no comma follows; [None] when the
    key is not set. *)
Definition extract_count (token line : string) : option Z :=
  if contains token line then
    match find token line 0 with
    | None => None
    | Some pos =>
        let start := pos + String.length token in
        let stop := match find "," line start with
                    | Some e => Some e
                    | None => find " " line start
                    end in
        match stop with
        | Some e => py_int (slice line start e)
        | None => None
        end
    end
  else None.

(** The body of the loop of [_parse_flow_stats] for one line; [now] is
    what [time.time()] gives. *)
Definition parse_flow_line (now : Q) (line : string) : option flow_info :=
  if contains "priority" line && contains "n_packets" line
  then Some (mkFlowInfo (strip line) now
                        (extract_count "n_packets=" line)
                        (extract_count "n_bytes=" line))
  else None.

(** [NetworkMonitor._parse_flow_stats]; [clock k] is the time while line
    [k] of the output is handled. *)
Definition _parse_flow_stats (clock : nat -> Q) (output : string) : list flow_info :=
  omap (fun kl : nat * string => parse_flow_line (clock kl.1) kl.2)
       (imap (fun k line => (k, line)) (split (String "010"%char "") output)).

(** The four bounded sample series of [performance_metrics]. *)
Record performance_metrics : Type := mkMetrics {
  latency_samples : list Q;
  throughput_samples : list Q;
  packet_loss_samples : list Q;
  jitter_samples : list Q
}.

(** [NetworkMonitor.__init__]: four empty deques. *)
Definition initial_metrics : performance_metrics := mkMetrics [] [] [] [].

(** [deque(maxlen=n).append(x)]: a full deque drops its oldest entry. *)
Definition deque_append (maxlen : nat) (x : Q) (d : list Q) : list Q :=
  let d' := (d ++ [x])%list in
  if Nat.ltb maxlen (length d') then drop 1 d' else d'.

(** The writes of the monitoring threads to [performance_metrics]: a tick
    of [_collect_network_metrics] appends one throughput and one loss
    sample (lines 297-298); a successful ping of [_monitor_connectivity]
    with a truthy latency appends one latency sample (lines 327-328).
    The other threads do not write to it. *)
Inductive poll : performance_metrics -> performance_metrics -> Prop :=
| poll_network (pm : performance_metrics) (avg_throughput avg_packet_loss : Q) :
    poll pm (mkMetrics (latency_samples pm)
                       (deque_append 100 avg_throughput (throughput_samples pm))
                       (deque_append 100 avg_packet_loss (packet_loss_samples pm))
                       (jitter_samples pm))
| poll_ping (pm : performance_metrics) (latency : Q) :
    ~ (latency == 0)%Q ->
    poll pm (mkMetrics (deque_append 100 latency (latency_samples pm))
                       (throughput_samples pm) (packet_loss_samples pm)
                       (jitter_samples pm)).

Inductive reachable : performance_metrics -> Prop :=
| reachable_initial : reachable initial_metrics
| reachable_poll (pm pm' : performance_metrics) :
    reachable pm -> poll pm pm' -> reachable pm'.

Definition q_sum (l : list Q) : Q := foldr Qplus 0%Q l.

Definition q_min (x : Q) (l : list Q) : Q :=
  foldl (fun m y => if Qle_bool y m then y else m) x l.

Definition q_max (x : Q) (l : list Q) : Q :=
  foldl (fun m y => if Qle_bool m y then y else m) x l.

Section WithNumpy.

(** [np.std(samples)], the population standard deviation. *)
Variable np_std : list Q -> Q.

(** [calculate_stats], the helper inside [_generate_performance_report].
    The "avg" is the exact mean, of which the code's
    [float(np.mean(samples))] is the float64 approximation; no statement
    below depends on its value on a non-empty series. *)
Definition calculate_stats (samples : list Q) : list (string * Q) :=
  match samples with
  | [] => [("avg", 0%Q); ("min", 0%Q); ("max", 0%Q); ("std", 0%Q)]
  | x :: rest =>
      [("avg", (q_sum samples / inject_Z (Z.of_nat (length samples)))%Q);
       ("min", q_min x rest);
       ("max", q_max x rest);
       ("std", np_std samples);
       ("count", inject_Z (Z.of_nat (length samples)))]
  end.

(** The [network_performance] section of the report built by
    [_generate_performance_report]. *)
Definition network_performance (pm : performance_metrics)
  : list (string * list (string * Q)) :=
  [("latency_ms", calculate_stats (latency_samples pm));
   ("throughput_bps", calculate_stats (throughput_samples pm));
   ("packet_loss_rate", calculate_stats (packet_loss_samples pm));
   ("jitter_ms", calculate_stats (jitter_samples pm))].

End WithNumpy.

End Monitor.

(** ** Sample inputs used by the examples below *)

Module Samples.

(** The port-statistics and flow-statistics lines of the specification. *)
Definition port_line : string :=
  "port  1: rx pkts=123, bytes=456, drop=0, errs=0, frame=0, over=0, crc=0, tx pkts=10, bytes=20, drop=1".

Definition flow_line : string := "priority=10,n_packets=42,n_bytes=1000".

(** The same text after an earlier [n_packets=], and before an action
    list with a comma. *)
Definition flow_line_early_token : string :=
  "n_packets=7 priority=10,n_packets=42,n_bytes=1000,".

Definition flow_line_late_comma : string :=
  "priority=10,n_packets=42,n_bytes=1000 actions=output:1,2".

(** Python's [str] on the values the examples use: strings, integers
    and lists of them. *)
Definition str_item (j : json) : string :=
  match j with
  | JNum q => pretty (Qfloor q)
  | JStr s => "'" ++ s ++ "'"
  | JNull => "None"
  | JBool true => "True"
  | JBool false => "False"
  | _ => "?"
  end.

Definition sample_str (j : json) : string :=
  match j with
  | JStr s => s
  | JArr l => "[" ++ String.concat ", " (map str_item l) ++ "]"
  | _ => str_item j
  end.

(** A linear model: the sum of the state vector. *)
Definition sample_model (v : list Q) : Q := foldr Qplus 0%Q v.

Definition path_a : json := JArr [JNum 1; JNum 2; JNum 4].
Definition path_b : json := JArr [JNum 1; JNum 3; JNum 4].

Definition sample_agent : Agent.agent :=
  Agent.mkAgent 4 (1 # 2) (9 # 10) 100
                {["1->4" := [path_a; path_b]]}
                {["[1, 2, 4]" := [1%Q; (-2)%Q; 0%Q; 4%Q]]}
                [] 0 [].

Definition sample_state : list json := [JNum 3; JNum 3; JNum (1 # 2); JNum 0].
Definition zero_state : list json := [JNum 0; JNum 0; JNum 0; JNum 0].

(** Texts for Ryu's matches and actions. *)
Definition sample_str_match (m : Controller.ofp_match) : string :=
  "OFPMatch(" ++ String.concat "," (map (fun kv : string * json =>
                                          kv.1 ++ "=" ++ sample_str kv.2) m) ++ ")".

Definition sample_str_action (a : Controller.action) : string :=
  "OFPActionOutput(port=" ++ pretty (Controller.out_port a) ++ ")".

Definition sample_str_actions (l : list Controller.action) : string :=
  "[" ++ String.concat ", " (map sample_str_action l) ++ "]".

(** Two switches joined through port 2 on both sides, one host on each. *)
Definition sample_graph : Controller.graph :=
  {[1%Z := {[2%Z := 2%Z]}; 2%Z := {[1%Z := 2%Z]}]}.

Definition sample_controller : Controller.controller :=
  Controller.mkController ∅ sample_graph
    {[1%Z := Controller.mkDatapath 1; 2%Z := Controller.mkDatapath 2]}
    0 [] ∅ [].

Definition sample_descriptor : topology_info :=
  mkTopologyInfo
    [("s1", mkSwitch 1 [("h1", 1%Z); ("s2", 2%Z)]);
     ("s2", mkSwitch 2 [("h2", 1%Z); ("s1", 2%Z)])]
    [("h1", mkHost "10.0.0.1" "00:00:00:00:00:01" "s1");
     ("h2", mkHost "10.0.0.2" "00:00:00:00:00:02" "s2")]
    [mkLink "h1" "s1" 1; mkLink "h2" "s2" 1; mkLink "s1" "s2" 2].

(** The agent is down: both requests fail. *)
Definition sample_env : Controller.environment :=
  Controller.mkEnv (Some sample_descriptor) Controller.AgentError
                   Controller.AgentError.

(** A search that is exact wherever the two nodes are equal or adjacent. *)
Definition one_hop_search (g : Controller.graph) (s d : Z) : Controller.nx_result :=
  match g !! s, g !! d with
  | Some _, Some _ =>
      if (s =? d)%Z then Controller.NxPath [s]
      else if Controller.adjacent g s d then Controller.NxPath [s; d]
           else Controller.NxNoPath
  | _, _ => Controller.NxNodeNotFound
  end.

Definition sample_force_request : list (string * json) :=
  [("src_ip", JStr "10.0.0.1"); ("dst_ip", JStr "10.0.0.2"); ("is_tcp", JBool true)].

Definition sample_match : Controller.ofp_match :=
  [("eth_type", JNum (inject_Z 0x0800)); ("ipv4_src", JStr "10.0.0.1");
   ("ipv4_dst", JStr "10.0.0.2"); ("ip_proto", JNum 6)].

(** A standard deviation stand-in for the examples (not used on empty
    series). *)
Definition sample_std (l : list Q) : Q := 0%Q.

End Samples.

(** ** The agent: table initialisation and the statistics endpoint *)

Module AgentService.

Import Agent.

(** [l[-n:]] for a positive [n]: the last [n] elements, or all of [l]
    when it is shorter. *)
Definition last_n {A : Type} (n : nat) (l : list A) : list A :=
  drop (length l - n) l.

(** The body of [stats], GET /stats: the step count, the last 100
    rewards and the whole table. *)
Record stats_body : Type := mkStats {
  stats_count : Z;
  stats_recent_rewards : list json;
  stats_paths : gmap string (list Q)
}.

Definition stats (ag : agent) : stats_body :=
  mkStats (total_steps ag) (last_n 100 (recent_rewards ag)) (q_table ag).

(** What every request leaves true of the two counters: one recorded
    reward per step. *)
Definition steps_match_rewards (ag : agent) : Prop :=
  total_steps ag = Z.of_nat (length (recent_rewards ag)).

Section WithStr.

Variable py_str : json -> string.

(** Lines 60-63: give one path a zero entry unless it has an entry. *)
Definition init_path (n : nat) (t : gmap string (list Q)) (path : json)
  : gmap string (list Q) :=
  match t !! py_str path with
  | Some _ => t
  | None => <[py_str path := np_zeros n]> t
  end.

(** [QLearningAgent.initialize_q_table]: the two nested loops over the
    pairs and their candidate paths (the order of the pairs does not
    change the outcome). *)
Definition initialize_q_table (ag : agent) : agent :=
  set_q_table ag
    (foldl (fun t (kv : string * list json) =>
              foldl (init_path (state_size ag)) t kv.2)
           (q_table ag) (map_to_list (possible_paths ag))).

(** Lines 45-49 of [__init__], once the configuration has been read: an
    empty table filled by [initialize_q_table], no reward, no step.  The
    last field lists the steps at which this process saved its model. *)
Definition construct (size : nat) (lr df : Q) (interval : Z)
           (paths : gmap string (list json)) : agent :=
  initialize_q_table (mkAgent size lr df interval paths ∅ [] 0 []).

(** Every candidate path of every pair has a table entry. *)
Definition covered (ag : agent) : Prop :=
  forall key paths p,
    possible_paths ag !! key = Some paths -> p ∈ paths ->
    is_Some (q_table ag !! py_str p).

End WithStr.

(** [t'] is [t] with zero vectors of length [n] under some new keys. *)
Definition grown_by_zeros (n : nat) (t t' : gmap string (list Q)) : Prop :=
  (forall k v, t !! k = Some v -> t' !! k = Some v)
  /\ (forall k v, t' !! k = Some v -> t !! k = Some v \/ v = np_zeros n).

(** Requests on which the numeric model of the handlers is exact: a
    state or next_state that is a list holds numbers only, and the reward
    is not a list (numpy would broadcast it). *)
Definition numeric_list (j : json) : bool :=
  match j with
  | JArr items => match as_vector items with Some _ => true | None => false end
  | _ => true
  end.

Definition is_list (j : json) : bool :=
  match j with JArr _ => true | _ => false end.

Definition plain_request (req : option json) : bool :=
  match req with
  | Some (JObj fields) =>
      numeric_list (get_or_null "state" fields)
      && numeric_list (get_or_null "next_state" fields)
      && negb (is_list (get_or_null "reward" fields))
  | _ => true
  end.

Section WithModel.

Variable py_str : json -> string.
Variable predict : list Q -> Q.

(** The states of the agent process: constructed by [__init__], then
    changed by the handlers of POST /get_path and POST /update only. *)
Inductive serving : agent -> Prop :=
| serving_start (size : nat) (lr df : Q) (interval : Z)
                (paths : gmap string (list json)) :
    serving (construct py_str size lr df interval paths)
| serving_get_path (ag : agent) (req : option json) :
    serving ag -> plain_request req = true ->
    serving (fst (get_path py_str predict ag req))
| serving_update (ag : agent) (req : option json) :
    serving ag -> plain_request req = true ->
    serving (fst (update py_str predict ag req)).

End WithModel.

End AgentService.

(** ** The controller's event handlers and the rest of its management API
    (src/ryu_controller.py) *)

Module ControllerEvents.

Import Controller.

(** More constants of [ofproto_v1_3]. *)
Definition OFPP_CONTROLLER : Z := 0xfffffffd%Z.
Definition OFPCML_NO_BUFFER : Z := 0xffff%Z.
Definition OFPPR_ADD : Z := 0%Z.
Definition OFPPR_DELETE : Z := 1%Z.
Definition OFPPR_MODIFY : Z := 2%Z.

(** *** The operations of [nx.Graph] that the handlers call *)

Definition neighbours (g : graph) (u : Z) : gmap Z Z := default ∅ (g !! u).

(** [G[u][v]['port']], when the edge is there. *)
Definition edge_port (g : graph) (u v : Z) : option Z :=
  match g !! u with
  | Some nb => nb !! v
  | None => None
  end.

(** [G.add_node(u)]: an existing node keeps its edges. *)
Definition add_node (g : graph) (u : Z) : graph :=
  match g !! u with
  | Some _ => g
  | None => <[u := ∅]> g
  end.

(** [G.add_edge(u, v, port=port)]: both nodes are created when missing,
    and the one attribute dict of the edge is seen from both ends. *)
Definition add_edge (g : graph) (u v port : Z) : graph :=
  let g1 := <[u := <[v := port]> (neighbours g u)]> g in
  <[v := <[u := port]> (neighbours g1 v)]> g1.

(** [G.remove_edge(u, v)]: raises when there is no such edge. *)
Definition remove_edge (g : graph) (u v : Z) : outcome graph :=
  if adjacent g u v
  then Returned (alter (delete u) v (alter (delete v) u g))
  else Raised.

Definition set_topology_graph (st : controller) (g : graph) : controller :=
  mkController (mac_to_port st) g (datapaths st) (flow_count st)
               (flow_log st) (existing_flows st) (sent st).

Definition set_datapaths (st : controller) (d : gmap Z datapath) : controller :=
  mkController (mac_to_port st) (topology_graph st) d (flow_count st)
               (flow_log st) (existing_flows st) (sent st).

(** The application object: the state the routing code reads, and the
    two registries [self.switches] and [self.hosts] that the
    switch-features handler fills. *)
Record app : Type := mkApp {
  core : controller;
  switches : gmap Z string;
  hosts : gmap Z (list string)
}.

Definition with_core (s : app) (st : controller) : app :=
  mkApp st (switches s) (hosts s).

(** [SimpleSwitch13.__init__], lines 29-35. *)
Definition initial_app : app := mkApp (mkController ∅ ∅ ∅ 0 [] ∅ []) ∅ ∅.

(** The body of the loop over the descriptor's switches (lines 198-202). *)
Definition register_switch (s : app) (entry : string * switch_entry) : app :=
  let dpid := sw_dpid entry.2 in
  mkApp (set_topology_graph (core s) (add_node (topology_graph (core s)) dpid))
        (<[dpid := entry.1]> (switches s)) (hosts s).

(** The body of the loop over the descriptor's links (lines 205-218); a
    name that the descriptor does not list raises [KeyError]. *)
Definition register_link (ti : topology_info) (s : app) (link : link_entry)
  : outcome app :=
  if String.prefix "s" (link_src link) && String.prefix "s" (link_dst link) then
    match dict_get (link_src link) (ti_switches ti) with
    | None => Raised
    | Some a =>
        match dict_get (link_dst link) (ti_switches ti) with
        | None => Raised
        | Some b =>
            Returned (with_core s (set_topology_graph (core s)
                        (add_edge (topology_graph (core s)) (sw_dpid a) (sw_dpid b)
                                  (link_port link))))
        end
    end
  else if String.prefix "h" (link_src link) then
    match dict_get (link_src link) (ti_hosts ti) with
    | None => Raised
    | Some h =>
        match dict_get (link_dst link) (ti_switches ti) with
        | None => Raised
        | Some sw =>
            Returned (mkApp (core s) (switches s)
                            (<[sw_dpid sw := (default [] (hosts s !! sw_dpid sw)
                                              ++ [host_ip h])%list]> (hosts s)))
        end
    end
  else Returned s.

(** The loop over the links; the [except] around it ends the handler at
    the first exception and keeps what has been registered. *)
Fixpoint register_links (ti : topology_info) (s : app) (links : list link_entry)
  : app :=
  match links with
  | [] => s
  | link :: rest =>
      match register_link ti s link with
      | Raised => s
      | Returned s' => register_links ti s' rest
      end
  end.

(** The port of an edge does not depend on the end it is read from. *)
Definition symmetric_ports (g : graph) : Prop :=
  forall u v, edge_port g u v = edge_port g v u.

(** Every datapath is filed under its own id. *)
Definition registered_by_id (d : gmap Z datapath) : Prop :=
  forall k dp, d !! k = Some dp -> dp_id dp = k.

(** The names of a link are listed in the descriptor, so that
    [register_link] does not raise on it. *)
Definition link_resolves (ti : topology_info) (link : link_entry) : bool :=
  match register_link ti initial_app link with
  | Returned _ => true
  | Raised => false
  end.

(** No host of the descriptor has the given text as its address. *)
Definition no_host_at (ip : string) (descriptor : option topology_info) : bool :=
  match descriptor with
  | None => true
  | Some ti => forallb (fun h : string * host_entry =>
                          negb (String.eqb (host_ip h.2) ip)) (ti_hosts ti)
  end.

(** [RLControllerAPI.force_sp_path_installation] answers 400, 500 or the
    success body naming the path. *)
Inductive sp_response : Type :=
| Sp400
| Sp500
| SpSuccess (path : json).

Section WithLibraries.

Variable str_match : ofp_match -> string.
Variable str_actions : list action -> string.
Variable str_action : action -> string.
Variable nx_shortest_path : graph -> Z -> Z -> nx_result.

(** [SimpleSwitch13.switch_features_handler]; [descriptor] is the
    descriptor file, [None] when it is missing or cannot be decoded. *)
Definition switch_features_handler (s : app) (descriptor : option topology_info)
           (dp : datapath) : app :=
  let st0 := set_datapaths (core s) (<[dp_id dp := dp]> (datapaths (core s))) in
  let st1 := add_flow str_match str_actions str_action st0 dp 0 []
                      [OFPActionOutput OFPP_CONTROLLER (Some OFPCML_NO_BUFFER)] 0 0 in
  let st2 := add_flow str_match str_actions str_action st1 dp 5
                      [("eth_type", JNum (inject_Z 0x0806))]
                      [OFPActionOutput OFPP_FLOOD None] 120 300 in
  let s2 := with_core s st2 in
  match descriptor with
  | None => s2
  | Some ti => register_links ti (foldl register_switch s2 (ti_switches ti))
                              (ti_links ti)
  end.

(** The loop of [port_status_handler] over [list(self.topology_graph[dpid])]
    (lines 236-240).  The [call]-th rerouting meets the environments
    [envs call]; the [except] around the loop ends it at the first
    exception. *)
Fixpoint drop_port_edges (st : controller) (envs : nat -> nat -> environment)
         (call : nat) (dpid port_no : Z) (neighbors : list Z) : controller :=
  match neighbors with
  | [] => st
  | neighbor :: rest =>
      match edge_port (topology_graph st) dpid neighbor with
      | None => st
      | Some port =>
          if (port =? port_no)%Z then
            match remove_edge (topology_graph st) dpid neighbor with
            | Raised => st
            | Returned g =>
                match _reroute_affected_flows str_match str_actions str_action
                        nx_shortest_path (set_topology_graph st g) (envs call)
                        dpid port_no with
                | (st', Raised) => st'
                | (st', Returned _) =>
                    drop_port_edges st' envs (S call) dpid port_no rest
                end
            end
          else drop_port_edges st envs call dpid port_no rest
      end
  end.

(** [SimpleSwitch13.port_status_handler]; [neighbor_order] is the order
    in which the graph lists the neighbours of [dpid]. *)
Definition port_status_handler (st : controller) (envs : nat -> nat -> environment)
           (neighbor_order : list Z) (dpid port_no reason : Z) : controller :=
  if (reason =? OFPPR_DELETE)%Z || (reason =? OFPPR_MODIFY)%Z then
    match topology_graph st !! dpid with
    | None => st
    | Some _ => drop_port_edges st envs 0 dpid port_no neighbor_order
    end
  else st.

(** [RLControllerAPI.force_sp_path_installation] *)
Definition force_sp_path_installation (st : controller) (req : option json)
  : controller * sp_response :=
  match req with
  | Some (JObj data) =>
      let src_ip := default JNull (dict_get "src_ip" data) in
      let dst_ip := default JNull (dict_get "dst_ip" data) in
      let path := default (JArr []) (dict_get "path" data) in
      if negb (truthy src_ip) || negb (truthy dst_ip) || negb (truthy path)
      then (st, Sp400)
      else
        match _install_path_flows str_match str_actions str_action st path
                                  src_ip dst_ip with
        | (st', Raised) => (st', Sp500)
        | (st', Returned _) => (st', SpSuccess path)
        end
  | _ => (st, Sp500)
  end.

(** [RLControllerAPI.get_stats]: the state vector, or [None] for the 500
    answer. *)
Definition get_stats (st : controller) (stats_reply : agent_reply)
  : option (list Q) :=
  match _get_current_network_state st stats_reply with
  | Returned state => Some state
  | Raised => None
  end.

(** The states of the running controller: constructed, then changed by
    the three event handlers and the two installing endpoints. *)
Inductive running : app -> Prop :=
| running_start : running initial_app
| running_switch_features (s : app) (descriptor : option topology_info)
                          (dp : datapath) :
    running s -> running (switch_features_handler s descriptor dp)
| running_port_status (s : app) (envs : nat -> nat -> environment)
                      (neighbor_order : list Z) (dpid port_no reason : Z) :
    running s ->
    neighbor_order ≡ₚ map fst (map_to_list (neighbours (topology_graph (core s)) dpid)) ->
    running (with_core s (port_status_handler (core s) envs neighbor_order
                                              dpid port_no reason))
| running_packet_in (s : app) (env : environment) (ev : packet_in) :
    running s ->
    running (with_core s (fst (packet_in_handler str_match str_actions str_action
                                                  nx_shortest_path (core s) env ev)))
| running_force_path (s : app) (env : environment) (req : option json) :
    running s ->
    running (with_core s (fst (force_path_installation str_match str_actions
                                 str_action nx_shortest_path (core s) env req)))
| running_force_sp_path (s : app) (req : option json) :
    running s ->
    running (with_core s (fst (force_sp_path_installation (core s) req))).

(** *** Notions used to state what the handlers keep true *)

Definition flow_key (m : message) : option (Z * string * string) :=
  match m with
  | OFPFlowMod dpid _ mt actions _ _ => Some (dpid, str_match mt, str_actions actions)
  | OFPPacketOut _ _ _ _ _ => None
  end.

Definition flow_record_of (m : message) : option flow_record :=
  match m with
  | OFPFlowMod dpid _ mt actions _ _ =>
      Some (mkFlowRecord dpid (match_get "ipv4_src" mt) (match_get "ipv4_dst" mt)
                         (map str_action actions))
  | OFPPacketOut _ _ _ _ _ => None
  end.

(** The flow statistics agree with the flow-mods sent: no two of them
    have the same key, the keys are the recorded ones, the log has one
    record per flow-mod, in order, and the counter is its length. *)
Definition bookkeeping (st : controller) : Prop :=
  NoDup (omap flow_key (sent st))
  /\ existing_flows st = list_to_set (omap flow_key (sent st))
  /\ flow_log st = omap flow_record_of (sent st)
  /\ flow_count st = Z.of_nat (length (flow_log st)).

(** [st'] is [st] after some flow installations and packet-outs. *)
Inductive flow_steps : controller -> controller -> Prop :=
| flow_steps_refl (st : controller) : flow_steps st st
| flow_steps_add (st st' : controller) (dp : datapath) (priority : Z)
                 (m : ofp_match) (actions : list action) (idle hard : Z) :
    flow_steps st st' ->
    flow_steps st (add_flow str_match str_actions str_action st' dp priority m
                            actions idle hard)
| flow_steps_send (st st' : controller) (dpid buffer_id in_port : Z)
                  (actions : list action) (data : option string) :
    flow_steps st st' ->
    flow_steps st (send_msg st' (OFPPacketOut dpid buffer_id in_port actions data)).

(** A flow-mod of [_install_path_flows]: priority 10, the TCP match on
    the two addresses, sent to a registered switch and leaving through
    the port of one of its edges. *)
Definition path_flow_mod (st : controller) (src_ip dst_ip : json) (m : message)
  : Prop :=
  exists u v dp port,
    datapaths st !! u = Some dp
    /\ edge_port (topology_graph st) u v = Some port
    /\ m = OFPFlowMod (dp_id dp) 10
                      [("eth_type", JNum (inject_Z 0x0800)); ("ipv4_src", src_ip);
                       ("ipv4_dst", dst_ip); ("ip_proto", JNum 6)]
                      [OFPActionOutput port None] 120 300.

(** What every handler keeps true of the controller. *)
Definition sound (st : controller) : Prop :=
  bookkeeping st
  /\ symmetric_ports (topology_graph st)
  /\ registered_by_id (datapaths st).

End WithLibraries.

End ControllerEvents.

(** ** The monitor: the metrics thread and the state handed to the agent
    (scripts/monitor.py) *)

Module MonitorState.

Import Monitor.

(** An entry of [switch_stats] for a bridge: the parsed port table and
    the time it was taken, each present once it has been written. *)
Record bridge_stats : Type := mkBridgeStats {
  bs_ports : option (gmap Z (list (string * Z)));
  bs_timestamp : option Q
}.

(** [port_stats.get(key, 0)] *)
Definition counter (key : string) (port_stats : list (string * Z)) : Z :=
  default 0%Z (dict_get key port_stats).

(** Lines 262-270: the byte and drop totals of one bridge, summed over
    its ports. *)
Definition sum_ports (f : list (string * Z) -> Z)
           (ports : gmap Z (list (string * Z))) : Z :=
  foldr Z.add 0%Z (map (fun kv : Z * list (string * Z) => f kv.2) (map_to_list ports)).

Definition port_bytes (port_stats : list (string * Z)) : Z :=
  (counter "rx_bytes" port_stats + counter "tx_bytes" port_stats)%Z.

Definition port_drops (port_stats : list (string * Z)) : Z :=
  (counter "rx_drop" port_stats + counter "tx_drop" port_stats)%Z.

(** [if 'ports' in stats and 'timestamp' in stats] *)
Definition active_ports (stats : bridge_stats) : option (gmap Z (list (string * Z))) :=
  match bs_ports stats, bs_timestamp stats with
  | Some ports, Some _ => Some ports
  | _, _ => None
  end.

(** An element of [network_metrics]. *)
Record network_state : Type := mkNetworkState {
  ns_timestamp : Q;
  ns_avg_throughput : Q;
  ns_avg_packet_loss : Q;
  ns_num_active_switches : nat;
  ns_total_switches : nat
}.

(** Lines 247-291: one measurement from the switch statistics. *)
Definition measure (now : Q) (switch_stats : list (string * bridge_stats))
  : network_state :=
  let bridges := filter (fun kv : string * bridge_stats => kv.1 <> "system")
                        switch_stats in
  let active := omap (fun kv : string * bridge_stats => active_ports kv.2) bridges in
  let total_throughput := foldr Z.add 0%Z (map (sum_ports port_bytes) active) in
  let total_packet_loss := foldr Z.add 0%Z (map (sum_ports port_drops) active) in
  let active_switches := length active in
  let per_switch (total : Z) : Q :=
    if Nat.ltb 0 active_switches
    then (inject_Z total / inject_Z (Z.of_nat active_switches))%Q
    else 0%Q in
  mkNetworkState now (per_switch total_throughput) (per_switch total_packet_loss)
                 active_switches (length bridges).

(** [deque(maxlen=n).append(x)] for any element type. *)
Definition deque_push {A : Type} (maxlen : nat) (x : A) (d : list A) : list A :=
  let d' := (d ++ [x])%list in
  if Nat.ltb maxlen (length d') then drop 1 d' else d'.

(** What the metrics thread writes. *)
Record monitor : Type := mkMonitor {
  network_metrics : list network_state;
  performance : performance_metrics
}.

(** [NetworkMonitor.__init__] *)
Definition initial_monitor : monitor := mkMonitor [] initial_metrics.

(** One turn of the loop of [_collect_network_metrics]. *)
Definition collect_tick (now : Q) (switch_stats : list (string * bridge_stats))
           (m : monitor) : monitor :=
  let state := measure now switch_stats in
  mkMonitor (deque_push 1000 state (network_metrics m))
            (mkMetrics (latency_samples (performance m))
                       (deque_append 100 (ns_avg_throughput state)
                                     (throughput_samples (performance m)))
                       (deque_append 100 (ns_avg_packet_loss state)
                                     (packet_loss_samples (performance m)))
                       (jitter_samples (performance m))).

(** [min(x, 1.0)] *)
Definition cap (x : Q) : Q := if Qle_bool x 1 then x else 1%Q.

(** [NetworkMonitor.get_current_network_state]: utilization, packet
    loss rate, network size and queue length. *)
Definition get_current_network_state (m : monitor) : Q * Q * Q * Q :=
  match last (network_metrics m) with
  | None => (0, 0, 0, 0)%Q
  | Some latest_metrics =>
      let utilization := cap (ns_avg_throughput latest_metrics / 1000000000) in
      let packet_loss_rate := cap (ns_avg_packet_loss latest_metrics / 1000) in
      let network_size :=
        cap (inject_Z (Z.of_nat (ns_num_active_switches latest_metrics)) / 100) in
      let queue_length := packet_loss_rate in
      (utilization, packet_loss_rate, network_size, queue_length)
  end.

(** The byte and drop counters of every port are non-negative. *)
Definition counters_nonneg (switch_stats : list (string * bridge_stats)) : Prop :=
  forall name stats ports port port_stats,
    (name, stats) ∈ switch_stats -> bs_ports stats = Some ports ->
    ports !! port = Some port_stats ->
    (0 <= port_bytes port_stats)%Z /\ (0 <= port_drops port_stats)%Z.

End MonitorState.

(** ** The linear topology and the seeding of flows
    (src/mininet_topology.py) *)

Module LinearTopology.

Import Topology.

(** Lines 53-55: attach host [i+1] to switch [i+1] on port 1. *)
Definition host_step (ti : topology_info) (i : Z) : option topology_info :=
  match set_port (switch_name (i + 1)) (host_name (i + 1)) 1 ti with
  | None => None
  | Some ti1 => Some (add_link (host_name (i + 1)) (switch_name (i + 1)) 1 ti1)
  end.

(** Lines 58-63: join switch [i+1] to switch [i+2]. *)
Definition switch_step (ti : topology_info) (i : Z) : option topology_info :=
  let src_switch := switch_name (i + 1) in
  let dst_switch := switch_name (i + 2) in
  match set_port src_switch dst_switch (2 + i) ti with
  | None => None
  | Some ti1 =>
      match set_port dst_switch src_switch 2 ti1 with
      | None => None
      | Some ti2 => Some (add_link src_switch dst_switch (2 + i) ti2)
      end
  end.

(** [LinearTopo.generate_topology_info]; the arguments are
    [len(switches)] and [len(hosts)], and [None] stands for the
    [KeyError] that ends the program before the file is written. *)
Definition generate_topology_info (n_switches n_hosts : Z) : option topology_info :=
  let topology_info0 :=
    mkTopologyInfo
      (dict_comprehension (fun i => switch_name (i + 1))
                          (fun i => mkSwitch (i + 1) [])
                          (py_range n_switches))
      (dict_comprehension (fun i => host_name (i + 1))
                          (fun i => mkHost ("10.0.0." ++ pretty (i + 1)%Z)
                                           ("00:00:00:00:00:0" ++ pretty (i + 1)%Z)
                                           (switch_name (i + 1)))
                          (py_range n_hosts))
      [] in
  match for_each host_step (py_range n_hosts) topology_info0 with
  | None => None
  | Some ti1 => for_each switch_step (py_range (n_switches - 1)) ti1
  end.

(** [LinearTopo.build]: four switches and four hosts. *)
Definition build : option topology_info := generate_topology_info 4 4.

End LinearTopology.

Module Seeding.

(** The readiness loop of [trigger_initial_flows] (lines 213-223):
    [polls] are the outcomes of the GET /stats requests made before the
    30 seconds are over. *)
Definition controller_ready (polls : list bool) : bool := existsb id polls.

(** Lines 234-254 for one pair: up to [retries] POST /force_path
    requests, stopping at the first that succeeds.  [log] holds the
    requests made so far, and [ok k] tells whether request number [k]
    succeeds. *)
Fixpoint post_pair (ok : nat -> bool) (pair : string * string) (retries : nat)
         (log : list (string * string)) : list (string * string) :=
  match retries with
  | O => log
  | S r =>
      let log' := (log ++ [pair])%list in
      if ok (length log) then log' else post_pair ok pair r log'
  end.

(** The pairs of the double loop over [enumerate(hosts)] with [i != j]. *)
Definition host_pairs (ips : list string) : list (string * string) :=
  flat_map (fun src : nat * string =>
              omap (fun dst : nat * string =>
                      if decide (src.1 = dst.1) then None else Some (src.2, dst.2))
                   (imap (fun j ip => (j, ip)) ips))
           (imap (fun i ip => (i, ip)) ips).

(** [trigger_initial_flows]: the requests posted to /force_path, as
    (src_ip, dst_ip), in order. *)
Definition trigger_initial_flows (polls : list bool) (ok : nat -> bool)
           (ips : list string) : list (string * string) :=
  if controller_ready polls
  then foldl (fun log pair => post_pair ok pair 5 log) [] (host_pairs ips)
  else [].

End Seeding.

(** ** Notions used to relate the grid descriptor to the controller *)

Module GridLayout.

Import Topology.

(** The ends of the links that the double loop adds at position (i, j):
    to the right neighbour, then to the lower one. *)
Definition cell_pairs (size : Z) (ij : Z * Z) : list (string * string) :=
  ((if (ij.2 <? size - 1)%Z
    then [(switch_name (ij.1 * size + ij.2 + 1), switch_name (ij.1 * size + ij.2 + 2))]
    else [])
   ++ (if (ij.1 <? size - 1)%Z
       then [(switch_name (ij.1 * size + ij.2 + 1),
              switch_name ((ij.1 + 1) * size + ij.2 + 1))]
       else []))%list.

Definition link_ends (l : link_entry) : string * string := (link_src l, link_dst l).

(** The four hosts of the grid with their corner switches. *)
Definition corner_hosts (size : Z) : list (string * host_entry) :=
  [("h1", mkHost "10.0.0.1" "00:00:00:00:00:01" (switch_name 1));
   ("h2", mkHost "10.0.0.2" "00:00:00:00:00:02" (switch_name size));
   ("h3", mkHost "10.0.0.3" "00:00:00:00:00:03" (switch_name (size * (size - 1) + 1)));
   ("h4", mkHost "10.0.0.4" "00:00:00:00:00:04" (switch_name (size * size)))].

End GridLayout.

(** ** The controller's request as the agent receives it *)

Module Integration.

(** Lines 94-98 of [_request_path_from_rl_agent]: the JSON body posted to
    the agent's /get_path, with the switch ids as text. *)
Definition path_request (src_switch dst_switch : Z) (network_state : list Q) : json :=
  JObj [("src", JStr (pretty src_switch)); ("dst", JStr (pretty dst_switch));
        ("state", JArr (map JNum network_state))].

End Integration.

(** ** The value update in floating point (src/rl_agent.py, line 110)

    The table entries are float64 arrays and the rates are Python floats,
    so that line 110 rounds after every operation.  Two models of it
    follow: the binary64 evaluation itself, with Rocq's primitive floats,
    and the update over the rationals with every operation rounded to
    its format, of which [Agent.update_q_table] is the instance that
    never rounds.  The rationals are the values that the Python numbers
    hold: float64 values for the entries and for rates given as floats,
    a float32 value for the model's output. *)

Module Floating.

Import Agent.

(** *** Binary64 as the primitive floats compute it *)

(** Line 110 on one component:
    [(1 - lr) * current_q + lr * (reward + discount * next_max_q)]. *)
Definition blend64 (alpha gamma r m old : PrimFloat.float) : PrimFloat.float :=
  PrimFloat.add (PrimFloat.mul (PrimFloat.sub PrimFloat.one alpha) old)
                (PrimFloat.mul alpha (PrimFloat.add r (PrimFloat.mul gamma m))).

(** [n] successive evaluations with the same rates, reward and estimate. *)
Definition blend64_times (n : positive) (alpha gamma r m old : PrimFloat.float)
  : PrimFloat.float :=
  Pos.iter (blend64 alpha gamma r m) old n.

(** *** Rounding to a binary format, over the rationals *)

Definition pow2 (e : Z) : Q := (2 ^ e)%Q.

(** The rational a finite float stands for; [None] for an infinity or a
    NaN. *)
Definition to_Q (f : PrimFloat.float) : option Q :=
  match FloatOps.Prim2SF f with
  | SpecFloat.S754_zero _ => Some 0%Q
  | SpecFloat.S754_finite s m e =>
      Some ((if s then - inject_Z (Z.pos m) else inject_Z (Z.pos m)) * pow2 e)%Q
  | _ => None
  end.

(** The exponent of the binade of a positive [x]:
    [2 ^ ilog2 x <= x < 2 ^ (ilog2 x + 1)]. *)
Definition ilog2 (x : Q) : Z :=
  let k := (Z.log2 (Qnum x) - Z.log2 (Z.pos (Qden x)))%Z in
  if Qle_bool (pow2 k) x then k else (k - 1)%Z.

(** The nearest integer, the even one of two that are equally near. *)
Definition round_even (x : Q) : Z :=
  let f := Qfloor x in
  match (x - inject_Z f ?= 1 # 2)%Q with
  | Lt => f
  | Gt => (f + 1)%Z
  | Eq => if Z.even f then f else (f + 1)%Z
  end.

(** A positive [x] rounded to [p] significant bits, on the grid of the
    least exponent [emin] where [x] is subnormal. *)
Definition round_pos (p emin : Z) (x : Q) : Q :=
  let e := Z.max (ilog2 x - p + 1) emin in
  (inject_Z (round_even (x * pow2 (- e))) * pow2 e)%Q.

(** Rounding to nearest, ties to even, in the format of [p] significant
    bits whose least positive value is [2 ^ emin].  The format is taken
    without its upper end: a result beyond the largest finite value,
    which IEEE 754 turns into an infinity, is what [in_range] below
    rules out. *)
Definition binary (p emin : Z) (x : Q) : Q :=
  match (x ?= 0)%Q with
  | Eq => 0%Q
  | Gt => round_pos p emin x
  | Lt => (- round_pos p emin (- x))%Q
  end.

(** The largest finite value of the format whose largest exponent is
    [emax]. *)
Definition largest (p emax : Z) : Q := (pow2 (emax + 1) - pow2 (emax + 1 - p))%Q.

(** The two formats of line 110: float64 for the entries and for Python's
    own floats, float32 for the model's output. *)
Inductive precision : Type := Double | Single.

Definition round_to (f : precision) : Q -> Q :=
  match f with
  | Double => binary 53 (-1074)
  | Single => binary 24 (-149)
  end.

Definition largest_of (f : precision) : Q :=
  match f with
  | Double => largest 53 1023
  | Single => largest 24 127
  end.

(** What the statements below use of a rounding: it keeps the order,
    leaves a value of the format as it is, and 0 and 1 are values of the
    format. *)
Definition rounding (f : Q -> Q) : Prop :=
  (forall x y, (x <= y)%Q -> (f x <= f y)%Q)
  /\ (forall x, (f (f x) == f x)%Q)
  /\ (f 0 == 0)%Q /\ (f 1 == 1)%Q.

(** *** The update with every operation rounded *)

Section WithRounding.

(** The rounding of the entries and of Python's floats (float64). *)
Variable rnd : Q -> Q.
(** The rounding of the scalar arithmetic: [reward], the rates and
    [next_max_q] meet in float64 under NumPy 1, and in the float32 of
    [next_max_q] under NumPy 2, which converts the Python numbers to
    it. *)
Variable rnd_s : Q -> Q.
Variable py_str : json -> string.
Variable predict : list Q -> Q.

(** [lr * (reward + discount * next_max_q)], a scalar. *)
Definition target (alpha gamma r m : Q) : Q :=
  rnd_s (rnd_s alpha * rnd_s (rnd_s r + rnd_s (rnd_s gamma * m)))%Q.

(** Line 110 on one component. *)
Definition blend (alpha gamma r m old : Q) : Q :=
  rnd (rnd (rnd (1 - alpha) * old) + target alpha gamma r m)%Q.

(** The results of the operations of line 110, those of the scalar
    arithmetic and those of float64. *)
Definition scalar_results (alpha gamma r m : Q) : list Q :=
  [rnd_s alpha; rnd_s gamma; rnd_s r; rnd_s (rnd_s gamma * m);
   rnd_s (rnd_s r + rnd_s (rnd_s gamma * m)); target alpha gamma r m]%Q.

Definition entry_results (alpha gamma r m old : Q) : list Q :=
  [rnd (1 - alpha); rnd (rnd (1 - alpha) * old); blend alpha gamma r m old]%Q.

(** No operation of line 110 overflows: every result is within the
    largest finite value of its format, [top_s] for the scalars and
    [top] for the entries. *)
Definition in_range (top top_s : Q) (alpha gamma r m old : Q) : Prop :=
  Forall (fun x => (Qabs x <= top_s)%Q) (scalar_results alpha gamma r m)
  /\ Forall (fun x => (Qabs x <= top)%Q) (entry_results alpha gamma r m old).

(** [QLearningAgent.update_q_table] with the arithmetic of line 110
    rounded; everything else is as in [Agent.update_q_table]. *)
Definition update_q_table (ag : agent) (state : list json) (action : json)
           (reward : json) (next_state : list json) : agent * outcome unit :=
  let action_str := py_str action in
  let t1 := match q_table ag !! action_str with
            | Some _ => q_table ag
            | None => <[action_str := np_zeros (state_size ag)]> (q_table ag)
            end in
  let current_q := default [] (t1 !! action_str) in
  match as_vector next_state with
  | None => (set_q_table ag t1, Raised)
  | Some nv =>
      match py_max (map (fun _ => predict nv) (map_to_list t1)) with
      | None => (set_q_table ag t1, Raised)
      | Some next_max_q =>
          match as_number reward with
          | None => (set_q_table ag t1, Raised)
          | Some r =>
              let alpha := learning_rate ag in
              let gamma := discount_factor ag in
              let new_q := map (blend alpha gamma r next_max_q) current_q in
              let t2 := <[action_str := new_q]> t1 in
              let steps := (total_steps ag + 1)%Z in
              let ag2 := mkAgent (state_size ag) alpha gamma (save_interval ag)
                                 (possible_paths ag) t2
                                 (recent_rewards ag ++ [reward]) steps
                                 (saved_models ag) in
              if (save_interval ag =? 0)%Z then (ag2, Raised)
              else if (steps mod save_interval ag =? 0)%Z
                   then (mkAgent (state_size ag) alpha gamma (save_interval ag)
                                 (possible_paths ag) t2
                                 (recent_rewards ag ++ [reward]) steps
                                 (saved_models ag ++ [steps]),
                         Returned tt)
                   else (ag2, Returned tt)
          end
      end
  end.

(** [n] successive calls with the same arguments. *)
Fixpoint update_times (n : nat) (ag : agent) (state : list json)
         (action reward : json) (next_state : list json) : agent :=
  match n with
  | O => ag
  | S k => update_times k (fst (update_q_table ag state action reward next_state))
                        state action reward next_state
  end.

End WithRounding.

End Floating.

(** ** Sample float64 values *)

Module Float64Samples.

Import PrimFloat.

(** The float64 nearest 0.1, 0.9 and 1e-17. *)
Definition tenth : float := 0x1.999999999999ap-4%float.
Definition nine_tenths : float := 0x1.ccccccccccccdp-1%float.
Definition rate_1e_17 : float := 0x1.70ef54646d497p-57%float.

(** [5 * 2^-1074], which prints as 2.5e-323. *)
Definition five_ulps : float := 0x1.4p-1072%float.

Definition five : float := 5%float.

(** 1/4, 3 and -7/8. *)
Definition quarter : float := 0x1p-2%float.
Definition three : float := 3%float.
Definition minus_seven_eighths : float := (- 0x1.cp-1)%float.

End Float64Samples.

(** ** Sample runs used by the examples of the later sections *)

Module Scenarios.

Import Samples.

(** An /update body on [path_a] with the given reward. *)
Definition update_fields (reward : json) : list (string * json) :=
  [("state", JArr sample_state); ("action", path_a); ("reward", reward);
   ("next_state", JArr zero_state)].

(** An agent for one pair with two candidates, saving every second step,
    freshly constructed and after two accepted updates. *)
Definition started_agent : Agent.agent :=
  AgentService.construct sample_str 4 (1 # 2) (9 # 10) 2
                         {["1->4" := [path_a; path_b]]}.

Definition served_agent : Agent.agent :=
  fst (Agent.update sample_str sample_model
         (fst (Agent.update sample_str sample_model started_agent
                            (Some (JObj (update_fields (JNum 1))))))
         (Some (JObj (update_fields (JNum 0))))).

(** The same agent configured with a save interval of 0, and with a pair
    that has no candidate. *)
Definition never_saving_agent : Agent.agent :=
  AgentService.construct sample_str 4 (1 # 2) (9 # 10) 0
                         {["1->4" := [path_a; path_b]; "4->1" := []]}.

Definition get_path_fields (src dst : Z) : list (string * json) :=
  [("src", JNum (inject_Z src)); ("dst", JNum (inject_Z dst));
   ("state", JArr sample_state)].

(** The two switches of [sample_descriptor] connect, one after the
    other, while the descriptor is readable. *)
Definition connect_switch (s : ControllerEvents.app) (dpid : Z)
  : ControllerEvents.app :=
  ControllerEvents.switch_features_handler sample_str_match sample_str_actions
    sample_str_action s (Some sample_descriptor) (Controller.mkDatapath dpid).

Definition two_switch_app : ControllerEvents.app :=
  connect_switch (connect_switch ControllerEvents.initial_app 1) 2.

(** A TCP packet from h1 seen on port 1 of s1, and the answer from h2
    seen on port 2 of the same switch. *)
Definition first_packet : Controller.packet_in :=
  Controller.mkPacketIn (Controller.mkDatapath 1) 1
    "00:00:00:00:00:01" "00:00:00:00:00:02" 0x0800
    (Some ("10.0.0.1", "10.0.0.2")) Controller.OFP_NO_BUFFER "syn".

Definition reply_packet : Controller.packet_in :=
  Controller.mkPacketIn (Controller.mkDatapath 1) 2
    "00:00:00:00:00:02" "00:00:00:00:00:01" 0x0800
    (Some ("10.0.0.2", "10.0.0.1")) Controller.OFP_NO_BUFFER "ack".

(** A /force_path body that names its path. *)
Definition forced_path_request : list (string * json) :=
  [("src_ip", JStr "10.0.0.1"); ("dst_ip", JStr "10.0.0.2");
   ("path", Controller.path_of_nodes [1%Z; 2%Z])].

(** The switch statistics after one bridge has been polled. *)
Definition polled_switch_stats : list (string * MonitorState.bridge_stats) :=
  [("s1", MonitorState.mkBridgeStats
            (Some {[1%Z := [("rx_bytes", 456%Z); ("rx_drop", 0%Z);
                            ("tx_bytes", 20%Z); ("tx_drop", 1%Z)]]})
            (Some 1%Q))].

(** Agents whose rates and entries are float64 values: the discount is
    the float64 nearest 0.9; the rate is 0.5 for the first, the float64
    nearest 1e-17 for the second and the float64 nearest 0.1 for the
    third, whose entry holds [5 * 2^-1074] and its opposite. *)
Definition float_agent : Agent.agent :=
  Agent.mkAgent 4 (1 # 2) (Floating.round_to Floating.Double (9 # 10)) 100
                {["1->4" := [path_a; path_b]]}
                {["[1, 2, 4]" := [1%Q; (-2)%Q; 0%Q; 4%Q]]}
                [] 0 [].

Definition slow_agent : Agent.agent :=
  Agent.mkAgent 4 (Floating.round_to Floating.Double (1 # 100000000000000000))
                (Floating.round_to Floating.Double (9 # 10)) 100
                {["1->4" := [path_a; path_b]]}
                {["[1, 2, 4]" := [5%Q; (-3)%Q; 0%Q; 1%Q]]}
                [] 0 [].

Definition stalled_agent : Agent.agent :=
  Agent.mkAgent 4 (Floating.round_to Floating.Double (1 # 10))
                (Floating.round_to Floating.Double (9 # 10)) 100
                {["1->4" := [path_a; path_b]]}
                {["[1, 2, 4]" := [5 * Floating.pow2 (-1074);
                                  - (5 * Floating.pow2 (-1074)); 0; 0]%Q]}
                [] 0 [].

(** The entry of [path_a] after [n] updates with reward 0 and a zero
    next state, the scalars in float64. *)
Definition entry_after (n : nat) (ag : Agent.agent) : option (list Q) :=
  Agent.q_table
    (Floating.update_times (Floating.round_to Floating.Double)
                           (Floating.round_to Floating.Double)
                           sample_str sample_model n ag sample_state path_a
                           (JNum 0) zero_state)
  !! "[1, 2, 4]".

End Scenarios.

(** * Properties *)

(** ** The agent *)

Section AgentProperties.

Import Agent.

Variable py_str : json -> string.
Variable predict : list Q -> Q.

Lemma Qlt_le_dec_refl (x : Q) : exists H, Qlt_le_dec x x = right H.
Proof.
  destruct (Qlt_le_dec x x) as [Hlt | Hle].
  - exfalso. exact (Qlt_irrefl x Hlt).
  - exists Hle. reflexivity.
Qed.

Lemma argmax_from_const (x : Q) (n i j : nat) :
  argmax_from x i j (replicate n x) = i.
Proof.
  revert j. induction n as [| n IH]; intros j; simpl.
  - reflexivity.
  - destruct (Qlt_le_dec_refl x) as [H ->]. apply IH.
Qed.

Lemma np_argmax_const (x : Q) (n : nat) : np_argmax (replicate n x) = 0.
Proof. destruct n; simpl; [reflexivity | apply argmax_from_const]. Qed.

Lemma max_from_const (x : Q) (n : nat) : max_from x (replicate n x) = x.
Proof.
  induction n as [| n IH]; simpl.
  - reflexivity.
  - destruct (Qlt_le_dec_refl x) as [H ->]. exact IH.
Qed.

Lemma map_const_replicate {A B} (b : B) (l : list A) :
  map (fun _ => b) l = replicate (length l) b.
Proof. induction l; simpl; congruence. Qed.

Lemma py_max_const {A} (x : Q) (l : list A) :
  l <> [] -> py_max (map (fun _ => x) l) = Some x.
Proof.
  destruct l as [| a l]; [congruence |]. intros _. simpl.
  rewrite map_const_replicate, max_from_const. reflexivity.
Qed.

(** Every candidate is scored with the same model output. *)
Lemma score_paths_values (paths : list json) (t : gmap string (list Q))
      (n : nat) (v : list Q) :
  snd (score_paths py_str predict t n (Some v) paths)
  = Returned (replicate (length paths) (predict v)).
Proof.
  revert t. induction paths as [| p rest IH]; intros t; simpl.
  - reflexivity.
  - match goal with
    | |- context [score_paths _ _ ?t1 _ _ rest] => specialize (IH t1);
        destruct (score_paths py_str predict t1 n (Some v) rest) as [t2 o]
    end.
    simpl in IH. subst o. reflexivity.
Qed.

(** C2. For a select-path request whose "src->dst" key has a non-empty
    candidate list, every candidate receives the model's output on the
    state vector alone, the first maximum is at index 0, and
    [get_action] returns the first candidate with action index 0. *)
Theorem get_action_first_candidate (ag : agent) (state : list json)
        (v : list Q) (src dst first : json) (rest : list json) :
  possible_paths ag !! path_key py_str src dst = Some (first :: rest) ->
  as_vector state = Some v ->
  snd (score_paths py_str predict (q_table ag) (state_size ag) (Some v)
                   (first :: rest))
  = Returned (replicate (S (length rest)) (predict v))
  /\ np_argmax (replicate (S (length rest)) (predict v)) = 0
  /\ snd (get_action py_str predict ag state src dst)
     = Returned (Some (first, 0)).
Proof.
  intros Hkey Hvec.
  pose proof (score_paths_values (first :: rest) (q_table ag)
                                 (state_size ag) v) as Hscore.
  split; [exact Hscore |].
  split; [apply np_argmax_const |].
  unfold get_action. rewrite Hkey, Hvec.
  destruct (score_paths py_str predict (q_table ag) (state_size ag)
                        (Some v) (first :: rest)) as [t o].
  cbn [snd] in Hscore. subst o.
  rewrite np_argmax_const. reflexivity.
Qed.

(** C5. A /get_path request whose state field is not a list of length
    [state_size], or whose "src->dst" key is not in the possible-paths
    table, is answered with a 400 response and leaves the agent (value
    table included) as it was. *)
Theorem get_path_rejects_bad_request (ag : agent) (fields : list (string * json)) :
  (is_state_list ag (get_or_null "state" fields) = None ->
   exists msg, get_path py_str predict ag (Some (JObj fields))
               = (ag, Error400 msg))
  /\ (possible_paths ag
        !! path_key py_str (get_or_null "src" fields) (get_or_null "dst" fields)
      = None ->
      exists msg, get_path py_str predict ag (Some (JObj fields))
                  = (ag, Error400 msg)).
Proof.
  split; intros H; unfold get_path.
  - destruct (negb (truthy (JObj fields))); [eauto |].
    destruct (negb (truthy (get_or_null "src" fields))
              || negb (truthy (get_or_null "dst" fields))); [eauto |].
    rewrite H. eauto.
  - destruct (negb (truthy (JObj fields))); [eauto |].
    destruct (negb (truthy (get_or_null "src" fields))
              || negb (truthy (get_or_null "dst" fields))); [eauto |].
    destruct (is_state_list ag (get_or_null "state" fields)); [| eauto].
    rewrite H. eauto.
Qed.

Lemma update_q_table_step (ag : agent) (state : list json) (action reward : json)
      (next_state : list json) (r : Q) (nv : list Q) :
  as_number reward = Some r ->
  as_vector next_state = Some nv ->
  let key := py_str action in
  let old := default (np_zeros (state_size ag)) (q_table ag !! key) in
  let alpha := learning_rate ag in
  let gamma := discount_factor ag in
  let new_q := map (fun x => (1 - alpha) * x
                             + alpha * (r + gamma * predict nv))%Q old in
  let ag' := fst (update_q_table py_str predict ag state action reward next_state) in
  q_table ag' = <[key := new_q]> (q_table ag)
  /\ recent_rewards ag' = (recent_rewards ag ++ [reward])%list
  /\ total_steps ag' = (total_steps ag + 1)%Z
  /\ learning_rate ag' = alpha /\ discount_factor ag' = gamma
  /\ state_size ag' = state_size ag
  /\ (save_interval ag <> 0%Z ->
      snd (update_q_table py_str predict ag state action reward next_state)
      = Returned tt).
Proof.
  intros Hr Hnv key old alpha gamma new_q ag'.
  subst ag'. unfold update_q_table. fold key. rewrite Hnv, Hr.
  set (t1 := match q_table ag !! key with
             | Some _ => q_table ag
             | None => <[key := np_zeros (state_size ag)]> (q_table ag)
             end).
  assert (Hcur : t1 !! key = Some old).
  { subst t1 old. destruct (q_table ag !! key) eqn:E; simpl.
    - exact E.
    - apply lookup_insert_eq. }
  assert (Hne : map_to_list t1 <> []).
  { intros Hnil. apply map_to_list_empty_iff in Hnil.
    rewrite Hnil, lookup_empty in Hcur. discriminate. }
  rewrite (py_max_const _ _ Hne). rewrite Hcur. simpl.
  assert (Ht2 : <[key := new_q]> t1 = <[key := new_q]> (q_table ag)).
  { subst t1. destruct (q_table ag !! key); [reflexivity |].
    apply insert_insert_eq. }
  destruct (Z.eqb_spec (save_interval ag) 0) as [E0 | E0].
  - simpl. split; [exact Ht2 |]. repeat split; try reflexivity.
    intros; contradiction.
  - destruct ((total_steps ag + 1) mod save_interval ag =? 0)%Z;
      simpl; (split; [exact Ht2 |]); repeat split; reflexivity.
Qed.

(** C10. An /update request whose action field is falsy (the number 0,
    the empty string) is answered 400 "Missing required fields" and
    leaves the agent untouched, although all four fields are present
    and the state vectors have the right length; a request with reward
    0 and a truthy action is accepted: the table is updated, the reward
    recorded and the step counter advanced. *)
Theorem update_rejects_falsy_action (ag : agent) (fields : list (string * json))
        (state next_state : list json) (action reward : json) (nv : list Q) :
  dict_get "state" fields = Some (JArr state) ->
  dict_get "action" fields = Some action ->
  dict_get "reward" fields = Some reward ->
  dict_get "next_state" fields = Some (JArr next_state) ->
  length state = state_size ag ->
  length next_state = state_size ag ->
  (truthy action = false ->
   update py_str predict ag (Some (JObj fields))
   = (ag, Error400 "Missing required fields"))
  /\ truthy (JNum 0) = false /\ truthy (JStr "") = false
  /\ (truthy action = true -> reward = JNum 0 ->
      0 < state_size ag -> save_interval ag <> 0%Z ->
      as_vector next_state = Some nv ->
      let ag' := fst (update_q_table py_str predict ag state action
                                     (JNum 0) next_state) in
      update py_str predict ag (Some (JObj fields)) = (ag', StatusSuccess)
      /\ recent_rewards ag' = (recent_rewards ag ++ [JNum 0])%list
      /\ total_steps ag' = (total_steps ag + 1)%Z
      /\ is_Some (q_table ag' !! py_str action)).
Proof.
  intros Hs Ha Hr Hn Hls Hln.
  split; [| split; [reflexivity | split; [reflexivity |]]].
  - intros Hfalsy. unfold update, get_or_null.
    rewrite Hs, Ha, Hr, Hn. simpl. rewrite Hfalsy.
    rewrite andb_false_r. reflexivity.
  - intros Htruthy -> Hpos Hsave Hnv ag'.
    assert (Hnum : as_number (JNum 0) = Some 0%Q) by reflexivity.
    destruct (update_q_table_step ag state action (JNum 0) next_state 0%Q nv
                                  Hnum Hnv)
      as (Hq & Hrew & Hsteps & _ & _ & _ & Hret).
    specialize (Hret Hsave).
    split; [| split; [exact Hrew | split; [exact Hsteps |]]].
    + unfold update, get_or_null. rewrite Hs, Ha, Hr, Hn. simpl.
      rewrite Htruthy.
      destruct state as [| s0 state']; [simpl in Hls; lia |].
      destruct next_state as [| n0 next']; [simpl in Hln; lia |].
      cbn [truthy is_not_none andb negb is_state_list].
      rewrite Hls, Hln, Nat.eqb_refl.
      fold ag' in Hret.
      destruct (update_q_table py_str predict ag (s0 :: state') action
                               (JNum 0) (n0 :: next')) as [a o] eqn:E.
      simpl in Hret. subst o. reflexivity.
    + fold ag' in Hq. rewrite Hq, lookup_insert_eq. eauto.
Qed.

End AgentProperties.

(** ** Rounding to a binary format *)

Section RoundingProperties.

Import Floating.

Lemma pow2_pos (e : Z) : (0 < pow2 e)%Q.
Proof. apply Qpower_0_lt. reflexivity. Qed.

Lemma pow2_add (a b : Z) : (pow2 (a + b) == pow2 a * pow2 b)%Q.
Proof. apply Qpower_plus. discriminate. Qed.

Lemma pow2_Z (n : Z) : (0 <= n)%Z -> (pow2 n == inject_Z (2 ^ n))%Q.
Proof. intros H. symmetry. apply (Zpower_Qpower 2 n H). Qed.

Lemma pow2_cancel (e : Z) : (pow2 (- e) * pow2 e == 1)%Q.
Proof. rewrite <- pow2_add. replace (- e + e)%Z with 0%Z by lia. reflexivity. Qed.

Lemma pow2_le (a b : Z) : (a <= b)%Z -> (pow2 a <= pow2 b)%Q.
Proof. intros H. apply Qpower_le_compat_l; [exact H | discriminate]. Qed.

Lemma pow2_lt (a b : Z) : (a < b)%Z -> (pow2 a < pow2 b)%Q.
Proof. intros H. apply Qpower_lt_compat_l; [exact H | reflexivity]. Qed.

Lemma pow2_lt_inv (a b : Z) : (pow2 a < pow2 b)%Q -> (a < b)%Z.
Proof. intros H. apply (Qpower_lt_compat_l_inv 2); [exact H | reflexivity]. Qed.

(** Scaling by a power of two keeps the order. *)
Lemma scale_le (x y : Q) (e : Z) : (x <= y)%Q -> (x * pow2 e <= y * pow2 e)%Q.
Proof. intros H. apply Qmult_le_compat_r; [exact H | apply Qlt_le_weak, pow2_pos]. Qed.

Lemma scale_lt (x y : Q) (e : Z) : (x < y)%Q -> (x * pow2 e < y * pow2 e)%Q.
Proof. intros H. apply Qmult_lt_compat_r; [apply pow2_pos | exact H]. Qed.

Lemma scale_back (x : Q) (e : Z) : (x * pow2 (- e) * pow2 e == x)%Q.
Proof. rewrite <- Qmult_assoc, pow2_cancel. ring. Qed.

(** [ilog2 x] is the exponent of the binade of a positive [x]. *)
Lemma ilog2_spec (x : Q) :
  (0 < x)%Q -> (pow2 (ilog2 x) <= x /\ x < pow2 (ilog2 x + 1))%Q.
Proof.
  intros Hx. destruct x as [n d].
  assert (Hn : (0 < n)%Z).
  { unfold Qlt in Hx. simpl in Hx. lia. }
  unfold ilog2. cbn [Qnum Qden].
  set (a := Z.log2 n). set (b := Z.log2 (Z.pos d)).
  destruct (Z.log2_spec n Hn) as [Ha1 Ha2]. fold a in Ha1, Ha2.
  destruct (Z.log2_spec (Z.pos d) eq_refl) as [Hb1 Hb2]. fold b in Hb1, Hb2.
  assert (Ha0 : (0 <= a)%Z) by apply Z.log2_nonneg.
  assert (Hb0 : (0 <= b)%Z) by apply Z.log2_nonneg.
  assert (Hcross : forall A B : Z, (0 < B)%Z ->
            ((inject_Z A * inject_Z (Z.pos d) <= inject_Z n * inject_Z B)%Q
             <-> (A * Z.pos d <= n * B)%Z)
            /\ ((inject_Z n * inject_Z B < inject_Z A * inject_Z (Z.pos d))%Q
                <-> (n * B < A * Z.pos d)%Z)).
  { intros A B HB. rewrite <- !inject_Z_mult. rewrite <- Zle_Qle, <- Zlt_Qlt. tauto. }
  assert (Hx' : ((n # d) * inject_Z (Z.pos d) == inject_Z n)%Q).
  { unfold Qeq, Qmult, inject_Z. cbn [Qnum Qden]. rewrite Pos.mul_1_r. ring. }
  (* the bracket with [k - 1] and [k + 1] *)
  assert (Hlow : (pow2 (a - b - 1) <= n # d)%Q).
  { apply (Qmult_le_r _ _ (pow2 (b + 1) * inject_Z (Z.pos d))%Q).
    - apply Qmult_lt_0_compat; [apply pow2_pos |].
      change 0%Q with (inject_Z 0). rewrite <- Zlt_Qlt. lia.
    - rewrite Qmult_assoc, <- pow2_add.
      replace (a - b - 1 + (b + 1))%Z with a by lia.
      rewrite (Qmult_comm (pow2 (b + 1))), Qmult_assoc, Hx'.
      rewrite !pow2_Z by lia.
      apply (Hcross (2 ^ a)%Z (2 ^ (b + 1))%Z); [lia |].
      unfold Z.succ in *. nia. }
  assert (Hhigh : (n # d < pow2 (a - b + 1))%Q).
  { apply (Qmult_lt_r _ _ (pow2 b * inject_Z (Z.pos d))%Q).
    - apply Qmult_lt_0_compat; [apply pow2_pos |].
      change 0%Q with (inject_Z 0). rewrite <- Zlt_Qlt. lia.
    - rewrite (Qmult_assoc (pow2 (a - b + 1))), <- pow2_add.
      replace (a - b + 1 + b)%Z with (a + 1)%Z by lia.
      rewrite (Qmult_comm (pow2 b)), Qmult_assoc, Hx'.
      rewrite !pow2_Z by lia.
      apply (Hcross (2 ^ (a + 1))%Z (2 ^ b)%Z); [lia |].
      unfold Z.succ in *. nia. }
  destruct (Qle_bool (pow2 (a - b)) (n # d)) eqn:E.
  - apply Qle_bool_iff in E. split; assumption.
  - replace (a - b - 1 + 1)%Z with (a - b)%Z by lia.
    split; [exact Hlow |].
    apply Qnot_le_lt. intros Hle. apply Qle_bool_iff in Hle. congruence.
Qed.

Lemma ilog2_unique (x : Q) (k : Z) :
  (pow2 k <= x)%Q -> (x < pow2 (k + 1))%Q -> ilog2 x = k.
Proof.
  intros Hlo Hhi.
  assert (Hx : (0 < x)%Q) by (pose proof (pow2_pos k); lra).
  destruct (ilog2_spec x Hx) as [Hlo' Hhi'].
  assert (ilog2 x < k + 1)%Z by (apply pow2_lt_inv; lra).
  assert (k < ilog2 x + 1)%Z by (apply pow2_lt_inv; lra).
  lia.
Qed.

Lemma ilog2_le (x y : Q) : (0 < x)%Q -> (x <= y)%Q -> (ilog2 x <= ilog2 y)%Z.
Proof.
  intros Hx Hxy.
  destruct (ilog2_spec x Hx) as [Hlo _].
  destruct (ilog2_spec y) as [_ Hhi]; [lra |].
  assert (ilog2 x < ilog2 y + 1)%Z by (apply pow2_lt_inv; lra).
  lia.
Qed.

(** Rounding to the nearest integer, ties to even. *)
Lemma round_even_Z (n : Z) : round_even (inject_Z n) = n.
Proof.
  unfold round_even. rewrite Qfloor_Z.
  destruct (Qcompare_spec (inject_Z n - inject_Z n) (1 # 2)) as [H | H | H].
  - exfalso. lra.
  - reflexivity.
  - exfalso. lra.
Qed.

Lemma round_even_comp (x y : Q) : (x == y)%Q -> round_even x = round_even y.
Proof.
  intros H. unfold round_even.
  rewrite (Qfloor_comp _ _ H).
  assert (E : (x - inject_Z (Qfloor y) == y - inject_Z (Qfloor y))%Q) by (rewrite H; reflexivity).
  rewrite (Qcompare_comp _ _ E _ _ (Qeq_refl (1 # 2))). reflexivity.
Qed.

Lemma round_even_le (x y : Q) : (x <= y)%Q -> (round_even x <= round_even y)%Z.
Proof.
  intros Hxy.
  pose proof (Qfloor_resp_le _ _ Hxy) as Hf.
  pose proof (Qfloor_le x) as Hx1. pose proof (Qlt_floor x) as Hx2.
  pose proof (Qfloor_le y) as Hy1. pose proof (Qlt_floor y) as Hy2.
  unfold round_even.
  destruct (Z.eq_dec (Qfloor x) (Qfloor y)) as [E | NE].
  - rewrite <- E in *.
    destruct (Qcompare_spec (x - inject_Z (Qfloor x)) (1 # 2)) as [H1 | H1 | H1];
      destruct (Qcompare_spec (y - inject_Z (Qfloor x)) (1 # 2)) as [H2 | H2 | H2];
      try (exfalso; lra); destruct (Z.even (Qfloor x)); lia.
  - assert (Hlt : (Qfloor x + 1 <= Qfloor y)%Z) by lia.
    destruct (Qcompare_spec (x - inject_Z (Qfloor x)) (1 # 2)) as [H1 | H1 | H1];
      destruct (Qcompare_spec (y - inject_Z (Qfloor y)) (1 # 2)) as [H2 | H2 | H2];
      try destruct (Z.even (Qfloor x)); try destruct (Z.even (Qfloor y)); lia.
Qed.

Section Format.

Variables p emin : Z.
Hypothesis Hp : (1 <= p)%Z.

Lemma round_pos_nonneg (x : Q) : (0 < x)%Q -> (0 <= round_pos p emin x)%Q.
Proof.
  intros Hx. unfold round_pos.
  apply Qmult_le_0_compat; [| apply Qlt_le_weak, pow2_pos].
  change 0%Q with (inject_Z 0). rewrite <- Zle_Qle.
  rewrite <- (round_even_Z 0). apply round_even_le.
  apply Qmult_le_0_compat; [lra | apply Qlt_le_weak, pow2_pos].
Qed.

(** A positive value at or below a power of two that the grid of exponent
    [e] holds is rounded, on that grid, at or below it; likewise above. *)
Lemma grid_le (x : Q) (e k : Z) :
  (e <= k)%Z -> (x <= pow2 k)%Q ->
  (inject_Z (round_even (x * pow2 (- e))) * pow2 e <= pow2 k)%Q.
Proof.
  intros Hek Hx.
  assert (E : (pow2 k == inject_Z (2 ^ (k - e)) * pow2 e)%Q).
  { rewrite <- pow2_Z by lia. rewrite <- pow2_add.
    replace (k - e + e)%Z with k by lia. reflexivity. }
  rewrite E. apply scale_le. rewrite <- Zle_Qle.
  rewrite <- (round_even_Z (2 ^ (k - e))). apply round_even_le.
  rewrite <- pow2_Z by lia.
  replace (k - e)%Z with (k + - e)%Z by lia. rewrite pow2_add.
  apply scale_le. exact Hx.
Qed.

Lemma grid_ge (x : Q) (e k : Z) :
  (e <= k)%Z -> (pow2 k <= x)%Q ->
  (pow2 k <= inject_Z (round_even (x * pow2 (- e))) * pow2 e)%Q.
Proof.
  intros Hek Hx.
  assert (E : (pow2 k == inject_Z (2 ^ (k - e)) * pow2 e)%Q).
  { rewrite <- pow2_Z by lia. rewrite <- pow2_add.
    replace (k - e + e)%Z with k by lia. reflexivity. }
  rewrite E. apply scale_le. rewrite <- Zle_Qle.
  rewrite <- (round_even_Z (2 ^ (k - e))) at 1. apply round_even_le.
  rewrite <- pow2_Z by lia.
  replace (k - e)%Z with (k + - e)%Z by lia. rewrite pow2_add.
  apply scale_le. exact Hx.
Qed.

Lemma round_pos_le (x y : Q) :
  (0 < x)%Q -> (x <= y)%Q -> (round_pos p emin x <= round_pos p emin y)%Q.
Proof.
  intros Hx Hxy.
  assert (Hy : (0 < y)%Q) by lra.
  pose proof (ilog2_le x y Hx Hxy) as Hm.
  destruct (ilog2_spec x Hx) as [_ Hxhi].
  destruct (ilog2_spec y Hy) as [Hylo _].
  unfold round_pos.
  destruct (Z.eq_dec (Z.max (ilog2 x - p + 1) emin) (Z.max (ilog2 y - p + 1) emin))
    as [E | NE].
  - rewrite E. apply scale_le. rewrite <- Zle_Qle.
    apply round_even_le. apply scale_le. exact Hxy.
  - assert (Hlt : (ilog2 x + 1 <= ilog2 y)%Z) by lia.
    apply (Qle_trans _ (pow2 (ilog2 y))).
    + apply grid_le; [lia |].
      apply (Qle_trans _ (pow2 (ilog2 x + 1))); [lra | apply pow2_le; lia].
    + apply grid_ge; [lia | exact Hylo].
Qed.

(** The values of the format: a significand of at most [p] bits at an
    exponent not below [emin]. *)
Lemma round_pos_fixes (x : Q) (n e : Z) :
  (0 < n)%Z -> (n <= 2 ^ p)%Z -> (emin <= e)%Z ->
  (x == inject_Z n * pow2 e)%Q -> (round_pos p emin x == x)%Q.
Proof.
  intros Hn Hnp He Hx.
  destruct (Z.log2_spec n Hn) as [Hl1 Hl2].
  pose proof (Z.log2_nonneg n) as Hl0.
  set (l := Z.log2 n) in *. unfold Z.succ in Hl2.
  assert (Hmag : ilog2 x = (l + e)%Z).
  { apply ilog2_unique; rewrite Hx.
    - rewrite pow2_add. apply scale_le. rewrite pow2_Z by lia.
      rewrite <- Zle_Qle. exact Hl1.
    - replace (l + e + 1)%Z with (l + 1 + e)%Z by lia.
      rewrite pow2_add. apply scale_lt. rewrite pow2_Z by lia.
      rewrite <- Zlt_Qlt. exact Hl2. }
  unfold round_pos. rewrite Hmag.
  set (e' := Z.max (l + e - p + 1) emin).
  assert (HN : exists N : Z, (x == inject_Z N * pow2 e')%Q).
  { destruct (Z_le_gt_dec e' e) as [Hle | Hgt].
    - exists (n * 2 ^ (e - e'))%Z.
      rewrite Hx, inject_Z_mult, <- pow2_Z by lia.
      rewrite <- Qmult_assoc, <- pow2_add. f_equiv. f_equiv. lia.
    - assert (Hlp : (p <= l)%Z) by lia.
      assert (Hpow : (2 ^ p <= 2 ^ l)%Z) by (apply Z.pow_le_mono_r; lia).
      assert (Hn' : n = (2 ^ p)%Z) by lia.
      assert (Hl : l = p).
      { subst l. rewrite Hn'. apply Z.log2_pow2. lia. }
      exists (2 ^ (p - 1))%Z.
      rewrite Hx, Hn', <- !pow2_Z by lia.
      rewrite <- !pow2_add. f_equiv. lia. }
  destruct HN as [N HN].
  assert (E : (x * pow2 (- e') == inject_Z N)%Q).
  { rewrite HN, <- Qmult_assoc, (Qmult_comm (pow2 e')), pow2_cancel. ring. }
  rewrite (round_even_comp _ _ E), round_even_Z. symmetry. exact HN.
Qed.

Lemma round_pos_format (x : Q) :
  (0 < x)%Q ->
  exists n : Z, (0 <= n)%Z /\ (n <= 2 ^ p)%Z
    /\ (round_pos p emin x
        == inject_Z n * pow2 (Z.max (ilog2 x - p + 1) emin))%Q.
Proof.
  intros Hx. destruct (ilog2_spec x Hx) as [_ Hhi].
  exists (round_even (x * pow2 (- Z.max (ilog2 x - p + 1) emin))).
  split; [| split; [| reflexivity]].
  - rewrite <- (round_even_Z 0). apply round_even_le.
    apply Qmult_le_0_compat; [lra | apply Qlt_le_weak, pow2_pos].
  - rewrite <- (round_even_Z (2 ^ p)). apply round_even_le.
    rewrite <- pow2_Z by lia.
    apply (Qle_trans _ (pow2 (ilog2 x + 1)
                        * pow2 (- Z.max (ilog2 x - p + 1) emin))).
    + apply scale_le. lra.
    + rewrite <- pow2_add. apply pow2_le. lia.
Qed.

Lemma round_pos_idem (x : Q) :
  (0 < x)%Q ->
  (round_pos p emin x == 0)%Q
  \/ ((0 < round_pos p emin x)%Q
      /\ (round_pos p emin (round_pos p emin x) == round_pos p emin x)%Q).
Proof.
  intros Hx.
  destruct (round_pos_format x Hx) as (n & Hn0 & Hnp & Hval).
  destruct (Z.eq_dec n 0%Z) as [-> | Hne].
  - left. rewrite Hval. ring.
  - right. split.
    + rewrite Hval. apply Qmult_lt_0_compat; [| apply pow2_pos].
      change 0%Q with (inject_Z 0). rewrite <- Zlt_Qlt. lia.
    + apply (round_pos_fixes _ n (Z.max (ilog2 x - p + 1) emin));
        [lia | assumption | apply Z.le_max_r | exact Hval].
Qed.

Lemma round_pos_comp (x y : Q) :
  (0 < x)%Q -> (x == y)%Q -> (round_pos p emin x == round_pos p emin y)%Q.
Proof.
  intros Hx Hxy. apply Qle_antisym; apply round_pos_le; lra.
Qed.

Lemma binary_le (x y : Q) : (x <= y)%Q -> (binary p emin x <= binary p emin y)%Q.
Proof.
  intros Hxy. unfold binary.
  destruct (Qcompare_spec x 0) as [Hx | Hx | Hx];
    destruct (Qcompare_spec y 0) as [Hy | Hy | Hy]; try (exfalso; lra).
  - lra.
  - apply round_pos_nonneg. exact Hy.
  - assert (0 <= round_pos p emin (- x))%Q by (apply round_pos_nonneg; lra). lra.
  - assert (round_pos p emin (- y) <= round_pos p emin (- x))%Q
      by (apply round_pos_le; lra).
    lra.
  - assert (0 <= round_pos p emin (- x))%Q by (apply round_pos_nonneg; lra).
    assert (0 <= round_pos p emin y)%Q by (apply round_pos_nonneg; lra).
    lra.
  - apply round_pos_le; assumption.
Qed.

Lemma binary_idem (x : Q) : (binary p emin (binary p emin x) == binary p emin x)%Q.
Proof.
  unfold binary at 2 3.
  destruct (Qcompare_spec x 0) as [Hx | Hx | Hx].
  - reflexivity.
  - assert (Hx' : (0 < - x)%Q) by lra.
    destruct (round_pos_idem (- x) Hx') as [H0 | [Hpos Hfix]].
    + unfold binary.
      destruct (Qcompare_spec (- round_pos p emin (- x)) 0) as [H | H | H];
        try (exfalso; lra). lra.
    + unfold binary.
      destruct (Qcompare_spec (- round_pos p emin (- x)) 0) as [H | H | H];
        try (exfalso; lra).
      assert (E : (round_pos p emin (- - round_pos p emin (- x))
                   == round_pos p emin (round_pos p emin (- x)))%Q).
      { apply round_pos_comp; [lra | ring]. }
      rewrite E, Hfix. reflexivity.
  - destruct (round_pos_idem x Hx) as [H0 | [Hpos Hfix]].
    + unfold binary.
      destruct (Qcompare_spec (round_pos p emin x) 0) as [H | H | H];
        try (exfalso; lra). lra.
    + unfold binary.
      destruct (Qcompare_spec (round_pos p emin x) 0) as [H | H | H];
        try (exfalso; lra).
      exact Hfix.
Qed.

Hypothesis Hemin : (emin <= 0)%Z.

Lemma binary_one : (binary p emin 1 == 1)%Q.
Proof.
  change (binary p emin 1) with (round_pos p emin 1).
  apply (round_pos_fixes 1%Q 1%Z 0%Z); [lia | | exact Hemin | reflexivity].
  assert (0 < 2 ^ p)%Z by (apply Z.pow_pos_nonneg; lia). lia.
Qed.

End Format.

Lemma binary_rounding (p emin : Z) :
  (1 <= p)%Z -> (emin <= 0)%Z -> rounding (binary p emin).
Proof.
  intros Hp Hemin. split; [| split; [| split]].
  - apply binary_le. exact Hp.
  - apply binary_idem. exact Hp.
  - reflexivity.
  - apply binary_one; assumption.
Qed.

Lemma round_to_rounding (f : precision) : rounding (round_to f).
Proof. destruct f; apply binary_rounding; lia. Qed.

Lemma largest_of_ge_1 (f : precision) : (1 <= largest_of f)%Q.
Proof. destruct f; apply Qle_bool_imp_le; vm_compute; reflexivity. Qed.

End RoundingProperties.

(** ** The update in floating point *)

Section FloatingUpdateProperties.

Import Agent.

Variable rnd : Q -> Q.
Variable rnd_s : Q -> Q.
Variable top : Q.
Variable top_s : Q.
Variable py_str : json -> string.
Variable predict : list Q -> Q.

Hypothesis rnd_rounding : Floating.rounding rnd.
Hypothesis rnd_s_rounding : Floating.rounding rnd_s.
Hypothesis top_ge_1 : (1 <= top)%Q.
Hypothesis top_s_ge_1 : (1 <= top_s)%Q.

Lemma rounding_proper (f : Q -> Q) (x y : Q) :
  Floating.rounding f -> (x == y)%Q -> (f x == f y)%Q.
Proof.
  intros (Hmono & _) Hxy.
  apply Qle_antisym; apply Hmono; lra.
Qed.

Lemma rounding_zero (f : Q -> Q) (x : Q) :
  Floating.rounding f -> (x == 0)%Q -> (f x == 0)%Q.
Proof.
  intros Hf Hx. pose proof Hf as (_ & _ & H0 & _).
  apply (Qeq_trans _ (f 0%Q)); [| exact H0].
  apply rounding_proper; assumption.
Qed.

Lemma rounding_unit (f : Q -> Q) (x : Q) :
  Floating.rounding f -> (0 <= x)%Q -> (x <= 1)%Q -> (0 <= f x /\ f x <= 1)%Q.
Proof.
  intros (Hmono & _ & H0 & H1) Hx0 Hx1.
  pose proof (Hmono _ _ Hx0). pose proof (Hmono _ _ Hx1). split; lra.
Qed.

Lemma Qabs_within (x b : Q) : (- b <= x)%Q -> (x <= b)%Q -> (Qabs x <= b)%Q.
Proof. intros Hlo Hhi. apply Qabs_Qle_condition. split; assumption. Qed.

(** A zero reward and a zero estimate make every scalar after the
    conversions zero, whatever the rates. *)
Lemma target_zero (alpha gamma r m : Q) :
  (r == 0)%Q -> (m == 0)%Q ->
  (rnd_s r == 0)%Q
  /\ (rnd_s (rnd_s gamma * m) == 0)%Q
  /\ (rnd_s (rnd_s r + rnd_s (rnd_s gamma * m)) == 0)%Q
  /\ (Floating.target rnd_s alpha gamma r m == 0)%Q.
Proof.
  intros Hr Hm. unfold Floating.target.
  assert (E1 : (rnd_s (rnd_s gamma * m) == 0)%Q).
  { apply rounding_zero; [exact rnd_s_rounding |]. rewrite Hm. ring. }
  assert (E2 : (rnd_s r == 0)%Q) by (apply rounding_zero; assumption).
  assert (E3 : (rnd_s (rnd_s r + rnd_s (rnd_s gamma * m)) == 0)%Q).
  { apply rounding_zero; [exact rnd_s_rounding |]. rewrite E1, E2. ring. }
  split; [exact E2 | split; [exact E1 | split; [exact E3 |]]].
  apply rounding_zero; [exact rnd_s_rounding |]. rewrite E3. ring.
Qed.

(** With a zero target, line 110 moves a finite component of the format
    towards 0 and not past it, without leaving the range; the result is
    again of the format. *)
Lemma blend_towards_zero (alpha gamma r m y : Q) :
  (0 < alpha)%Q -> (alpha < 1)%Q -> (r == 0)%Q -> (m == 0)%Q ->
  (Qabs (rnd_s gamma) <= top_s)%Q ->
  (rnd y == y)%Q -> (Qabs y <= top)%Q ->
  let y' := Floating.blend rnd rnd_s alpha gamma r m y in
  (rnd y' == y')%Q
  /\ (Qabs y' <= Qabs y)%Q
  /\ ((0 <= y)%Q -> (0 <= y' /\ y' <= y)%Q)
  /\ ((y <= 0)%Q -> (y <= y' /\ y' <= 0)%Q)
  /\ Floating.in_range rnd rnd_s top top_s alpha gamma r m y.
Proof.
  intros Ha0 Ha1 Hr Hm Hg Hy Hytop y'.
  pose proof rnd_rounding as (Hmono & Hidem & H0 & H1).
  destruct (target_zero alpha gamma r m Hr Hm) as (Z1 & Z2 & Z3 & Ht).
  set (c := rnd (1 - alpha)%Q).
  assert (Hc : (0 <= c /\ c <= 1)%Q).
  { subst c. apply rounding_unit; [exact rnd_rounding | lra | lra]. }
  assert (Ey : (y' == rnd (c * y))%Q).
  { subst y'. unfold Floating.blend. fold c.
    apply (Qeq_trans _ (rnd (rnd (c * y)))); [| apply Hidem].
    apply rounding_proper; [exact rnd_rounding |]. rewrite Ht. ring. }
  assert (Hpos : (0 <= y)%Q -> (0 <= y' /\ y' <= y)%Q).
  { intros Hy0.
    assert (0 <= c * y)%Q by (apply Qmult_le_0_compat; lra).
    assert (0 <= (1 - c) * y)%Q by (apply Qmult_le_0_compat; lra).
    assert (rnd 0 <= rnd (c * y))%Q by (apply Hmono; lra).
    assert (rnd (c * y) <= rnd y)%Q by (apply Hmono; lra).
    split; lra. }
  assert (Hneg : (y <= 0)%Q -> (y <= y' /\ y' <= 0)%Q).
  { intros Hy0.
    assert (0 <= c * (- y))%Q by (apply Qmult_le_0_compat; lra).
    assert (0 <= (1 - c) * (- y))%Q by (apply Qmult_le_0_compat; lra).
    assert (rnd y <= rnd (c * y))%Q by (apply Hmono; lra).
    assert (rnd (c * y) <= rnd 0)%Q by (apply Hmono; lra).
    split; lra. }
  assert (Habs : (Qabs y' <= Qabs y)%Q).
  { destruct (Qlt_le_dec y 0) as [Hlt | Hge].
    - destruct Hneg as [Hlo Hhi]; [lra |].
      rewrite (Qabs_neg y), (Qabs_neg y') by lra. lra.
    - destruct (Hpos Hge) as [Hlo Hhi].
      rewrite (Qabs_pos y), (Qabs_pos y') by lra. lra. }
  split.
  { subst y'. unfold Floating.blend. apply Hidem. }
  split; [exact Habs |]. split; [exact Hpos |]. split; [exact Hneg |].
  assert (Hzero : forall x, (x == 0)%Q -> (Qabs x <= top_s)%Q).
  { intros x Hx. apply Qabs_within; lra. }
  split.
  - unfold Floating.scalar_results. repeat apply Forall_cons_2; try apply Forall_nil_2;
      try (apply Hzero; assumption); try exact Hg.
    destruct (rounding_unit rnd_s alpha rnd_s_rounding) as [Hlo Hhi]; [lra | lra |].
    apply Qabs_within; lra.
  - unfold Floating.entry_results. fold c. fold y'.
    repeat apply Forall_cons_2; try apply Forall_nil_2.
    + apply Qabs_within; lra.
    + rewrite <- Ey. lra.
    + lra.
Qed.

Lemma rounded_update_q_table_step (ag : agent) (state : list json)
      (action reward : json) (next_state : list json) (r : Q) (nv : list Q) :
  as_number reward = Some r ->
  as_vector next_state = Some nv ->
  let key := py_str action in
  let old := default (np_zeros (state_size ag)) (q_table ag !! key) in
  let alpha := learning_rate ag in
  let gamma := discount_factor ag in
  let new_q := map (Floating.blend rnd rnd_s alpha gamma r (predict nv)) old in
  let ag' := fst (Floating.update_q_table rnd rnd_s py_str predict ag state action
                                          reward next_state) in
  q_table ag' = <[key := new_q]> (q_table ag)
  /\ learning_rate ag' = alpha /\ discount_factor ag' = gamma.
Proof.
  intros Hr Hnv key old alpha gamma new_q ag'.
  subst ag'. unfold Floating.update_q_table. fold key. rewrite Hnv, Hr.
  set (t1 := match q_table ag !! key with
             | Some _ => q_table ag
             | None => <[key := np_zeros (state_size ag)]> (q_table ag)
             end).
  assert (Hcur : t1 !! key = Some old).
  { subst t1 old. destruct (q_table ag !! key) eqn:E; simpl.
    - exact E.
    - apply lookup_insert_eq. }
  assert (Hne : map_to_list t1 <> []).
  { intros Hnil. apply map_to_list_empty_iff in Hnil.
    rewrite Hnil, lookup_empty in Hcur. discriminate. }
  rewrite (py_max_const _ _ Hne). rewrite Hcur. simpl.
  assert (Ht2 : <[key := new_q]> t1 = <[key := new_q]> (q_table ag)).
  { subst t1. destruct (q_table ag !! key); [reflexivity |].
    apply insert_insert_eq. }
  destruct (save_interval ag =? 0)%Z; [| destruct (_ =? 0)%Z];
    simpl; (split; [exact Ht2 |]); split; reflexivity.
Qed.

Lemma rounded_update_times_last (n : nat) (ag : agent) (state : list json)
      (action reward : json) (next_state : list json) :
  Floating.update_times rnd rnd_s py_str predict (S n) ag state action reward
                        next_state
  = fst (Floating.update_q_table rnd rnd_s py_str predict
           (Floating.update_times rnd rnd_s py_str predict n ag state action
                                  reward next_state)
           state action reward next_state).
Proof.
  revert ag. induction n as [| n IH]; intros ag.
  - reflexivity.
  - change (Floating.update_times rnd rnd_s py_str predict (S (S n)) ag state
                                  action reward next_state)
      with (Floating.update_times rnd rnd_s py_str predict (S n)
              (fst (Floating.update_q_table rnd rnd_s py_str predict ag state
                                            action reward next_state))
              state action reward next_state).
    rewrite IH. reflexivity.
Qed.

(** Zero-target updates keep the rates, and keep the entry a list of
    finite values of the format. *)
Lemma rounded_update_times_format (n : nat) (ag : agent) (state : list json)
      (action reward : json) (next_state : list json) (r : Q)
      (nv v : list Q) :
  as_number reward = Some r -> as_vector next_state = Some nv ->
  (0 < learning_rate ag)%Q -> (learning_rate ag < 1)%Q ->
  (r == 0)%Q -> (predict nv == 0)%Q ->
  (Qabs (rnd_s (discount_factor ag)) <= top_s)%Q ->
  q_table ag !! py_str action = Some v ->
  Forall (fun x => (rnd x == x)%Q /\ (Qabs x <= top)%Q) v ->
  let agn := Floating.update_times rnd rnd_s py_str predict n ag state action
                                   reward next_state in
  learning_rate agn = learning_rate ag
  /\ discount_factor agn = discount_factor ag
  /\ exists vn, q_table agn !! py_str action = Some vn
       /\ Forall (fun x => (rnd x == x)%Q /\ (Qabs x <= top)%Q) vn.
Proof.
  intros Hr Hnv Ha0 Ha1 Hr0 Hm0 Hg Hv Hfmt.
  induction n as [| n IH].
  - simpl. split; [reflexivity | split; [reflexivity |]].
    exists v. split; assumption.
  - cbv zeta in IH. destruct IH as (Hlr & Hdf & vn & Hvn & Hall).
    cbv zeta. rewrite rounded_update_times_last.
    set (agn := Floating.update_times rnd rnd_s py_str predict n ag state action
                                      reward next_state) in *.
    destruct (rounded_update_q_table_step agn state action reward next_state r nv
                                          Hr Hnv)
      as (Hq & Hlr' & Hdf').
    cbv zeta in Hq, Hlr', Hdf'.
    split; [congruence | split; [congruence |]].
    rewrite Hq, lookup_insert_eq, Hvn. unfold default. cbn [from_option id].
    eexists. split; [reflexivity |].
    apply Forall_fmap. eapply Forall_impl; [exact Hall |].
    intros y [Hy Hytop]. unfold compose.
    assert (Ha0' : (0 < learning_rate agn)%Q) by (rewrite Hlr; exact Ha0).
    assert (Ha1' : (learning_rate agn < 1)%Q) by (rewrite Hlr; exact Ha1).
    assert (Hg' : (Qabs (rnd_s (discount_factor agn)) <= top_s)%Q)
      by (rewrite Hdf; exact Hg).
    destruct (blend_towards_zero (learning_rate agn) (discount_factor agn) r
                                 (predict nv) y Ha0' Ha1' Hr0 Hm0 Hg' Hy Hytop)
      as (Hfix & Habs & _).
    split; [exact Hfix | lra].
Qed.

End FloatingUpdateProperties.

Section FloatingUpdateClaim.

Import Agent.

Variable py_str : json -> string.
Variable predict : list Q -> Q.

(** Without rounding the update is [Agent.update_q_table]. *)
Lemma update_q_table_unrounded (ag : agent) (state : list json)
      (action reward : json) (next_state : list json) :
  Floating.update_q_table (fun x => x) (fun x => x) py_str predict ag state action
                          reward next_state
  = update_q_table py_str predict ag state action reward next_state.
Proof. reflexivity. Qed.

(** C1. In float64, with the scalar arithmetic in float64 or float32,
    one call of [update_q_table] on an entry holding [v] stores, as long
    as no operation overflows, the value of
    [(1 - alpha) * v + alpha * (r + gamma * m)] with every operation
    rounded to its format, [m] being the maximum of the next-state
    estimates.  With [r = 0], [m = 0] and [0 < alpha < 1], on an entry
    of finite float64 values and with a discount the scalar format
    holds, no update overflows, and each one leaves every component
    between 0 and its previous value: its magnitude never grows and its
    sign never flips.  A component need not shrink: rounding can return
    it unchanged. *)
Theorem update_q_table_rounded_blend (scalar : Floating.precision) (ag : agent)
        (state : list json) (action reward : json) (next_state : list json)
        (r : Q) (nv v : list Q) :
  as_number reward = Some r ->
  as_vector next_state = Some nv ->
  q_table ag !! py_str action = Some v ->
  let alpha := learning_rate ag in
  let gamma := discount_factor ag in
  let rnd := Floating.round_to Floating.Double in
  let rnd_s := Floating.round_to scalar in
  let top := Floating.largest_of Floating.Double in
  let top_s := Floating.largest_of scalar in
  let after n := Floating.update_times rnd rnd_s py_str predict n ag state action
                                       reward next_state in
  (exists m,
      py_max (map (fun _ => predict nv) (map_to_list (q_table ag))) = Some m
      /\ (Forall (Floating.in_range rnd rnd_s top top_s alpha gamma r m) v ->
          q_table (fst (Floating.update_q_table rnd rnd_s py_str predict ag state
                                                action reward next_state))
            !! py_str action
          = Some (map (fun x =>
                         rnd (rnd (rnd (1 - alpha) * x)
                              + rnd_s (rnd_s alpha
                                       * rnd_s (rnd_s r + rnd_s (rnd_s gamma * m)))))%Q
                      v)))
  /\ ((0 < alpha)%Q -> (alpha < 1)%Q -> (r == 0)%Q -> (predict nv == 0)%Q ->
      Forall (fun x => (rnd x == x)%Q /\ (Qabs x <= top)%Q) v ->
      (Qabs (rnd_s gamma) <= top_s)%Q ->
      forall n, exists vn vn',
          q_table (after n) !! py_str action = Some vn
          /\ q_table (after (S n)) !! py_str action = Some vn'
          /\ Forall (Floating.in_range rnd rnd_s top top_s alpha gamma r (predict nv))
                    vn
          /\ Forall2 (fun y y' => (Qabs y' <= Qabs y)%Q
                                  /\ ((0 <= y)%Q -> (0 <= y' /\ y' <= y)%Q)
                                  /\ ((y <= 0)%Q -> (y <= y' /\ y' <= 0)%Q))
                     vn vn').
Proof.
  intros Hr Hnv Hv alpha gamma rnd rnd_s top top_s after.
  pose proof (round_to_rounding Floating.Double) as Hrnd.
  pose proof (round_to_rounding scalar) as Hs.
  pose proof (largest_of_ge_1 Floating.Double) as Htop.
  pose proof (largest_of_ge_1 scalar) as Htop_s.
  fold rnd in Hrnd. fold rnd_s in Hs. fold top in Htop. fold top_s in Htop_s.
  split.
  - exists (predict nv). split.
    + apply py_max_const. intros Hnil.
      apply map_to_list_empty_iff in Hnil.
      rewrite Hnil, lookup_empty in Hv. discriminate.
    + intros _.
      destruct (rounded_update_q_table_step rnd rnd_s py_str predict ag state action
                                            reward next_state r nv Hr Hnv)
        as (Hq & _).
      cbv zeta in Hq. rewrite Hq, lookup_insert_eq, Hv. reflexivity.
  - intros H0 H1 Hr0 Hm0 Hfmt Hg n.
    destruct (rounded_update_times_format rnd rnd_s top top_s py_str predict
                Hrnd Hs Htop Htop_s n ag state action reward next_state r nv v
                Hr Hnv H0 H1 Hr0 Hm0 Hg Hv Hfmt)
      as (Hlr & Hdf & vn & Hvn & Hall).
    fold (after n) in Hlr, Hdf, Hvn.
    exists vn. eexists. split; [exact Hvn |].
    subst after. cbv beta. rewrite rounded_update_times_last.
    set (agn := Floating.update_times rnd rnd_s py_str predict n ag state action
                                      reward next_state) in *.
    destruct (rounded_update_q_table_step rnd rnd_s py_str predict agn state action
                                          reward next_state r nv Hr Hnv)
      as (Hq & _).
    cbv zeta in Hq. rewrite Hq, lookup_insert_eq, Hvn.
    unfold default. cbn [from_option id].
    split; [reflexivity |].
    assert (Hstep : forall y, (rnd y == y)%Q /\ (Qabs y <= top)%Q ->
              let y' := Floating.blend rnd rnd_s alpha gamma r (predict nv) y in
              ((Qabs y' <= Qabs y)%Q
               /\ ((0 <= y)%Q -> (0 <= y' /\ y' <= y)%Q)
               /\ ((y <= 0)%Q -> (y <= y' /\ y' <= 0)%Q))
              /\ Floating.in_range rnd rnd_s top top_s alpha gamma r (predict nv) y).
    { intros y [Hy Hytop].
      destruct (blend_towards_zero rnd rnd_s top top_s Hrnd Hs Htop Htop_s
                                   alpha gamma r (predict nv) y
                                   H0 H1 Hr0 Hm0 Hg Hy Hytop)
        as (_ & Habs & Hpos & Hneg & Hrange).
      cbv zeta. tauto. }
    split.
    + eapply Forall_impl; [exact Hall |]. intros y Hy. apply (Hstep y Hy).
    + apply Forall2_fmap_r. apply Forall2_same_length_lookup_2; [reflexivity |].
      intros i y y' Hy Hy'. rewrite Hy in Hy'. injection Hy' as <-.
      unfold compose. cbv beta. fold agn. rewrite Hlr, Hdf. fold alpha gamma.
      apply Hstep. rewrite Forall_forall in Hall. apply Hall.
      apply list_elem_of_lookup. exists i. exact Hy.
Qed.

End FloatingUpdateClaim.

(** ** The controller *)

Section ControllerProperties.

Import Controller.

Variable str_match : ofp_match -> string.
Variable str_actions : list action -> string.
Variable str_action : action -> string.
Variable nx_shortest_path : graph -> Z -> Z -> nx_result.

Abbreviation add_flow := (add_flow str_match str_actions str_action).
Abbreviation route_flow := (route_flow str_match str_actions str_action nx_shortest_path).
Abbreviation spec_fallback_route :=
  (spec_fallback_route str_match str_actions str_action nx_shortest_path).
Abbreviation _install_path_flows := (_install_path_flows str_match str_actions str_action).

(** C4. Of two calls of [add_flow] with the same deduplication key
    (dpid, match text, action text) the second changes nothing; when the
    key was not installed before, the two calls together send one
    flow-mod, raise the count by exactly 1 and append exactly one flow
    record. *)
Theorem add_flow_twice_installs_once (st : controller) (dp dp' : datapath)
        (priority priority' : Z) (m m' : ofp_match) (acts acts' : list action)
        (idle hard idle' hard' : Z) :
(dp_id dp', str_match m', str_actions acts')
= (dp_id dp, str_match m, str_actions acts) ->
let st1 := add_flow st dp priority m acts idle hard in
let st2 := add_flow st1 dp' priority' m' acts' idle' hard' in
st2 = st1
/\ ((dp_id dp, str_match m, str_actions acts) ∉ existing_flows st ->
    flow_count st2 = (flow_count st + 1)%Z
    /\ flow_log st2
       = (flow_log st ++ [mkFlowRecord (dp_id dp) (match_get "ipv4_src" m)
                                       (match_get "ipv4_dst" m)
                                       (map str_action acts)])%list
    /\ sent st2
       = (sent st ++ [OFPFlowMod (dp_id dp) priority m acts idle hard])%list).
Proof.
intros Hkey st1 st2.
assert (Hin : (dp_id dp, str_match m, str_actions acts) ∈ existing_flows st1).
{ subst st1. unfold Controller.add_flow.
  destruct (decide ((dp_id dp, str_match m, str_actions acts) ∈ existing_flows st))
    as [Hold | Hnew]; [exact Hold | simpl; set_solver]. }
assert (H2 : st2 = st1).
{ subst st2. unfold Controller.add_flow at 1. rewrite Hkey.
  rewrite decide_True by exact Hin. reflexivity. }
split; [exact H2 |].
intros Hfresh. rewrite H2. subst st1. unfold Controller.add_flow.
rewrite decide_False by exact Hfresh. simpl. repeat split; reflexivity.
Qed.

Abbreviation request_path_with_fallback :=
  (request_path_with_fallback nx_shortest_path).
Abbreviation packet_in_handler :=
  (packet_in_handler str_match str_actions str_action nx_shortest_path).
Abbreviation reroute_loop :=
  (reroute_loop str_match str_actions str_action nx_shortest_path).
Abbreviation force_path_installation :=
  (force_path_installation str_match str_actions str_action nx_shortest_path).

Lemma agent_error_gives_no_path : agent_gave_no_path AgentError.
Proof. exists (JArr []). split; reflexivity. Qed.

Lemma empty_path_gives_no_path (fields : list (string * json)) :
  dict_get "path" fields = Some (JArr []) ->
  agent_gave_no_path (AgentJson (JObj fields)).
Proof.
  intros H. exists (JArr []). split; [| reflexivity].
  unfold reply_path, _request_path_from_rl_agent.
  destruct fields as [| f fields]; [reflexivity |].
  cbn [truthy]. rewrite H. reflexivity.
Qed.

Lemma truthy_path_of_nodes (p : list Z) :
  truthy (path_of_nodes p) = match p with [] => false | _ => true end.
Proof. destruct p; reflexivity. Qed.

(** Without a path from the agent the chosen path is the answer of the
    shortest-path search. *)
Lemma request_falls_back (st : controller) (env : environment) (s d : Z)
      (ns : list Q) :
  _get_current_network_state st (env_stats_reply env) = Returned ns ->
  agent_gave_no_path (env_path_reply env) ->
  request_path_with_fallback st env s d
  = match nx_shortest_path (topology_graph st) s d with
    | NxPath p => Returned (path_of_nodes p)
    | NxNoPath => Returned (JArr [])
    | NxNodeNotFound => Raised
    end.
Proof.
  intros Hns (path & Hreply & Hempty).
  unfold Controller.request_path_with_fallback, _get_shortest_path.
  rewrite Hns, Hreply, Hempty.
  destruct (nx_shortest_path (topology_graph st) s d); reflexivity.
Qed.

Lemma route_flow_falls_back (st : controller) (env : environment)
      (src_ip dst_ip : json) (s d : Z) (ns : list Q) :
  both_switches (_get_switch_for_ip (env_descriptor env) src_ip)
                (_get_switch_for_ip (env_descriptor env) dst_ip) = Some (s, d) ->
  _get_current_network_state st (env_stats_reply env) = Returned ns ->
  agent_gave_no_path (env_path_reply env) ->
  route_flow st env src_ip dst_ip = spec_fallback_route st s d src_ip dst_ip.
Proof.
  intros Hsw Hns Hno.
  unfold Controller.route_flow, Controller.spec_fallback_route.
  rewrite Hsw, (request_falls_back st env s d ns Hns Hno).
  destruct (nx_shortest_path (topology_graph st) s d) as [p | |];
    try reflexivity.
  rewrite truthy_path_of_nodes. destruct p; reflexivity.
Qed.

(** C3. When the agent gives no path (the request fails, or the answer
    has no path or an empty one), the packet-in handler, each turn of
    the reroute loop and the force-path API install exactly the answer
    of the unweighted shortest-path search over the live graph between
    the two switches, which by the contract of that search is a path
    with the fewest hops; when the search finds no path nothing is
    installed. *)
Theorem controller_falls_back_to_shortest_path (st : controller)
        (env : environment) (src_ip dst_ip : json) (s d : Z) (ns : list Q) :
  both_switches (_get_switch_for_ip (env_descriptor env) src_ip)
                (_get_switch_for_ip (env_descriptor env) dst_ip) = Some (s, d) ->
  _get_current_network_state st (env_stats_reply env) = Returned ns ->
  agent_gave_no_path (env_path_reply env) ->
  nx_contract (topology_graph st) s d (nx_shortest_path (topology_graph st) s d) ->
  (* packet-in *)
  (forall ev a b,
      pi_ethertype ev <> 0x0806%Z ->
      learned_out_port (learn_mac st ev) ev <> OFPP_FLOOD ->
      pi_ipv4 ev = Some (a, b) -> src_ip = JStr a -> dst_ip = JStr b ->
      packet_in_handler st env ev
      = match spec_fallback_route (learn_mac st ev) s d src_ip dst_ip with
        | (st2, Raised) => (st2, Raised)
        | (st2, Returned _) =>
            (send_msg st2 (packet_out ev (learned_out_port (learn_mac st ev) ev)),
             Returned tt)
        end)
  (* one turn of the reroute loop *)
  /\ (forall envs i rest,
         envs i = env ->
         reroute_loop st envs i ((src_ip, dst_ip) :: rest)
         = match spec_fallback_route st s d src_ip dst_ip with
           | (st', Raised) => (st', Raised)
           | (st', Returned _) => reroute_loop st' envs (S i) rest
           end)
  (* force-path API without an explicit path *)
  /\ (forall data,
         dict_get "src_ip" data = Some src_ip ->
         dict_get "dst_ip" data = Some dst_ip ->
         truthy src_ip = true -> truthy dst_ip = true ->
         truthy (default (JArr []) (dict_get "path" data)) = false ->
         nodes (topology_graph st) <> [] ->
         force_path_installation st env (Some (JObj data))
         = match nx_shortest_path (topology_graph st) s d with
           | NxPath p =>
               match _install_path_flows st (path_of_nodes p) src_ip dst_ip with
               | (st', Raised) => (st', Api500)
               | (st', Returned _) => (st', ApiSuccess (path_of_nodes p))
               end
           | NxNoPath => (st, Api400 NoValidPath)
           | NxNodeNotFound => (st, Api500)
           end)
  (* what is installed *)
  /\ match nx_shortest_path (topology_graph st) s d with
     | NxPath p =>
         connects (topology_graph st) s d p
         /\ (forall q, connects (topology_graph st) s d q -> length p <= length q)
         /\ spec_fallback_route st s d src_ip dst_ip
            = _install_path_flows st (path_of_nodes p) src_ip dst_ip
     | NxNoPath =>
         (forall q, ~ connects (topology_graph st) s d q)
         /\ spec_fallback_route st s d src_ip dst_ip = (st, Returned tt)
     | NxNodeNotFound =>
         spec_fallback_route st s d src_ip dst_ip = (st, Raised)
     end.
Proof.
  intros Hsw Hns Hno Hnx.
  split; [| split; [| split]].
  - intros ev a b Harp Hport Hip -> ->.
    unfold Controller.packet_in_handler.
    destruct (Z.eqb_spec (pi_ethertype ev) 0x0806) as [E | _]; [contradiction |].
    cbv zeta.
    destruct (Z.eqb_spec (learned_out_port (learn_mac st ev) ev) OFPP_FLOOD)
      as [E | _]; [contradiction |].
    rewrite Hip.
    rewrite (route_flow_falls_back (learn_mac st ev) env (JStr a) (JStr b) s d ns
                                   Hsw Hns Hno).
    reflexivity.
  - intros envs i rest Henv. cbn [Controller.reroute_loop]. rewrite Henv.
    rewrite (route_flow_falls_back st env src_ip dst_ip s d ns Hsw Hns Hno).
    reflexivity.
  - intros data Hsrc Hdst Htsrc Htdst Hpath Hnodes.
    unfold Controller.force_path_installation.
    rewrite Hsrc, Hdst. cbn [default from_option id].
    rewrite Htsrc, Htdst. cbn [negb orb].
    destruct (nodes (topology_graph st)) as [| n0 nrest]; [contradiction |].
    rewrite Hsw, Hpath.
    rewrite (request_falls_back st env s d ns Hns Hno).
    destruct (nx_shortest_path (topology_graph st) s d) as [p | |];
      try reflexivity.
    rewrite truthy_path_of_nodes.
    destruct Hnx as [(Hhead & _) _].
    destruct p as [| x p]; [discriminate Hhead |]. reflexivity.
  - unfold Controller.spec_fallback_route.
    destruct (nx_shortest_path (topology_graph st) s d) as [p | |].
    + destruct Hnx as [Hc Hmin].
      split; [exact Hc | split; [exact Hmin | reflexivity]].
    + destruct Hnx as (_ & _ & Hnone). split; [exact Hnone | reflexivity].
    + reflexivity.
Qed.

End ControllerProperties.

(** ** The monitor *)

Section MonitorProperties.

Import Monitor PyString Samples.

(** C6. On the port-statistics line of the specification the parser
    stores, for port 1, the transmit counters under tx_pkts, tx_bytes,
    tx_drop and the receive counters under rx_bytes ... rx_crc, but the
    first receive token keeps its "rx " prefix as part of the key: the
    packet count is stored under "rx_rx pkts" and there is no rx_pkts
    entry. *)
Theorem parse_port_stats_literal_line :
  _parse_port_stats port_line !! 1%Z
  = Some [("rx_rx pkts", 123%Z); ("rx_bytes", 456%Z); ("rx_drop", 0%Z);
          ("rx_errs", 0%Z); ("rx_frame", 0%Z); ("rx_over", 0%Z);
          ("rx_crc", 0%Z); ("tx_pkts", 10%Z); ("tx_bytes", 20%Z);
          ("tx_drop", 1%Z)]
  /\ (forall stats, _parse_port_stats port_line !! 1%Z = Some stats ->
                    dict_get "rx_pkts" stats = None
                    /\ dict_get "rx_rx pkts" stats = Some 123%Z
                    /\ dict_get "tx_pkts" stats = Some 10%Z).
Proof.
  assert (H : _parse_port_stats port_line !! 1%Z
              = Some [("rx_rx pkts", 123%Z); ("rx_bytes", 456%Z); ("rx_drop", 0%Z);
                      ("rx_errs", 0%Z); ("rx_frame", 0%Z); ("rx_over", 0%Z);
                      ("rx_crc", 0%Z); ("tx_pkts", 10%Z); ("tx_bytes", 20%Z);
                      ("tx_drop", 1%Z)]) by (vm_compute; reflexivity).
  split; [exact H |].
  intros stats Hs. rewrite H in Hs. injection Hs as <-.
  repeat split; reflexivity.
Qed.

(** Three lines containing the text of the specification on which the
    record does not hold both counts: the line that ends right after
    [n_bytes=1000] (no comma and no space follows, n_bytes is left out),
    a line with an earlier [n_packets=] token (n_packets is left out),
    and a line where a space and later a comma follow (n_bytes is left
    out). *)
Lemma parse_flow_stats_line_end :
(_parse_flow_stats (fun _ => 0%Q) flow_line
 = [mkFlowInfo flow_line 0%Q (Some 42%Z) None]
 /\ ~ (exists r, r ∈ _parse_flow_stats (fun _ => 0%Q) flow_line
                 /\ fi_n_packets r = Some 42%Z /\ fi_n_bytes r = Some 1000%Z))
/\ _parse_flow_stats (fun _ => 0%Q) flow_line_early_token
   = [mkFlowInfo flow_line_early_token 0%Q None (Some 1000%Z)]
/\ _parse_flow_stats (fun _ => 0%Q) flow_line_late_comma
   = [mkFlowInfo flow_line_late_comma 0%Q (Some 42%Z) None].
Proof.
assert (H : _parse_flow_stats (fun _ => 0%Q) flow_line
            = [mkFlowInfo flow_line 0%Q (Some 42%Z) None])
  by (vm_compute; reflexivity).
split; [split; [exact H |] | split; vm_compute; reflexivity].
intros (r & Hr & _ & Hb). rewrite H in Hr.
apply list_elem_of_singleton in Hr. subst r. discriminate Hb.
Qed.

Lemma string_app_cons (c : ascii) (a b : string) :
String c a ++ b = String c (a ++ b).
Proof. reflexivity. Qed.

Lemma string_app_assoc (a b c : string) : (a ++ b) ++ c = a ++ (b ++ c).
Proof.
induction a as [| x a IH]; [reflexivity |].
rewrite !string_app_cons, IH. reflexivity.
Qed.

Lemma string_length_app (a b : string) :
String.length (a ++ b) = String.length a + String.length b.
Proof.
induction a as [| x a IH]; [reflexivity |].
rewrite string_app_cons. simpl. rewrite IH. reflexivity.
Qed.

(** Searching from the end of a prefix is searching in what follows. *)
Lemma index_skip (sub a b : string) :
String.index (String.length a) sub (a ++ b)
= option_map (Nat.add (String.length a)) (String.index 0 sub b).
Proof.
induction a as [| x a IH].
- simpl. change ("" ++ b) with b. destruct (String.index 0 sub b); reflexivity.
- rewrite string_app_cons. cbn [String.length String.index]. rewrite IH.
  destruct (String.index 0 sub b); reflexivity.
Qed.

Lemma substring_skip (a b : string) (m : nat) :
String.substring (String.length a) m (a ++ b) = String.substring 0 m b.
Proof.
induction a as [| x a IH]; [reflexivity |].
rewrite string_app_cons. exact IH.
Qed.

Lemma contains_app (sub a b : string) :
contains sub b = true -> contains sub (a ++ b) = true.
Proof.
unfold contains. intros Hb.
induction a as [| x a IH]; [exact Hb |].
rewrite string_app_cons. cbn [String.index].
destruct (String.prefix sub (String x (a ++ b))); [reflexivity |].
destruct (String.index 0 sub (a ++ b)); [reflexivity | discriminate IH].
Qed.

Lemma index_cons_miss (sub : string) (c : ascii) (s : string) :
String.prefix sub (String c s) = false ->
String.index 0 sub (String c s) = option_map S (String.index 0 sub s).
Proof.
intros H. cbn [String.index]. rewrite H.
destruct (String.index 0 sub s); reflexivity.
Qed.

Lemma slice_skip (a b : string) (n : nat) :
slice (a ++ b) (String.length a) (String.length a + n) = String.substring 0 n b.
Proof.
unfold slice. replace (String.length a + n - String.length a) with n by lia.
apply substring_skip.
Qed.

(** C7 (amended). A flow-statistics line containing
    [priority=10,n_packets=42,n_bytes=1000], in which that text holds the
    first [n_packets=] and [n_bytes=] of the line and is followed by a
    comma, or by a space with no comma after it, gives a record with
    n_packets = 42 and n_bytes = 1000; a count whose token is followed by
    neither a comma nor a space is left out of the record. *)
Theorem parse_flow_line_counts (now : Q) (pre post rest : string) :
let line := pre ++ "priority=10,n_packets=42,n_bytes=1000" ++ post in
find "n_packets=" line 0 = Some (String.length pre + 12) ->
find "n_bytes=" line 0 = Some (String.length pre + 25) ->
post = "," ++ rest \/ (post = " " ++ rest /\ contains "," rest = false) ->
parse_flow_line now line
= Some (mkFlowInfo (strip line) now (Some 42%Z) (Some 1000%Z))
/\ (forall token other pos,
       find token other 0 = Some pos ->
       find "," other (pos + String.length token) = None ->
       find " " other (pos + String.length token) = None ->
       extract_count token other = None).
Proof.
intros line Hp Hb Hpost.
split; [| intros token other pos Hpos Hcomma Hspace; unfold extract_count;
          rewrite Hpos, Hcomma, Hspace;
          destruct (contains token other); reflexivity].
assert (Hc1 : contains "priority" line = true).
{ subst line. apply contains_app. vm_compute. reflexivity. }
assert (Hc2 : contains "n_packets" line = true).
{ subst line.
  change ("priority=10,n_packets=42,n_bytes=1000" ++ post)
    with ("priority=10," ++ ("n_packets=42,n_bytes=1000" ++ post)).
  apply contains_app, contains_app. vm_compute. reflexivity. }
assert (Hn : extract_count "n_packets=" line = Some 42%Z).
{ unfold extract_count, contains. fold (find "n_packets=" line 0). rewrite Hp.
  cbn [String.length]. unfold find at 1.
  replace (String.length pre + 12 + 10)
    with (String.length (pre ++ "priority=10,n_packets=")) by
      (rewrite string_length_app; simpl; lia).
  subst line.
  change ("priority=10,n_packets=42,n_bytes=1000" ++ post)
    with ("priority=10,n_packets=" ++ ("42,n_bytes=1000" ++ post)).
  rewrite <- string_app_assoc, index_skip.
  assert (Hx : String.index 0 "," ("42,n_bytes=1000" ++ post) = Some 2%nat)
    by reflexivity.
  rewrite Hx.
  cbn [option_map]. rewrite slice_skip. vm_compute. reflexivity. }
assert (Hy : extract_count "n_bytes=" line = Some 1000%Z).
{ unfold extract_count, contains. fold (find "n_bytes=" line 0). rewrite Hb.
  cbn [String.length]. unfold find.
  replace (String.length pre + 25 + 8)
    with (String.length (pre ++ "priority=10,n_packets=42,n_bytes=")) by
      (rewrite string_length_app; simpl; lia).
  subst line.
  change ("priority=10,n_packets=42,n_bytes=1000" ++ post)
    with ("priority=10,n_packets=42,n_bytes=" ++ ("1000" ++ post)).
  rewrite <- string_app_assoc, !index_skip.
  destruct Hpost as [-> | [-> Hrest]].
  - assert (Hx : String.index 0 "," ("1000" ++ "," ++ rest) = Some 4%nat)
      by (destruct rest; reflexivity).
    rewrite Hx.
    cbn [option_map]. rewrite slice_skip. vm_compute. reflexivity.
  - assert (Hcomma : String.index 0 "," ("1000" ++ " " ++ rest) = None).
    { change ("1000" ++ " " ++ rest)
        with (String "1" (String "0" (String "0" (String "0" (String " " rest))))).
      rewrite !index_cons_miss by reflexivity.
      unfold contains in Hrest.
      destruct (String.index 0 "," rest); [discriminate | reflexivity]. }
    rewrite Hcomma. cbn [option_map].
    assert (Hx : String.index 0 " " ("1000" ++ " " ++ rest) = Some 4%nat)
      by (destruct rest; reflexivity).
    rewrite Hx.
    cbn [option_map]. rewrite slice_skip. vm_compute. reflexivity. }
unfold parse_flow_line. rewrite Hc1, Hc2, Hn, Hy. reflexivity.
Qed.

Variable np_std : list Q -> Q.

Lemma jitter_never_sampled (pm : performance_metrics) :
  reachable pm -> jitter_samples pm = [].
Proof.
  induction 1 as [| pm pm' _ IH Hpoll].
  - reflexivity.
  - destruct Hpoll; exact IH.
Qed.

(** C9. In every report the jitter series is empty, and the statistics
    of an empty series are avg, min, max and std all 0 without any
    count entry, whereas a non-empty series gets all five entries, the
    count being its length. *)
Theorem empty_series_stats_lack_count (pm : performance_metrics) :
  reachable pm ->
  dict_get "jitter_ms" (network_performance np_std pm)
  = Some [("avg", 0%Q); ("min", 0%Q); ("max", 0%Q); ("std", 0%Q)]
  /\ dict_get "count" (calculate_stats np_std []) = None
  /\ (forall x rest,
         map fst (calculate_stats np_std (x :: rest))
         = ["avg"; "min"; "max"; "std"; "count"]
         /\ dict_get "count" (calculate_stats np_std (x :: rest))
            = Some (inject_Z (Z.of_nat (S (length rest))))).
Proof.
  intros Hreach.
  split; [| split].
  - unfold network_performance. rewrite (jitter_never_sampled pm Hreach).
    reflexivity.
  - reflexivity.
  - intros x rest. split; reflexivity.
Qed.

End MonitorProperties.

(** ** The topology builder *)

Section TopologyProperties.

Import Topology.

Lemma dict_get_is_Some {V} (k : string) (d : list (string * V)) :
is_Some (dict_get k d) <-> k ∈ map fst d.
Proof.
induction d as [| [k' v] d IH]; simpl.
- split; [intros [? ?]; discriminate | intros H; inversion H].
- destruct (String.eqb_spec k' k) as [-> | Hne].
  + split; [intros _; left | eauto].
  + rewrite IH. split; [intros H; right; exact H |].
    intros H. apply elem_of_cons in H as [-> | H]; [contradiction | exact H].
Qed.

Lemma dict_set_fresh {V} (k : string) (v : V) (d : list (string * V)) :
k ∉ map fst d -> dict_set k v d = (d ++ [(k, v)])%list.
Proof.
induction d as [| [k' w] d IH]; simpl; intros Hk.
- reflexivity.
- apply not_elem_of_cons in Hk as [Hne Hk].
  destruct (String.eqb_spec k' k) as [-> | _]; [contradiction |].
  rewrite IH by exact Hk. reflexivity.
Qed.

Lemma dict_comprehension_map {V} (key : Z -> string) (val : Z -> V) (l : list Z) :
NoDup (map key l) ->
dict_comprehension key val l = map (fun i => (key i, val i)) l.
Proof.
unfold dict_comprehension.
assert (H : forall acc, NoDup (map fst acc ++ map key l) ->
          foldl (fun d i => dict_set (key i) (val i) d) acc l
          = (acc ++ map (fun i => (key i, val i)) l)%list).
{ induction l as [| i l IH]; intros acc Hnd; simpl.
  - rewrite app_nil_r. reflexivity.
  - simpl in Hnd. apply NoDup_app in Hnd as (Hacc & Hdisj & Hl).
    apply NoDup_cons in Hl as [Hi Hl].
    rewrite dict_set_fresh.
    + rewrite IH.
      * rewrite <- app_assoc. reflexivity.
      * rewrite map_app. simpl. rewrite <- app_assoc. simpl.
        apply NoDup_app. split; [exact Hacc |]. split.
        -- intros x Hx Hin. apply (Hdisj x Hx). exact Hin.
        -- apply NoDup_cons. split; assumption.
    + intros Hin. apply (Hdisj _ Hin). left. }
intros Hnd. rewrite (H []); [reflexivity | exact Hnd].
Qed.

Lemma switch_name_inj : Inj (=) (=) switch_name.
Proof.
intros a b H. unfold switch_name in H.
injection H as H. exact (inj pretty a b H).
Qed.

Lemma NoDup_switch_names (m n : Z) : NoDup (map switch_name (seqZ m n)).
Proof.
apply (NoDup_fmap_2 switch_name). apply NoDup_seqZ.
Qed.

Lemma dict_set_same_dpid (sw : string) (entry entry' : switch_entry)
  (d : list (string * switch_entry)) :
dict_get sw d = Some entry -> sw_dpid entry' = sw_dpid entry ->
map (fun e : string * switch_entry => (e.1, sw_dpid e.2)) (dict_set sw entry' d)
= map (fun e : string * switch_entry => (e.1, sw_dpid e.2)) d.
Proof.
induction d as [| [k w] d IH]; simpl; intros Hget Hid.
- discriminate.
- destruct (String.eqb_spec k sw) as [-> | Hne]; simpl.
  + injection Hget as ->. rewrite Hid. reflexivity.
  + rewrite IH by assumption. reflexivity.
Qed.

Lemma set_port_ok (sw nb : string) (port : Z) (ti : topology_info) :
sw ∈ map fst (ti_switches ti) ->
exists ti', set_port sw nb port ti = Some ti'
            /\ switch_ids ti' = switch_ids ti
            /\ ti_hosts ti' = ti_hosts ti
            /\ ti_links ti' = ti_links ti.
Proof.
intros Hin. apply dict_get_is_Some in Hin as [entry Hentry].
unfold set_port. rewrite Hentry. eexists. split; [reflexivity |].
split; [| split; reflexivity].
unfold switch_ids. simpl. apply (dict_set_same_dpid sw entry); [exact Hentry | reflexivity].
Qed.

Lemma expected_keys (size k : Z) :
(1 <= k <= size * size)%Z -> switch_name k ∈ map fst (expected_ids size).
Proof.
intros Hk. unfold expected_ids. rewrite map_map. simpl.
apply (list_elem_of_fmap_2 switch_name). apply elem_of_seqZ. lia.
Qed.

Lemma switch_ids_keys (ti : topology_info) :
map fst (switch_ids ti) = map fst (ti_switches ti).
Proof. unfold switch_ids. rewrite map_map. reflexivity. Qed.

Lemma good_key (size k : Z) (st : gen_state) :
good size st -> (1 <= k <= size * size)%Z ->
switch_name k ∈ map fst (ti_switches (gs_info st)).
Proof.
intros [Hids _] Hk. rewrite <- switch_ids_keys, Hids. apply expected_keys, Hk.
Qed.

Lemma good_ports_insert (size : Z) (ti : topology_info) (pc : gmap string Z)
  (name : string) (p : Z) :
(forall k : Z, (1 <= k <= size * size)%Z -> is_Some (pc !! switch_name k)) ->
forall k : Z, (1 <= k <= size * size)%Z ->
  is_Some (<[name := p]> pc !! switch_name k).
Proof.
intros H k Hk. destruct (decide (name = switch_name k)) as [-> | Hne].
- rewrite lookup_insert_eq. eauto.
- rewrite lookup_insert_ne by exact Hne. apply H, Hk.
Qed.

Lemma connect_ok (size a b : Z) (st : gen_state) :
good size st -> (1 <= a <= size * size)%Z -> (1 <= b <= size * size)%Z ->
exists st' port,
  connect (switch_name a) (switch_name b) st = Some st'
  /\ good size st'
  /\ ti_hosts (gs_info st') = ti_hosts (gs_info st)
  /\ ti_links (gs_info st')
     = (ti_links (gs_info st) ++ [mkLink (switch_name a) (switch_name b) port])%list.
Proof.
intros Hgood Ha Hb.
pose proof Hgood as [Hids Hports].
destruct (Hports a Ha) as [pa Hpa]. destruct (Hports b Hb) as [pb Hpb].
destruct (set_port_ok (switch_name a) (switch_name b) pa (gs_info st)
                      (good_key size a st Hgood Ha))
  as (ti1 & Hset1 & Hids1 & Hhosts1 & Hlinks1).
assert (Hb1 : switch_name b ∈ map fst (ti_switches ti1)).
{ rewrite <- switch_ids_keys, Hids1, Hids. apply expected_keys, Hb. }
destruct (set_port_ok (switch_name b) (switch_name a) pb ti1 Hb1)
  as (ti2 & Hset2 & Hids2 & Hhosts2 & Hlinks2).
assert (Hnext : is_Some (<[switch_name a := (pa + 1)%Z]> (gs_ports st)
                           !! switch_name b)).
{ apply (good_ports_insert size (gs_info st)); assumption. }
destruct Hnext as [pb' Hpb'].
unfold connect. rewrite Hpa, Hset1, Hpb, Hset2, Hpb'.
eexists. exists pa. split; [reflexivity |].
split; [| split].
- split.
  + simpl. unfold switch_ids in *. simpl. congruence.
  + simpl. apply (good_ports_insert size (gs_info st)).
    apply (good_ports_insert size (gs_info st)). exact Hports.
- simpl. congruence.
- simpl. congruence.
Qed.

Lemma attach_host_ok (size k : Z) (host : string) (h : host_entry) (st : gen_state) :
good size st -> (1 <= k <= size * size)%Z ->
dict_get host (ti_hosts (gs_info st)) = Some h ->
exists st' port,
  attach_host st (host, switch_name k) = Some st'
  /\ good size st'
  /\ ti_hosts (gs_info st')
     = dict_set host (mkHost (host_ip h) (host_mac h) (switch_name k))
                (ti_hosts (gs_info st))
  /\ ti_links (gs_info st')
     = (ti_links (gs_info st) ++ [mkLink host (switch_name k) port])%list.
Proof.
intros Hgood Hk Hhost.
pose proof Hgood as [Hids Hports].
destruct (Hports k Hk) as [p Hp].
set (ti1 := mkTopologyInfo (ti_switches (gs_info st))
              (dict_set host (mkHost (host_ip h) (host_mac h) (switch_name k))
                        (ti_hosts (gs_info st)))
              (ti_links (gs_info st))).
destruct (set_port_ok (switch_name k) host p ti1 (good_key size k st Hgood Hk))
  as (ti2 & Hset & Hids2 & Hhosts2 & Hlinks2).
unfold attach_host. rewrite Hhost, Hp. fold ti1. rewrite Hset.
eexists. exists p. split; [reflexivity |].
split; [| split].
- split.
  + simpl. unfold switch_ids in *. simpl. rewrite Hids2. exact Hids.
  + simpl. apply (good_ports_insert size (gs_info st)). exact Hports.
- simpl. rewrite Hhosts2. reflexivity.
- simpl. rewrite Hlinks2. reflexivity.
Qed.

Lemma extends_refl (size : Z) (st : gen_state) : good size st -> extends size st 0 st.
Proof.
intros H. split; [exact H |]. split; [reflexivity |].
exists []. rewrite app_nil_r. repeat split. constructor.
Qed.

Lemma extends_connect (size a b : Z) (st0 st : gen_state) (n : nat) :
extends size st0 n st -> (1 <= a <= size * size)%Z -> (1 <= b <= size * size)%Z ->
exists st', connect (switch_name a) (switch_name b) st = Some st'
            /\ extends size st0 (S n) st'.
Proof.
intros (Hgood & Hhosts & new & Hlinks & Hlen & Hsrc) Ha Hb.
destruct (connect_ok size a b st Hgood Ha Hb) as (st' & port & Hc & Hg' & Hh' & Hl').
exists st'. split; [exact Hc |].
split; [exact Hg' |]. split; [congruence |].
exists (new ++ [mkLink (switch_name a) (switch_name b) port])%list.
split; [rewrite Hl', Hlinks, <- app_assoc; reflexivity |].
split; [rewrite length_app; simpl; lia |].
apply Forall_app. split; [exact Hsrc |].
constructor; [exists a; reflexivity | constructor].
Qed.

Lemma grid_cell_ok (size i j : Z) (st0 st : gen_state) (n : nat) :
extends size st0 n st -> (0 <= i < size)%Z -> (0 <= j < size)%Z ->
exists st', grid_cell size st (i, j) = Some st'
            /\ extends size st0 (n + cell_links size (i, j)) st'.
Proof.
intros Hext Hi Hj. unfold grid_cell, cell_links. simpl.
assert (Hcur : (1 <= i * size + j + 1 <= size * size)%Z) by nia.
destruct (Z.ltb_spec j (size - 1)) as [Hjl | Hjl].
- assert (Hright : (1 <= i * size + j + 2 <= size * size)%Z) by nia.
  destruct (extends_connect size _ _ st0 st n Hext Hcur Hright) as (st1 & -> & Hext1).
  destruct (Z.ltb_spec i (size - 1)) as [Hil | Hil].
  + assert (Hdown : (1 <= (i + 1) * size + j + 1 <= size * size)%Z) by nia.
    destruct (extends_connect size _ _ st0 st1 (S n) Hext1 Hcur Hdown)
      as (st2 & -> & Hext2).
    exists st2. split; [reflexivity |].
    replace (n + (1 + 1)) with (S (S n)) by lia. exact Hext2.
  + exists st1. split; [reflexivity |].
    replace (n + (1 + 0)) with (S n) by lia. exact Hext1.
- destruct (Z.ltb_spec i (size - 1)) as [Hil | Hil].
  + assert (Hdown : (1 <= (i + 1) * size + j + 1 <= size * size)%Z) by nia.
    destruct (extends_connect size _ _ st0 st n Hext Hcur Hdown)
      as (st2 & -> & Hext2).
    exists st2. split; [reflexivity |].
    replace (n + (0 + 1)) with (S n) by lia. exact Hext2.
  + exists st. split; [reflexivity |].
    replace (n + (0 + 0)) with n by lia. exact Hext.
Qed.

Lemma grid_loop_ok (size : Z) (st0 : gen_state) (cells : list (Z * Z)) :
Forall (fun ij : Z * Z => (0 <= ij.1 < size)%Z /\ (0 <= ij.2 < size)%Z) cells ->
forall (st : gen_state) (n : nat),
  extends size st0 n st ->
  exists st', for_each (grid_cell size) cells st = Some st'
              /\ extends size st0 (n + sum_list_with (cell_links size) cells) st'.
Proof.
induction 1 as [| [i j] cells [Hi Hj] _ IH]; intros st n Hext.
- exists st. split; [reflexivity |]. simpl. rewrite Nat.add_0_r. exact Hext.
- simpl in Hi, Hj.
  destruct (grid_cell_ok size i j st0 st n Hext Hi Hj) as (st1 & Hcell & Hext1).
  destruct (IH st1 _ Hext1) as (st2 & Hloop & Hext2).
  exists st2. cbn [for_each sum_list_with]. rewrite Hcell. split; [exact Hloop |].
  replace (n + (cell_links size (i, j) + sum_list_with (cell_links size) cells))
    with (n + cell_links size (i, j) + sum_list_with (cell_links size) cells) by lia.
  exact Hext2.
Qed.

Lemma sum_list_with_flat_map {A B} (f : B -> nat) (g : A -> list B) (l : list A) :
sum_list_with f (flat_map g l) = sum_list_with (fun a => sum_list_with f (g a)) l.
Proof.
induction l as [| a l IH]; simpl.
- reflexivity.
- rewrite sum_list_with_app, IH. reflexivity.
Qed.

Lemma row_links (n m : nat) (i : Z) :
m <= n ->
sum_list_with (cell_links (Z.of_nat n))
              (map (fun j => (i, j)) (seqZ 0 (Z.of_nat m)))
= Nat.min m (n - 1) + (if (i <? Z.of_nat n - 1)%Z then m else 0).
Proof.
induction m as [| m IH]; intros Hm.
- simpl. destruct (i <? Z.of_nat n - 1)%Z; reflexivity.
- rewrite seqZ_S, map_app, sum_list_with_app, IH by lia.
  cbn [map sum_list_with]. unfold cell_links at 1. cbn [fst snd].
  destruct (Z.ltb_spec (0 + Z.of_nat m) (Z.of_nat n - 1));
    destruct (Z.ltb_spec i (Z.of_nat n - 1)); lia.
Qed.

Lemma grid_links_total (n m : nat) :
m <= n ->
sum_list_with (fun i => sum_list_with (cell_links (Z.of_nat n))
                          (map (fun j => (i, j)) (seqZ 0 (Z.of_nat n))))
              (seqZ 0 (Z.of_nat m))
= m * (n - 1) + n * Nat.min m (n - 1).
Proof.
induction m as [| m IH]; intros Hm.
- simpl. lia.
- rewrite seqZ_S, sum_list_with_app, IH by lia.
  cbn [sum_list_with]. rewrite row_links by lia.
  rewrite (Nat.min_r n (n - 1)) by lia.
  destruct (Z.ltb_spec (0 + Z.of_nat m) (Z.of_nat n - 1)).
  + rewrite (Nat.min_l m) by lia. rewrite (Nat.min_l (S m)) by lia.
    rewrite Nat.mul_succ_l, Nat.mul_succ_r. lia.
  + rewrite (Nat.min_r m) by lia. rewrite (Nat.min_r (S m)) by lia.
    rewrite Nat.mul_succ_l. lia.
Qed.

Lemma grid_positions_links (size : Z) :
(1 <= size)%Z ->
sum_list_with (cell_links size) (grid_positions size)
= Z.to_nat (2 * size * (size - 1)).
Proof.
intros Hsize. unfold grid_positions, py_range.
rewrite sum_list_with_flat_map.
rewrite <- (Z2Nat.id size) by lia.
rewrite grid_links_total by lia.
rewrite Nat.min_r by lia. rewrite Z2Nat.id by lia. nia.
Qed.

Lemma grid_positions_in_range (size : Z) :
Forall (fun ij : Z * Z => (0 <= ij.1 < size)%Z /\ (0 <= ij.2 < size)%Z)
       (grid_positions size).
Proof.
unfold grid_positions, py_range. apply Forall_forall. intros [i j] Hin.
apply list_elem_of_In, in_flat_map in Hin as (i' & Hi & Hj).
apply in_map_iff in Hj as (j' & Heq & Hj). injection Heq as -> ->.
apply list_elem_of_In, elem_of_seqZ in Hi. apply list_elem_of_In, elem_of_seqZ in Hj.
simpl. lia.
Qed.

Lemma initial_switches (size : Z) :
map (fun e : string * switch_entry => (e.1, sw_dpid e.2))
    (dict_comprehension (fun i => switch_name (i + 1))
                        (fun i => mkSwitch (i + 1) []) (py_range (size * size)))
= expected_ids size.
Proof.
rewrite dict_comprehension_map.
- unfold expected_ids, py_range. rewrite map_map. cbn [fst snd sw_dpid].
  rewrite <- (fmap_add_seqZ 1 0). rewrite <- list_fmap_compose.
  apply map_ext. intros i. unfold compose. rewrite (Z.add_comm 1 i). reflexivity.
- unfold py_range. apply NoDup_fmap_2_strong; [| apply NoDup_seqZ].
  intros a b _ _ H. apply switch_name_inj in H. lia.
Qed.

Lemma initial_counters (size k : Z) :
(1 <= k <= size * size)%Z ->
is_Some (foldl (fun (d : gmap string Z) i => <[switch_name (i + 1) := 1%Z]> d)
               ∅ (py_range (size * size)) !! switch_name k).
Proof.
intros Hk.
assert (H : forall (l : list Z) (d : gmap string Z),
           (k - 1)%Z ∈ l \/ is_Some (d !! switch_name k) ->
           is_Some (foldl (fun (d : gmap string Z) i =>
                             <[switch_name (i + 1) := 1%Z]> d) d l
                      !! switch_name k)).
{ induction l as [| i l IH]; intros d Hor; simpl.
  - destruct Hor as [Hin | Hsome]; [inversion Hin | exact Hsome].
  - apply IH. destruct (decide (i = (k - 1)%Z)) as [-> | Hne].
    + right. replace (k - 1 + 1)%Z with k by lia. rewrite lookup_insert_eq. eauto.
    + destruct Hor as [Hin | Hsome].
      * left. apply elem_of_cons in Hin as [Heq | Hin]; [congruence | exact Hin].
      * right. rewrite lookup_insert_ne; [exact Hsome |].
        intros Heq. apply switch_name_inj in Heq. lia. }
apply H. left. unfold py_range. apply elem_of_seqZ. lia.
Qed.

(** C8. For every grid size N >= 2 the descriptor left by the grid
    builder has the N*N switches s1 .. s(N*N) with dpids 1 .. N*N, four
    hosts attached to the four distinct corner switches s1, sN,
    s(N*(N-1)+1), s(N*N), four host links followed by 2*N*(N-1) links
    that all start at a switch, hence 4 + 2*N*(N-1) links. *)
Theorem grid_descriptor_counts (size : Z) :
(2 <= size)%Z ->
exists ti,
  build size = Some ti
  /\ map (fun e : string * switch_entry => (e.1, sw_dpid e.2)) (ti_switches ti)
     = map (fun k => (switch_name k, k)) (seqZ 1 (size * size))
  /\ length (ti_switches ti) = Z.to_nat (size * size)
  /\ NoDup (map fst (ti_switches ti))
  /\ map (fun h : string * host_entry => (h.1, host_connected_to h.2)) (ti_hosts ti)
     = [("h1", switch_name 1); ("h2", switch_name size);
        ("h3", switch_name (size * (size - 1) + 1));
        ("h4", switch_name (size * size))]
  /\ NoDup (map switch_name (corners size))
  /\ Forall (fun k => (1 <= k <= size * size)%Z) (corners size)
  /\ (exists p1 p2 p3 p4 grid_links,
         ti_links ti
         = ([mkLink "h1" (switch_name 1) p1;
             mkLink "h2" (switch_name size) p2;
             mkLink "h3" (switch_name (size * (size - 1) + 1)) p3;
             mkLink "h4" (switch_name (size * size)) p4] ++ grid_links)%list
         /\ Forall (fun l => exists k, link_src l = switch_name k) grid_links
         /\ length grid_links = Z.to_nat (2 * size * (size - 1)))
  /\ length (ti_links ti) = Z.to_nat (4 + 2 * size * (size - 1)).
Proof.
intros Hsize.
assert (Hc1 : (1 <= 1 <= size * size)%Z) by nia.
assert (Hc2 : (1 <= size <= size * size)%Z) by nia.
assert (Hc3 : (1 <= size * (size - 1) + 1 <= size * size)%Z) by nia.
assert (Hc4 : (1 <= size * size <= size * size)%Z) by nia.
unfold build. destruct (Z.leb_spec size 0) as [Hle | _]; [lia |].
unfold generate_topology_info.
set (hosts0 := dict_comprehension _ _ (py_range 4)).
assert (Hhosts0 : hosts0 = [("h1", mkHost "10.0.0.1" "00:00:00:00:00:01" "");
                            ("h2", mkHost "10.0.0.2" "00:00:00:00:00:02" "");
                            ("h3", mkHost "10.0.0.3" "00:00:00:00:00:03" "");
                            ("h4", mkHost "10.0.0.4" "00:00:00:00:00:04" "")])
  by (vm_compute; reflexivity).
clearbody hosts0. subst hosts0.
set (st0 := mkGenState _ _).
assert (Hgood0 : good size st0).
{ split; [apply initial_switches | intros k Hk; apply initial_counters, Hk]. }
change "s1" with (switch_name 1).
cbn [for_each].
destruct (attach_host_ok size 1 "h1" _ st0 Hgood0 Hc1 eq_refl)
  as (st1 & p1 & -> & Hgood1 & Hh1 & Hl1).
destruct (attach_host_ok size size "h2" (mkHost "10.0.0.2" "00:00:00:00:00:02" "")
                         st1 Hgood1 Hc2)
  as (st2 & p2 & -> & Hgood2 & Hh2 & Hl2); [rewrite Hh1; reflexivity |].
destruct (attach_host_ok size (size * (size - 1) + 1) "h3"
                         (mkHost "10.0.0.3" "00:00:00:00:00:03" "")
                         st2 Hgood2 Hc3)
  as (st3 & p3 & -> & Hgood3 & Hh3 & Hl3); [rewrite Hh2, Hh1; reflexivity |].
destruct (attach_host_ok size (size * size) "h4"
                         (mkHost "10.0.0.4" "00:00:00:00:00:04" "")
                         st3 Hgood3 Hc4)
  as (st4 & p4 & -> & Hgood4 & Hh4 & Hl4); [rewrite Hh3, Hh2, Hh1; reflexivity |].
destruct (grid_loop_ok size st4 (grid_positions size)
                       (grid_positions_in_range size) st4 0
                       (extends_refl size st4 Hgood4))
  as (st5 & -> & (Hids & _) & Hh5 & grid_links & Hl5 & Hlen & Hsrc).
rewrite grid_positions_links in Hlen by lia. simpl in Hlen.
exists (gs_info st5). split; [reflexivity |].
assert (Hlinks : ti_links (gs_info st5)
                 = ([mkLink "h1" (switch_name 1) p1;
                     mkLink "h2" (switch_name size) p2;
                     mkLink "h3" (switch_name (size * (size - 1) + 1)) p3;
                     mkLink "h4" (switch_name (size * size)) p4] ++ grid_links)%list).
{ rewrite Hl5, Hl4, Hl3, Hl2, Hl1. reflexivity. }
split; [exact Hids |].
split.
{ rewrite <- (length_map (fun e : string * switch_entry => (e.1, sw_dpid e.2))).
  fold (switch_ids (gs_info st5)). rewrite Hids. unfold expected_ids.
  rewrite length_map, length_seqZ. reflexivity. }
split.
{ rewrite <- switch_ids_keys, Hids. unfold expected_ids. rewrite map_map.
  apply NoDup_switch_names. }
split.
{ rewrite Hh5, Hh4, Hh3, Hh2, Hh1. reflexivity. }
split.
{ apply (NoDup_fmap_2 switch_name). unfold corners.
  repeat (apply NoDup_cons; split;
          [rewrite ?not_elem_of_cons; repeat split; try nia; apply not_elem_of_nil |]).
  apply NoDup_nil_2. }
split.
{ unfold corners. repeat constructor; lia. }
split.
{ exists p1, p2, p3, p4, grid_links. split; [exact Hlinks |].
  split; [exact Hsrc | exact Hlen]. }
rewrite Hlinks, length_app, Hlen. cbn [length].
rewrite Z2Nat.inj_add by nia. reflexivity.
Qed.

End TopologyProperties.

(** ** The theorems at the sample inputs *)

Section Examples.

Import Samples.

(** C2 at the sample agent: of the two candidates for "1->4" the first
    is returned, with index 0. *)
Lemma get_action_first_candidate_witness :
snd (Agent.get_action sample_str sample_model sample_agent sample_state
                      (JStr "1") (JStr "4"))
= Returned (Some (path_a, 0)).
Proof.
assert (Hkey : Agent.possible_paths sample_agent
                 !! Agent.path_key sample_str (JStr "1") (JStr "4")
               = Some [path_a; path_b]) by (vm_compute; reflexivity).
exact (proj2 (proj2 (get_action_first_candidate
                       sample_str sample_model sample_agent sample_state
                       [3; 3; 1 # 2; 0]%Q (JStr "1") (JStr "4") path_a [path_b]
                       Hkey eq_refl))).
Defined.

(** C5 at the sample agent: a state of length 1 and the unknown pair
    "9->4" are both answered 400 with the agent unchanged. *)
Lemma get_path_rejects_bad_request_witness :
(exists msg,
    Agent.get_path sample_str sample_model sample_agent
                   (Some (JObj [("src", JStr "1"); ("dst", JStr "4");
                                ("state", JArr [JNum 1])]))
    = (sample_agent, Agent.Error400 msg))
/\ (exists msg,
       Agent.get_path sample_str sample_model sample_agent
                      (Some (JObj [("src", JStr "9"); ("dst", JStr "4");
                                   ("state", JArr sample_state)]))
       = (sample_agent, Agent.Error400 msg)).
Proof.
split.
- apply (proj1 (get_path_rejects_bad_request sample_str sample_model sample_agent
                  [("src", JStr "1"); ("dst", JStr "4"); ("state", JArr [JNum 1])])).
  reflexivity.
- apply (proj2 (get_path_rejects_bad_request sample_str sample_model sample_agent
                  [("src", JStr "9"); ("dst", JStr "4");
                   ("state", JArr sample_state)])).
  vm_compute. reflexivity.
Defined.

(** C10 at the sample agent: action 0 is refused, reward 0 with the
    action [1, 2, 4] is accepted. *)
Lemma update_rejects_falsy_action_witness :
Agent.update sample_str sample_model sample_agent
             (Some (JObj [("state", JArr sample_state); ("action", JNum 0);
                          ("reward", JNum 1); ("next_state", JArr zero_state)]))
= (sample_agent, Agent.Error400 "Missing required fields")
/\ snd (Agent.update sample_str sample_model sample_agent
                     (Some (JObj [("state", JArr sample_state); ("action", path_a);
                                  ("reward", JNum 0);
                                  ("next_state", JArr zero_state)])))
   = Agent.StatusSuccess.
Proof.
split.
- apply (proj1 (update_rejects_falsy_action
                  sample_str sample_model sample_agent
                  [("state", JArr sample_state); ("action", JNum 0);
                   ("reward", JNum 1); ("next_state", JArr zero_state)]
                  sample_state zero_state (JNum 0) (JNum 1) [0; 0; 0; 0]%Q
                  eq_refl eq_refl eq_refl eq_refl eq_refl eq_refl)).
  reflexivity.
- assert (Hpos : 0 < Agent.state_size sample_agent) by (simpl; lia).
  assert (Hsave : Agent.save_interval sample_agent <> 0%Z) by (simpl; lia).
  destruct (proj2 (proj2 (proj2 (update_rejects_falsy_action
                  sample_str sample_model sample_agent
                  [("state", JArr sample_state); ("action", path_a);
                   ("reward", JNum 0); ("next_state", JArr zero_state)]
                  sample_state zero_state path_a (JNum 0) [0; 0; 0; 0]%Q
                  eq_refl eq_refl eq_refl eq_refl eq_refl eq_refl)))
                  eq_refl eq_refl Hpos Hsave eq_refl) as [Hupd _].
  rewrite Hupd. reflexivity.
Defined.

(** C4 at the sample controller: the same flow added twice. *)
Lemma add_flow_twice_installs_once_witness :
let st1 := Controller.add_flow sample_str_match sample_str_actions sample_str_action
             sample_controller (Controller.mkDatapath 1) 10 sample_match
             [Controller.OFPActionOutput 2 None] 120 300 in
let st2 := Controller.add_flow sample_str_match sample_str_actions sample_str_action
             st1 (Controller.mkDatapath 1) 10 sample_match
             [Controller.OFPActionOutput 2 None] 120 300 in
st2 = st1 /\ Controller.flow_count st2 = 1%Z /\ length (Controller.flow_log st2) = 1.
Proof.
assert (Hfresh : (Controller.dp_id (Controller.mkDatapath 1),
                  sample_str_match sample_match,
                  sample_str_actions [Controller.OFPActionOutput 2 None])
                 ∉ Controller.existing_flows sample_controller)
  by apply not_elem_of_empty.
destruct (add_flow_twice_installs_once
            sample_str_match sample_str_actions sample_str_action
            sample_controller (Controller.mkDatapath 1) (Controller.mkDatapath 1)
            10 10 sample_match sample_match
            [Controller.OFPActionOutput 2 None] [Controller.OFPActionOutput 2 None]
            120 300 120 300 eq_refl) as (Hsame & Honce).
destruct (Honce Hfresh) as (Hcount & Hlog & _).
split; [exact Hsame |]. split.
- rewrite Hcount. reflexivity.
- rewrite Hlog. reflexivity.
Defined.

Lemma sample_search_meets_contract :
Controller.nx_contract sample_graph 1 2 (one_hop_search sample_graph 1 2).
Proof.
assert (E : one_hop_search sample_graph 1 2 = Controller.NxPath [1; 2]%Z)
  by (vm_compute; reflexivity).
rewrite E. split.
- split; [reflexivity |]. split; [reflexivity |].
  split; [vm_compute; reflexivity |].
  repeat constructor; vm_compute; eauto.
- intros q (Hhead & Hlast & _).
  destruct q as [| a [| b q]]; simpl in *; [discriminate | | lia].
  congruence.
Defined.

(** C3 at the sample controller with the agent down: the force-path
    API installs the one-hop path between the two switches. *)
Lemma controller_falls_back_to_shortest_path_witness :
Controller.force_path_installation sample_str_match sample_str_actions
  sample_str_action one_hop_search sample_controller sample_env
  (Some (JObj sample_force_request))
= match Controller._install_path_flows sample_str_match sample_str_actions
          sample_str_action sample_controller
          (Controller.path_of_nodes [1; 2]%Z) (JStr "10.0.0.1") (JStr "10.0.0.2") with
  | (st', Raised) => (st', Controller.Api500)
  | (st', Returned _) =>
      (st', Controller.ApiSuccess (Controller.path_of_nodes [1; 2]%Z))
  end.
Proof.
assert (Hsw : Controller.both_switches
                (Controller._get_switch_for_ip
                   (Controller.env_descriptor sample_env) (JStr "10.0.0.1"))
                (Controller._get_switch_for_ip
                   (Controller.env_descriptor sample_env) (JStr "10.0.0.2"))
              = Some (1%Z, 2%Z)) by reflexivity.
assert (Hns : Controller._get_current_network_state sample_controller
                (Controller.env_stats_reply sample_env)
              = Returned [inject_Z 0; inject_Z 0;
                          (inject_Z 1 / Controller.Qmax
                             (inject_Z 2 * (inject_Z 2 - 1) / 2) 1)%Q;
                          inject_Z 0]) by (vm_compute; reflexivity).
assert (Hnodes : Controller.nodes (Controller.topology_graph sample_controller) <> [])
  by (vm_compute; discriminate).
destruct (controller_falls_back_to_shortest_path
            sample_str_match sample_str_actions sample_str_action one_hop_search
            sample_controller sample_env (JStr "10.0.0.1") (JStr "10.0.0.2")
            1%Z 2%Z _ Hsw Hns agent_error_gives_no_path
            sample_search_meets_contract) as (_ & _ & Hforce & _).
rewrite (Hforce sample_force_request eq_refl eq_refl eq_refl eq_refl eq_refl Hnodes).
assert (E : one_hop_search (Controller.topology_graph sample_controller) 1 2
            = Controller.NxPath [1; 2]%Z) by (vm_compute; reflexivity).
rewrite E. reflexivity.
Defined.

(** C7 (amended) on a line as Open vSwitch prints it around the text. *)
Lemma parse_flow_line_counts_witness :
Monitor.parse_flow_line 0%Q
  (" cookie=0x0, table=0, " ++ "priority=10,n_packets=42,n_bytes=1000"
     ++ " actions=drop")
= Some (Monitor.mkFlowInfo
          "cookie=0x0, table=0, priority=10,n_packets=42,n_bytes=1000 actions=drop"
          0%Q (Some 42%Z) (Some 1000%Z)).
Proof.
assert (Hpost : " actions=drop" = "," ++ "actions=drop"
                \/ (" actions=drop" = " " ++ "actions=drop"
                    /\ PyString.contains "," "actions=drop" = false)).
{ right. split; [reflexivity | vm_compute; reflexivity]. }
assert (Hp : PyString.find "n_packets="
               (" cookie=0x0, table=0, " ++ "priority=10,n_packets=42,n_bytes=1000"
                  ++ " actions=drop") 0
             = Some (String.length " cookie=0x0, table=0, " + 12))
  by (vm_compute; reflexivity).
assert (Hb : PyString.find "n_bytes="
               (" cookie=0x0, table=0, " ++ "priority=10,n_packets=42,n_bytes=1000"
                  ++ " actions=drop") 0
             = Some (String.length " cookie=0x0, table=0, " + 25))
  by (vm_compute; reflexivity).
exact (proj1 (parse_flow_line_counts 0%Q " cookie=0x0, table=0, " " actions=drop"
                                     "actions=drop" Hp Hb Hpost)).
Defined.

(** C8 at the default size 15: 225 switches, 4 hosts, 424 links. *)
Lemma grid_descriptor_counts_witness :
exists ti, Topology.build 15 = Some ti
           /\ length (ti_switches ti) = 225
           /\ length (ti_hosts ti) = 4
           /\ length (ti_links ti) = 424.
Proof.
assert (Hsize : (2 <= 15)%Z) by lia.
destruct (grid_descriptor_counts 15 Hsize)
  as (ti & Hbuild & _ & Hsw & _ & Hhosts & _ & _ & _ & Hlinks).
exists ti. split; [exact Hbuild |]. split; [exact Hsw |]. split; [| exact Hlinks].
rewrite <- (length_map (fun h : string * host_entry =>
                          (h.1, host_connected_to h.2))), Hhosts.
reflexivity.
Defined.

(** C9 on a monitor that has not polled yet. *)
Lemma empty_series_stats_lack_count_witness :
dict_get "jitter_ms" (Monitor.network_performance sample_std Monitor.initial_metrics)
= Some [("avg", 0%Q); ("min", 0%Q); ("max", 0%Q); ("std", 0%Q)]
/\ dict_get "count" (Monitor.calculate_stats sample_std []) = None.
Proof.
destruct (empty_series_stats_lack_count sample_std Monitor.initial_metrics
                                        Monitor.reachable_initial)
  as (Hjitter & Hcount & _).
split; assumption.
Defined.

End Examples.

(** ** The update in floating point: examples *)

Section FloatingExamples.

Import Samples Scenarios.

(** On the sample values the rounded rationals are what the primitive
    floats compute: the rates, line 110 on the reward 1/4, the estimate 3
    and the component -7/8, and line 110 on the subnormal [5 * 2^-1074]
    with a zero target. *)
Lemma blend_agrees_with_float64 :
option_map Qred (Floating.to_Q Float64Samples.tenth)
= Some (Qred (Floating.round_to Floating.Double (1 # 10)))
/\ option_map Qred (Floating.to_Q Float64Samples.rate_1e_17)
   = Some (Qred (Floating.round_to Floating.Double (1 # 100000000000000000)))
/\ option_map Qred
     (Floating.to_Q
        (Floating.blend64 Float64Samples.tenth Float64Samples.nine_tenths
           Float64Samples.quarter Float64Samples.three
           Float64Samples.minus_seven_eighths))
   = Some (Qred (Floating.blend (Floating.round_to Floating.Double)
                                (Floating.round_to Floating.Double)
                                (Floating.round_to Floating.Double (1 # 10))
                                (Floating.round_to Floating.Double (9 # 10))
                                (1 # 4) 3 (- (7 # 8))))
/\ option_map Qred
     (Floating.to_Q
        (Floating.blend64 Float64Samples.tenth Float64Samples.nine_tenths
           PrimFloat.zero PrimFloat.zero Float64Samples.five_ulps))
   = Some (Qred (Floating.blend (Floating.round_to Floating.Double)
                                (Floating.round_to Floating.Double)
                                (Floating.round_to Floating.Double (1 # 10))
                                (Floating.round_to Floating.Double (9 # 10))
                                0 0 (5 * Floating.pow2 (-1074)))).
Proof. vm_compute. repeat split. Qed.


(** C1 at an agent whose rates are float64 values, the scalars in
    float32: one update of the entry of path [1, 2, 4] with reward 0 and
    a zero next state, and the updates that follow it. *)
Lemma update_q_table_rounded_blend_witness :
let rnd := Floating.round_to Floating.Double in
let rnd_s := Floating.round_to Floating.Single in
(exists m,
    Agent.py_max (map (fun _ => sample_model [0; 0; 0; 0]%Q)
                      (map_to_list (Agent.q_table float_agent))) = Some m
    /\ Agent.q_table
         (fst (Floating.update_q_table rnd rnd_s sample_str sample_model
                                       float_agent sample_state path_a (JNum 0)
                                       zero_state))
       !! "[1, 2, 4]"
       = Some (map (fun x =>
                      rnd (rnd (rnd (1 - (1 # 2)) * x)
                           + rnd_s (rnd_s (1 # 2)
                                    * rnd_s (rnd_s 0 + rnd_s (rnd_s (rnd (9 # 10)) * m)))))%Q
                   [1; -2; 0; 4]%Q))
/\ (forall n, exists vn vn',
       Agent.q_table (Floating.update_times rnd rnd_s sample_str sample_model n
                                            float_agent sample_state path_a
                                            (JNum 0) zero_state)
       !! "[1, 2, 4]" = Some vn
       /\ Agent.q_table (Floating.update_times rnd rnd_s sample_str sample_model
                                               (S n) float_agent sample_state
                                               path_a (JNum 0) zero_state)
          !! "[1, 2, 4]" = Some vn'
       /\ Forall2 (fun y y' => (Qabs y' <= Qabs y)%Q
                               /\ ((0 <= y)%Q -> (0 <= y' /\ y' <= y)%Q)
                               /\ ((y <= 0)%Q -> (y <= y' /\ y' <= 0)%Q))
                  vn vn').
Proof.
intros rnd rnd_s.
assert (Hentry : Agent.q_table float_agent !! sample_str path_a
                 = Some [1; -2; 0; 4]%Q) by (vm_compute; reflexivity).
pose proof (update_q_table_rounded_blend
              sample_str sample_model Floating.Single float_agent sample_state
              path_a (JNum 0) zero_state 0%Q [0; 0; 0; 0]%Q [1; -2; 0; 4]%Q
              eq_refl eq_refl Hentry) as H.
cbv zeta in H. destruct H as [Hstep Hdecay].
split.
- destruct Hstep as (m & Hm & Hval). exists m. split; [exact Hm |].
  apply Hval.
  assert (Em : m = 0%Q) by (vm_compute in Hm; congruence).
  subst m.
  unfold Floating.in_range, Floating.scalar_results, Floating.entry_results.
  repeat apply Forall_cons_2; try apply Forall_nil_2;
    split; repeat apply Forall_cons_2; try apply Forall_nil_2;
    apply Qle_bool_imp_le; vm_compute; reflexivity.
- assert (H0 : (0 < Agent.learning_rate float_agent)%Q) by reflexivity.
  assert (H1 : (Agent.learning_rate float_agent < 1)%Q) by reflexivity.
  assert (Hr : (0 == 0)%Q) by reflexivity.
  assert (Hm : (sample_model [0; 0; 0; 0]%Q == 0)%Q) by reflexivity.
  assert (Hfmt : Forall (fun x => (Floating.round_to Floating.Double x == x)%Q
                                  /\ (Qabs x <= Floating.largest_of Floating.Double)%Q)
                        [1; -2; 0; 4]%Q).
  { repeat apply Forall_cons_2; try apply Forall_nil_2;
      (split; [apply Qeq_bool_eq | apply Qle_bool_imp_le]); vm_compute; reflexivity. }
  assert (Hg : (Qabs (Floating.round_to Floating.Single
                        (Agent.discount_factor float_agent))
                <= Floating.largest_of Floating.Single)%Q)
    by (apply Qle_bool_imp_le; vm_compute; reflexivity).
  intros n.
  destruct (Hdecay H0 H1 Hr Hm Hfmt Hg n) as (vn & vn' & Hvn & Hvn' & _ & Hrel).
  exists vn, vn'. split; [exact Hvn | split; [exact Hvn' | exact Hrel]].
Defined.


(** C1, against the strict decay: in float64 a repeated update with a
    zero target can leave a non-zero component where it is.  With the
    rate 1e-17 the factor [1 - lr] is 1.0 and the component 5 stays 5;
    with the rate 0.1 the component 1.0 reaches [5 * 2^-1074] and stays
    there, [0.9 * 5 * 2^-1074] being rounded back to it.  The primitive
    floats show it for line 110, the rounded update for the entry of
    [path_a], with rates in (0, 1), reward 0 and a zero next state. *)
Lemma update_q_table_stalls_in_float64 :
(Floating.blend64 Float64Samples.rate_1e_17 Float64Samples.nine_tenths
                  PrimFloat.zero PrimFloat.zero Float64Samples.five
 = Float64Samples.five
 /\ Floating.blend64_times 10000 Float64Samples.tenth Float64Samples.nine_tenths
                           PrimFloat.zero PrimFloat.zero PrimFloat.one
    = Float64Samples.five_ulps
 /\ Floating.blend64 Float64Samples.tenth Float64Samples.nine_tenths
                     PrimFloat.zero PrimFloat.zero Float64Samples.five_ulps
    = Float64Samples.five_ulps
 /\ PrimFloat.ltb PrimFloat.zero Float64Samples.five_ulps = true)
/\ ((0 < Agent.learning_rate slow_agent)%Q
    /\ (Agent.learning_rate slow_agent < 1)%Q
    /\ entry_after 0 slow_agent = Some [5; -3; 0; 1]%Q
    /\ option_map (map Qred) (entry_after 1 slow_agent) = Some [5; -3; 0; 1]%Q
    /\ option_map (map Qred) (entry_after 100 slow_agent) = Some [5; -3; 0; 1]%Q)
/\ ((0 < Agent.learning_rate stalled_agent)%Q
    /\ (Agent.learning_rate stalled_agent < 1)%Q
    /\ option_map (map Qred) (entry_after 1 stalled_agent)
       = option_map (map Qred) (entry_after 0 stalled_agent)
    /\ option_map (map Qred) (entry_after 100 stalled_agent)
       = option_map (map Qred) (entry_after 0 stalled_agent)
    /\ option_map (map (Qeq_bool 0)) (entry_after 0 stalled_agent)
       = Some [false; false; true; true]).
Proof.
split; [| split].
- vm_compute. repeat split.
- split; [reflexivity | split; [reflexivity |]].
  vm_compute. repeat split.
- split; [reflexivity | split; [reflexivity |]].
  vm_compute. repeat split.
Qed.

End FloatingExamples.

(** * Further properties *)

(** ** The agent process *)

Section AgentServiceProperties.

Import Agent AgentService.

Variable py_str : json -> string.
Variable predict : list Q -> Q.

Lemma grown_refl (n : nat) (t : gmap string (list Q)) : grown_by_zeros n t t.
Proof. split; eauto. Qed.

Lemma grown_trans (n : nat) (t1 t2 t3 : gmap string (list Q)) :
grown_by_zeros n t1 t2 -> grown_by_zeros n t2 t3 -> grown_by_zeros n t1 t3.
Proof.
intros [H12 H12'] [H23 H23']. split.
- eauto.
- intros k v H3. destruct (H23' k v H3) as [H2 | Hz]; [eauto | right; exact Hz].
Qed.

Lemma init_path_grows (n : nat) (t : gmap string (list Q)) (p : json) :
grown_by_zeros n t (init_path py_str n t p)
/\ is_Some (init_path py_str n t p !! py_str p).
Proof.
unfold init_path. destruct (t !! py_str p) as [w |] eqn:E.
- split; [apply grown_refl | rewrite E; eauto].
- split; [| rewrite lookup_insert_eq; eauto].
  split.
  + intros k v Hk. rewrite lookup_insert_ne; [exact Hk | congruence].
  + intros k v Hk. destruct (decide (py_str p = k)) as [<- | Hne].
    * rewrite lookup_insert_eq in Hk. right. congruence.
    * rewrite lookup_insert_ne in Hk by exact Hne. left. exact Hk.
Qed.

Lemma init_paths_grow (n : nat) (paths : list json) (t : gmap string (list Q)) :
grown_by_zeros n t (foldl (init_path py_str n) t paths)
/\ (forall p, p ∈ paths ->
      is_Some (foldl (init_path py_str n) t paths !! py_str p)).
Proof.
revert t. induction paths as [| q paths IH]; intros t; simpl.
- split; [apply grown_refl | intros p Hp; inversion Hp].
- destruct (init_path_grows n t q) as [Hg Hq].
  destruct (IH (init_path py_str n t q)) as [Hg' Hin].
  split; [eapply grown_trans; eassumption |].
  intros p Hp. apply elem_of_cons in Hp as [-> | Hp]; [| apply Hin, Hp].
  destruct Hq as [w Hw]. destruct Hg' as [Hkeep _]. rewrite (Hkeep _ _ Hw). eauto.
Qed.

Lemma init_pairs_grow (n : nat) (pairs : list (string * list json))
  (t : gmap string (list Q)) :
let t' := foldl (fun t (kv : string * list json) =>
                   foldl (init_path py_str n) t kv.2) t pairs in
grown_by_zeros n t t'
/\ (forall kv p, kv ∈ pairs -> p ∈ kv.2 -> is_Some (t' !! py_str p)).
Proof.
revert t. induction pairs as [| kv0 pairs IH]; intros t; simpl.
- split; [apply grown_refl | intros kv p Hkv; inversion Hkv].
- destruct (init_paths_grow n kv0.2 t) as [Hg Hin0].
  destruct (IH (foldl (init_path py_str n) t kv0.2)) as [Hg' Hin].
  split; [eapply grown_trans; eassumption |].
  intros kv p Hkv Hp. apply elem_of_cons in Hkv as [-> | Hkv]; [| eapply Hin; eassumption].
  destruct (Hin0 p Hp) as [w Hw]. destruct Hg' as [Hkeep _].
  rewrite (Hkeep _ _ Hw). eauto.
Qed.

(** X1. [initialize_q_table] gives every candidate path of every pair a
    table entry, keeps the entries that were there, adds only zero
    vectors of length [state_size], and running it again changes
    nothing. *)
Theorem initialize_q_table_covers_candidates (ag : agent) :
let ag' := initialize_q_table py_str ag in
(forall key paths p,
    possible_paths ag !! key = Some paths -> p ∈ paths ->
    is_Some (q_table ag' !! py_str p))
/\ (forall k v, q_table ag !! k = Some v -> q_table ag' !! k = Some v)
/\ (forall k v, q_table ag' !! k = Some v ->
                q_table ag !! k = Some v
                \/ (v = np_zeros (state_size ag) /\ length v = state_size ag))
/\ initialize_q_table py_str ag' = ag'.
Proof.
intros ag'.
destruct (init_pairs_grow (state_size ag) (map_to_list (possible_paths ag))
                          (q_table ag)) as [[Hkeep Hnew] Hin].
split; [| split; [| split]].
- intros key paths p Hkey Hp.
  apply (Hin (key, paths) p); [| exact Hp].
  apply elem_of_map_to_list. exact Hkey.
- exact Hkeep.
- intros k v Hk. destruct (Hnew k v Hk) as [Hold | ->]; [left; exact Hold |].
  right. split; [reflexivity | apply length_replicate].
- subst ag'.
  assert (Hfix : forall (pairs : list (string * list json)) (t : gmap string (list Q)),
            (forall kv p, kv ∈ pairs -> p ∈ kv.2 -> is_Some (t !! py_str p)) ->
            foldl (fun t (kv : string * list json) =>
                     foldl (init_path py_str (state_size ag)) t kv.2) t pairs = t).
  { induction pairs as [| kv0 pairs IHp]; intros t Hall; simpl; [reflexivity |].
    assert (H0 : foldl (init_path py_str (state_size ag)) t kv0.2 = t).
    { assert (Hsub : forall p, p ∈ kv0.2 -> is_Some (t !! py_str p)).
      { intros p Hp. apply (Hall kv0 p); [left | exact Hp]. }
      clear Hall IHp. induction (kv0.2) as [| q qs IHq]; simpl; [reflexivity |].
      assert (Hq : init_path py_str (state_size ag) t q = t).
      { unfold init_path. destruct (Hsub q) as [w Hw]; [left |]. rewrite Hw. reflexivity. }
      rewrite Hq. apply IHq. intros p Hp. apply Hsub. right. exact Hp. }
    rewrite H0. apply IHp. intros kv p Hkv Hp. apply (Hall kv p); [right; exact Hkv | exact Hp]. }
  unfold initialize_q_table, set_q_table. cbn [state_size learning_rate discount_factor
    save_interval possible_paths q_table recent_rewards total_steps saved_models].
  rewrite (Hfix (map_to_list (possible_paths ag))); [reflexivity |].
  intros kv p Hkv Hp. apply (Hin kv p Hkv Hp).
Qed.



Lemma score_paths_grows (paths : list json) (t : gmap string (list Q)) (n : nat)
  (state : option (list Q)) :
grown_by_zeros n t (fst (score_paths py_str predict t n state paths)).
Proof.
revert t. induction paths as [| p rest IH]; intros t.
- apply grown_refl.
- cbn [score_paths].
  change (match t !! py_str p with
          | Some _ => t
          | None => <[py_str p := np_zeros n]> t
          end) with (init_path py_str n t p).
  destruct (init_path_grows n t p) as [Hg _].
  destruct state as [v |]; [| exact Hg].
  specialize (IH (init_path py_str n t p)).
  destruct (score_paths py_str predict (init_path py_str n t p) n (Some v) rest)
    as [t2 [qs |]]; cbn [fst] in *; eapply grown_trans; eassumption.
Qed.

(** X2. Whatever the state and the pair, [get_action] only adds zero
    entries to the table: no existing entry is changed or removed, and
    the candidate lists, the rewards, the step counter and the saved
    steps are untouched. *)
Theorem get_action_only_adds_zero_entries (ag : agent) (state : list json)
  (src dst : json) :
let ag' := fst (get_action py_str predict ag state src dst) in
grown_by_zeros (state_size ag) (q_table ag) (q_table ag')
/\ possible_paths ag' = possible_paths ag
/\ recent_rewards ag' = recent_rewards ag
/\ total_steps ag' = total_steps ag
/\ saved_models ag' = saved_models ag.
Proof.
unfold get_action.
destruct (possible_paths ag !! path_key py_str src dst) as [[| first rest] |];
  try (cbn [fst]; split; [apply grown_refl | repeat split; reflexivity]).
pose proof (score_paths_grows (first :: rest) (q_table ag) (state_size ag)
                              (as_vector state)) as Hg.
destruct (score_paths py_str predict (q_table ag) (state_size ag)
                      (as_vector state) (first :: rest)) as [t [qs |]];
  cbn [fst] in *; (split; [exact Hg | repeat split; reflexivity]).
Qed.

(** X3. [update_q_table] writes the entry of its own action only: every
    other entry is what it was, whether the call returns or raises; the
    action has an entry afterwards, and the candidate lists, the state
    size and the save interval are unchanged. *)
Theorem update_q_table_keeps_other_entries (ag : agent) (state : list json)
  (action reward : json) (next_state : list json) (k : string) :
k <> py_str action ->
let ag' := fst (update_q_table py_str predict ag state action reward next_state) in
q_table ag' !! k = q_table ag !! k
/\ is_Some (q_table ag' !! py_str action)
/\ possible_paths ag' = possible_paths ag
/\ state_size ag' = state_size ag
/\ save_interval ag' = save_interval ag.
Proof.
intros Hk. unfold update_q_table.
set (t1 := match q_table ag !! py_str action with
           | Some _ => q_table ag
           | None => <[py_str action := np_zeros (state_size ag)]> (q_table ag)
           end).
assert (H1 : t1 !! k = q_table ag !! k).
{ subst t1. destruct (q_table ag !! py_str action); [reflexivity |].
  apply lookup_insert_ne. congruence. }
assert (H1' : is_Some (t1 !! py_str action)).
{ subst t1. destruct (q_table ag !! py_str action) eqn:E.
  - rewrite E. eauto.
  - rewrite lookup_insert_eq. eauto. }
assert (H2 : forall w, <[py_str action := w]> t1 !! k = q_table ag !! k).
{ intros w. rewrite lookup_insert_ne by congruence. exact H1. }
assert (H2' : forall w, is_Some (<[py_str action := w]> t1 !! py_str action)).
{ intros w. rewrite lookup_insert_eq. eauto. }
destruct (as_vector next_state) as [nv |]; [| cbn; auto].
destruct (py_max _) as [m |]; [| cbn; auto].
destruct (as_number reward) as [r |]; [| cbn; auto].
cbv zeta.
destruct (save_interval ag =? 0)%Z; [cbn; auto |].
destruct (_ =? 0)%Z; cbn; auto.
Qed.



(** What one call of [update_q_table] does to the counters. *)
Lemma update_q_table_effect (ag : agent) (state : list json)
  (action reward : json) (next_state : list json) :
let ag' := fst (update_q_table py_str predict ag state action reward next_state) in
save_interval ag' = save_interval ag
/\ possible_paths ag' = possible_paths ag
/\ (forall k, is_Some (q_table ag !! k) -> is_Some (q_table ag' !! k))
/\ ((recent_rewards ag' = recent_rewards ag
     /\ total_steps ag' = total_steps ag
     /\ saved_models ag' = saved_models ag)
    \/ (recent_rewards ag' = (recent_rewards ag ++ [reward])%list
        /\ total_steps ag' = (total_steps ag + 1)%Z
        /\ (save_interval ag <> 0%Z ->
            saved_models ag'
            = (saved_models ag
               ++ filter (fun s => s `mod` save_interval ag = 0)%Z
                         [(total_steps ag + 1)%Z])%list))).
Proof.
unfold update_q_table.
set (t1 := match q_table ag !! py_str action with
           | Some _ => q_table ag
           | None => <[py_str action := np_zeros (state_size ag)]> (q_table ag)
           end).
assert (H1 : forall k, is_Some (q_table ag !! k) -> is_Some (t1 !! k)).
{ intros k Hk. subst t1. destruct (q_table ag !! py_str action) eqn:E; [exact Hk |].
  destruct (decide (py_str action = k)) as [<- | Hne].
  - rewrite lookup_insert_eq. eauto.
  - rewrite lookup_insert_ne by exact Hne. exact Hk. }
assert (H2 : forall w k, is_Some (q_table ag !! k) ->
                         is_Some (<[py_str action := w]> t1 !! k)).
{ intros w k Hk. destruct (decide (py_str action = k)) as [<- | Hne].
  - rewrite lookup_insert_eq. eauto.
  - rewrite lookup_insert_ne by exact Hne. apply H1, Hk. }
destruct (as_vector next_state) as [nv |]; [| cbn; auto 10].
destruct (py_max _) as [m |]; [| cbn; auto 10].
destruct (as_number reward) as [r |]; [| cbn; auto 10].
cbv zeta.
destruct (Z.eqb_spec (save_interval ag) 0) as [E0 | E0].
- cbn. split; [reflexivity |]. split; [reflexivity |]. split; [apply H2 |].
  right. split; [reflexivity |]. split; [reflexivity |]. intros; contradiction.
- destruct (Z.eqb_spec ((total_steps ag + 1) `mod` save_interval ag) 0) as [Em | Em];
    cbn [fst save_interval possible_paths q_table recent_rewards total_steps
         saved_models];
    (split; [reflexivity |]); (split; [reflexivity |]); (split; [apply H2 |]);
    right; (split; [reflexivity |]); (split; [reflexivity |]); intros _.
  + rewrite filter_cons_True by exact Em. reflexivity.
  + rewrite filter_cons_False by exact Em. rewrite filter_nil, app_nil_r. reflexivity.
Qed.

Lemma update_handler_cases (ag : agent) (req : option json) :
fst (update py_str predict ag req) = ag
\/ exists s action reward ns,
     fst (update py_str predict ag req)
     = fst (update_q_table py_str predict ag s action reward ns).
Proof.
unfold update. destruct req as [[| | | | | fields] |]; try (left; reflexivity).
destruct (negb _); [left; reflexivity |].
destruct (is_state_list ag (get_or_null "state" fields)) as [s |]; [| left; reflexivity].
destruct (is_state_list ag (get_or_null "next_state" fields)) as [ns |];
  [| left; reflexivity].
right. exists s, (get_or_null "action" fields), (get_or_null "reward" fields), ns.
destruct (update_q_table _ _ _ _ _ _ _) as [ag' [u |]]; reflexivity.
Qed.

Lemma get_path_handler_cases (ag : agent) (req : option json) :
fst (get_path py_str predict ag req) = ag
\/ exists items src dst,
     fst (get_path py_str predict ag req)
     = fst (get_action py_str predict ag items src dst).
Proof.
unfold get_path. destruct req as [data |]; [| left; reflexivity].
destruct (negb (truthy data)); [left; reflexivity |].
destruct data as [| | | | | fields]; try (left; reflexivity).
destruct (_ || _); [left; reflexivity |].
destruct (is_state_list ag (get_or_null "state" fields)) as [items |];
  [| left; reflexivity].
destruct (possible_paths ag !! _); [| left; reflexivity].
right. exists items, (get_or_null "src" fields), (get_or_null "dst" fields).
destruct (get_action _ _ _ _ _ _) as [ag' [[[p i] |] |]]; reflexivity.
Qed.

Lemma score_paths_covered (paths : list json) (t : gmap string (list Q)) (n : nat)
  (state : option (list Q)) :
(forall p, p ∈ paths -> is_Some (t !! py_str p)) ->
fst (score_paths py_str predict t n state paths) = t.
Proof.
revert t. induction paths as [| p rest IH]; intros t Hall; [reflexivity |].
cbn [score_paths].
destruct (Hall p) as [w Hw]; [left |]. rewrite Hw.
destruct state as [v |]; [| reflexivity].
specialize (IH t). 
destruct (score_paths py_str predict t n (Some v) rest) as [t2 [qs |]];
  cbn [fst] in *; apply IH; intros q Hq; apply Hall; right; exact Hq.
Qed.

Lemma get_action_covered (ag : agent) (state : list json) (src dst : json) :
covered py_str ag -> fst (get_action py_str predict ag state src dst) = ag.
Proof.
intros Hcov. unfold get_action.
destruct (possible_paths ag !! path_key py_str src dst) as [[| first rest] |] eqn:E;
  try reflexivity.
pose proof (score_paths_covered (first :: rest) (q_table ag) (state_size ag)
              (as_vector state) (fun p Hp => Hcov _ _ p E Hp)) as Hs.
destruct (score_paths py_str predict (q_table ag) (state_size ag)
                      (as_vector state) (first :: rest)) as [t [qs |]];
  cbn [fst] in *; subst t; destruct ag; reflexivity.
Qed.

Lemma seqZ_snoc (m n : Z) :
(0 <= n)%Z -> seqZ m (n + 1) = (seqZ m n ++ [(m + n)%Z])%list.
Proof.
intros Hn. rewrite seqZ_app by lia. f_equal.
Qed.

(** The invariant of the agent process. *)
Lemma serving_invariant (ag : agent) :
serving py_str predict ag ->
steps_match_rewards ag
/\ covered py_str ag
/\ (save_interval ag <> 0%Z ->
    saved_models ag
    = filter (fun s => s `mod` save_interval ag = 0)%Z (seqZ 1 (total_steps ag))).
Proof.
induction 1 as [size lr df interval paths | ag req Hs IH Hreq | ag req Hs IH Hreq].
- split; [reflexivity |]. split; [| reflexivity].
  intros key ps p Hkey Hp.
  destruct (init_pairs_grow size (map_to_list paths) ∅) as [_ Hin].
  apply (Hin (key, ps) p); [| exact Hp].
  apply elem_of_map_to_list. exact Hkey.
- destruct IH as (Hc & Hcov & Hsaved).
  destruct (get_path_handler_cases ag req) as [-> | (items & src & dst & ->)];
    [auto |].
  rewrite (get_action_covered ag items src dst Hcov). auto.
- destruct IH as (Hc & Hcov & Hsaved).
  destruct (update_handler_cases ag req) as [-> | (s & action & reward & ns & ->)];
    [auto |].
  destruct (update_q_table_effect ag s action reward ns)
    as (Hsi & Hpp & Hkeys & Heff).
  set (ag' := fst (update_q_table py_str predict ag s action reward ns)) in *.
  assert (Hcov' : covered py_str ag').
  { intros key ps p Hkey Hp. apply Hkeys. rewrite Hpp in Hkey.
    exact (Hcov key ps p Hkey Hp). }
  destruct Heff as [(Hr & Ht & Hm) | (Hr & Ht & Hm)].
  + split; [unfold steps_match_rewards; rewrite Hr, Ht; exact Hc |].
    split; [exact Hcov' |].
    rewrite Hsi, Hm, Ht. exact Hsaved.
  + unfold steps_match_rewards in *.
    split; [rewrite Hr, Ht, length_app; cbn [length]; lia |].
    split; [exact Hcov' |].
    rewrite Hsi. intros Hne. rewrite (Hm Hne), Ht, (Hsaved Hne).
    rewrite seqZ_snoc by lia. rewrite filter_app.
    replace (1 + total_steps ag)%Z with (total_steps ag + 1)%Z by lia.
    reflexivity.
Qed.



(** X4. In every state of the agent process the count that GET /stats
    reports is the number of rewards recorded so far, and the rewards it
    reports are the last 100 of them (all of them when there are
    fewer), in order. *)
Theorem stats_reports_steps_and_last_rewards (ag : agent) :
serving py_str predict ag ->
let body := stats ag in
stats_count body = Z.of_nat (length (recent_rewards ag))
/\ (exists older, recent_rewards ag = (older ++ stats_recent_rewards body)%list)
/\ length (stats_recent_rewards body) = Nat.min 100 (length (recent_rewards ag)).
Proof.
intros Hs. destruct (serving_invariant ag Hs) as (Hc & _ & _).
split; [exact Hc |]. split.
- exists (take (length (recent_rewards ag) - 100) (recent_rewards ag)).
  symmetry. apply take_drop.
- cbn [stats stats_recent_rewards]. unfold last_n. rewrite length_drop. lia.
Qed.

(** X5. Once constructed, the agent always has a table entry for every
    candidate path, so that POST /get_path never changes the agent,
    whatever the request and whatever it answers. *)
Theorem get_path_leaves_serving_agent_unchanged (ag : agent) (req : option json) :
serving py_str predict ag ->
covered py_str ag /\ fst (get_path py_str predict ag req) = ag.
Proof.
intros Hs. destruct (serving_invariant ag Hs) as (_ & Hcov & _).
split; [exact Hcov |].
destruct (get_path_handler_cases ag req) as [-> | (items & src & dst & ->)];
  [reflexivity |].
apply get_action_covered, Hcov.
Qed.

(** X6. With a non-zero save interval the steps at which the process has
    saved its model are exactly the multiples of the interval among the
    steps 1 .. [total_steps], in increasing order. *)
Theorem checkpoints_at_interval_multiples (ag : agent) :
serving py_str predict ag ->
save_interval ag <> 0%Z ->
saved_models ag
= filter (fun s => s `mod` save_interval ag = 0)%Z (seqZ 1 (total_steps ag)).
Proof.
intros Hs. destruct (serving_invariant ag Hs) as (_ & _ & Hsaved). exact Hsaved.
Qed.

(** X7. POST /update answers 400 and leaves the agent as it was when the
    state or the next_state is not a list of length [state_size], and
    answers 500, again without touching the agent, when the body is not
    a JSON object. *)
Theorem update_rejects_malformed_request (ag : agent) :
(forall fields,
    is_state_list ag (get_or_null "state" fields) = None
    \/ is_state_list ag (get_or_null "next_state" fields) = None ->
    exists msg, update py_str predict ag (Some (JObj fields)) = (ag, Error400 msg))
/\ (forall req,
       match req with Some (JObj _) => False | _ => True end ->
       update py_str predict ag req = (ag, Error500)).
Proof.
split.
- intros fields H. unfold update.
  destruct (negb _); [eauto |].
  destruct (is_state_list ag (get_or_null "state" fields)) as [s |]; [| eauto].
  destruct H as [H | H]; [discriminate |]. rewrite H. eauto.
- intros req H. destruct req as [[| | | | | fields] |]; try reflexivity. contradiction.
Qed.

(** X8. POST /get_path for a pair whose candidate list is empty is
    answered 400 "No valid path found" and leaves the agent as it
    was. *)
Theorem get_path_rejects_pair_without_candidates (ag : agent)
  (fields : list (string * json)) (src dst : json) (items : list json) :
dict_get "src" fields = Some src ->
dict_get "dst" fields = Some dst ->
dict_get "state" fields = Some (JArr items) ->
truthy src = true -> truthy dst = true ->
length items = state_size ag ->
possible_paths ag !! path_key py_str src dst = Some [] ->
get_path py_str predict ag (Some (JObj fields))
= (ag, Error400 "No valid path found").
Proof.
intros Hsrc Hdst Hst Hts Htd Hlen Hkey. unfold get_path, get_or_null.
rewrite Hsrc, Hdst, Hst. cbn [default from_option id].
destruct fields as [| f fields]; [discriminate |].
cbn [truthy negb]. rewrite Hts, Htd. cbn [negb orb is_state_list].
rewrite Hlen, Nat.eqb_refl, Hkey.
unfold get_action. rewrite Hkey. reflexivity.
Qed.

(** A request that passes the checks of [update] reaches [update_q_table]. *)
Lemma update_reaches_table (ag : agent) (fields : list (string * json))
  (state next_state : list json) (action reward : json) :
dict_get "state" fields = Some (JArr state) ->
dict_get "action" fields = Some action ->
dict_get "reward" fields = Some reward ->
dict_get "next_state" fields = Some (JArr next_state) ->
truthy action = true -> is_not_none reward = true ->
length state = state_size ag -> length next_state = state_size ag ->
0 < state_size ag ->
update py_str predict ag (Some (JObj fields))
= match update_q_table py_str predict ag state action reward next_state with
  | (ag', Raised) => (ag', Error500)
  | (ag', Returned _) => (ag', StatusSuccess)
  end.
Proof.
intros Hs Ha Hr Hn Hta Hnn Hls Hln Hpos. unfold update, get_or_null.
rewrite Hs, Ha, Hr, Hn. cbn [default from_option id].
destruct state as [| s0 state']; [simpl in Hls; lia |].
destruct next_state as [| n0 next']; [simpl in Hln; lia |].
cbn [truthy]. rewrite Hta, Hnn. cbn [andb negb is_state_list].
rewrite Hls, Hln, Nat.eqb_refl. reflexivity.
Qed.

(** X9. With a save interval of 0 a well-formed /update is answered 500
    (the modulo raises) after the update has been applied: the reward is
    recorded, the step counted and the action's entry written, and no
    model is saved. *)
Theorem update_with_zero_interval_fails_after_recording (ag : agent)
  (fields : list (string * json)) (state next_state : list json)
  (action reward : json) (r : Q) (nv : list Q) :
dict_get "state" fields = Some (JArr state) ->
dict_get "action" fields = Some action ->
dict_get "reward" fields = Some reward ->
dict_get "next_state" fields = Some (JArr next_state) ->
truthy action = true ->
length state = state_size ag -> length next_state = state_size ag ->
0 < state_size ag ->
is_Some (as_vector state) ->
as_vector next_state = Some nv ->
as_number reward = Some r ->
save_interval ag = 0%Z ->
exists ag',
  update py_str predict ag (Some (JObj fields)) = (ag', Error500)
  /\ recent_rewards ag' = (recent_rewards ag ++ [reward])%list
  /\ total_steps ag' = (total_steps ag + 1)%Z
  /\ is_Some (q_table ag' !! py_str action)
  /\ saved_models ag' = saved_models ag.
Proof.
intros Hs Ha Hr Hn Hta Hls Hln Hpos _ Hnv Hnum Hzero.
assert (Hnn : is_not_none reward = true) by (destruct reward; try discriminate; reflexivity).
rewrite (update_reaches_table ag fields state next_state action reward
           Hs Ha Hr Hn Hta Hnn Hls Hln Hpos).
destruct (update_q_table_step py_str predict ag state action reward next_state r nv
            Hnum Hnv) as (Hq & Hrew & Hsteps & _).
destruct (update_q_table_effect ag state action reward next_state)
  as (_ & _ & _ & Heff).
assert (Hraised : snd (update_q_table py_str predict ag state action reward next_state)
                  = Raised /\
                  saved_models (fst (update_q_table py_str predict ag state action
                                                    reward next_state))
                  = saved_models ag).
{ unfold update_q_table. rewrite Hnv, Hnum.
  destruct (py_max _); [| split; reflexivity].
  cbv zeta. rewrite Hzero. split; reflexivity. }
destruct Hraised as [Hraised Hsaved].
destruct (update_q_table py_str predict ag state action reward next_state)
  as [ag' o]. cbn [fst snd] in *. subst o.
exists ag'. split; [reflexivity |]. split; [exact Hrew |]. split; [exact Hsteps |].
split; [| exact Hsaved]. rewrite Hq, lookup_insert_eq. eauto.
Qed.

(** X10. A well-formed /update whose reward cannot be added to a number
    (a string, an object) is answered 500 without recording a reward or
    counting a step; the table may have gained a zero entry for the
    action, and nothing else in it has changed. *)
Theorem update_with_unusable_reward_records_nothing (ag : agent)
  (fields : list (string * json)) (state next_state : list json)
  (action reward : json) :
dict_get "state" fields = Some (JArr state) ->
dict_get "action" fields = Some action ->
dict_get "reward" fields = Some reward ->
dict_get "next_state" fields = Some (JArr next_state) ->
truthy action = true ->
length state = state_size ag -> length next_state = state_size ag ->
0 < state_size ag ->
is_Some (as_vector state) ->
is_not_none reward = true -> is_list reward = false ->
as_number reward = None ->
exists ag',
  update py_str predict ag (Some (JObj fields)) = (ag', Error500)
  /\ recent_rewards ag' = recent_rewards ag
  /\ total_steps ag' = total_steps ag
  /\ grown_by_zeros (state_size ag) (q_table ag) (q_table ag')
  /\ is_Some (q_table ag' !! py_str action).
Proof.
intros Hs Ha Hr Hn Hta Hls Hln Hpos _ Hnn _ Hnum.
rewrite (update_reaches_table ag fields state next_state action reward
           Hs Ha Hr Hn Hta Hnn Hls Hln Hpos).
unfold update_q_table. rewrite Hnum.
change (match q_table ag !! py_str action with
        | Some _ => q_table ag
        | None => <[py_str action := np_zeros (state_size ag)]> (q_table ag)
        end) with (init_path py_str (state_size ag) (q_table ag) action).
destruct (init_path_grows (state_size ag) (q_table ag) action) as [Hg Hsome].
destruct (as_vector next_state) as [nv |]; [destruct (py_max _) |];
  eexists; (split; [reflexivity |]); cbn [set_q_table recent_rewards total_steps q_table];
  auto.
Qed.

End AgentServiceProperties.

(** *** Examples *)

Section AgentServiceExamples.

Import Agent AgentService Samples Scenarios.

Lemma served_agent_serving : serving sample_str sample_model served_agent.
Proof.
unfold served_agent.
apply serving_update; [| reflexivity].
apply serving_update; [| reflexivity].
apply serving_start.
Defined.

(** X3 on the sample agent: updating [path_a] leaves the entry of
    [path_b] alone. *)
Lemma update_q_table_keeps_other_entries_witness :
q_table (fst (update_q_table sample_str sample_model started_agent sample_state
                             path_a (JNum 1) zero_state)) !! "[1, 3, 4]"
= q_table started_agent !! "[1, 3, 4]".
Proof.
apply (update_q_table_keeps_other_entries sample_str sample_model started_agent
         sample_state path_a (JNum 1) zero_state "[1, 3, 4]").
vm_compute. discriminate.
Defined.

(** X4 after two accepted updates. *)
Lemma stats_reports_steps_and_last_rewards_witness :
stats_count (stats served_agent) = 2%Z
/\ stats_recent_rewards (stats served_agent) = [JNum 1; JNum 0].
Proof.
destruct (stats_reports_steps_and_last_rewards sample_str sample_model served_agent
            served_agent_serving) as (Hcount & _ & _).
split; [rewrite Hcount |]; vm_compute; reflexivity.
Defined.

(** X5 on the same agent and a well-formed request. *)
Lemma get_path_leaves_serving_agent_unchanged_witness :
fst (get_path sample_str sample_model served_agent
              (Some (JObj (get_path_fields 1 4)))) = served_agent.
Proof.
apply (get_path_leaves_serving_agent_unchanged sample_str sample_model served_agent
         (Some (JObj (get_path_fields 1 4))) served_agent_serving).
Defined.

(** X6: saving every second step, two steps give one saved model. *)
Lemma checkpoints_at_interval_multiples_witness :
saved_models served_agent = [2%Z].
Proof.
rewrite (checkpoints_at_interval_multiples sample_str sample_model served_agent
           served_agent_serving); [| vm_compute; discriminate].
vm_compute. reflexivity.
Defined.

(** X7: a state of three numbers for an agent of state size 4, and a
    body that did not decode. *)
Lemma update_rejects_malformed_request_witness :
(exists msg,
    update sample_str sample_model started_agent
           (Some (JObj [("state", JArr [JNum 1; JNum 2; JNum 3]); ("action", path_a);
                        ("reward", JNum 1); ("next_state", JArr zero_state)]))
    = (started_agent, Error400 msg))
/\ update sample_str sample_model started_agent None = (started_agent, Error500).
Proof.
destruct (update_rejects_malformed_request sample_str sample_model started_agent)
  as [H400 H500].
split.
- apply H400. left. reflexivity.
- apply H500. exact I.
Defined.

(** X8 on the pair 4->1, which has no candidate. *)
Lemma get_path_rejects_pair_without_candidates_witness :
get_path sample_str sample_model never_saving_agent
         (Some (JObj (get_path_fields 4 1)))
= (never_saving_agent, Error400 "No valid path found").
Proof.
apply (get_path_rejects_pair_without_candidates sample_str sample_model
         never_saving_agent (get_path_fields 4 1) (JNum 4) (JNum 1) sample_state);
  vm_compute; reflexivity.
Defined.

(** X9 on the agent configured with interval 0. *)
Lemma update_with_zero_interval_fails_after_recording_witness :
exists ag',
  update sample_str sample_model never_saving_agent
         (Some (JObj (update_fields (JNum 1)))) = (ag', Error500)
  /\ recent_rewards ag' = [JNum 1]
  /\ total_steps ag' = 1%Z.
Proof.
destruct (update_with_zero_interval_fails_after_recording sample_str sample_model
            never_saving_agent (update_fields (JNum 1)) sample_state zero_state
            path_a (JNum 1) 1%Q [0%Q; 0%Q; 0%Q; 0%Q])
  as (ag' & Hresp & Hrew & Hsteps & _);
  try (vm_compute; reflexivity); [vm_compute; lia | vm_compute; eauto |].
exists ag'. split; [exact Hresp |]. split; [exact Hrew | exact Hsteps].
Defined.

(** X10 with the reward sent as text. *)
Lemma update_with_unusable_reward_records_nothing_witness :
exists ag',
  update sample_str sample_model started_agent
         (Some (JObj (update_fields (JStr "high")))) = (ag', Error500)
  /\ recent_rewards ag' = []
  /\ total_steps ag' = 0%Z.
Proof.
destruct (update_with_unusable_reward_records_nothing sample_str sample_model
            started_agent (update_fields (JStr "high")) sample_state zero_state
            path_a (JStr "high"))
  as (ag' & Hresp & Hrew & Hsteps & _);
  try (vm_compute; reflexivity); [vm_compute; lia | vm_compute; eauto |].
exists ag'. split; [exact Hresp |]. split; [exact Hrew | exact Hsteps].
Defined.

End AgentServiceExamples.

(** ** The controller's handlers *)

Section ControllerEventProperties.

Import Controller ControllerEvents.

Variable str_match : ofp_match -> string.
Variable str_actions : list action -> string.
Variable str_action : action -> string.
Variable nx_shortest_path : graph -> Z -> Z -> nx_result.

Abbreviation add_flow := (add_flow str_match str_actions str_action).
Abbreviation install_hop := (install_hop str_match str_actions str_action).
Abbreviation install_hops := (install_hops str_match str_actions str_action).
Abbreviation _install_path_flows := (_install_path_flows str_match str_actions str_action).
Abbreviation route_flow := (route_flow str_match str_actions str_action nx_shortest_path).
Abbreviation reroute_loop := (reroute_loop str_match str_actions str_action nx_shortest_path).
Abbreviation _reroute_affected_flows :=
  (_reroute_affected_flows str_match str_actions str_action nx_shortest_path).
Abbreviation packet_in_handler :=
  (packet_in_handler str_match str_actions str_action nx_shortest_path).
Abbreviation force_path_installation :=
  (force_path_installation str_match str_actions str_action nx_shortest_path).
Abbreviation force_sp_path_installation :=
  (force_sp_path_installation str_match str_actions str_action).
Abbreviation switch_features_handler :=
  (switch_features_handler str_match str_actions str_action).
Abbreviation port_status_handler :=
  (port_status_handler str_match str_actions str_action nx_shortest_path).
Abbreviation drop_port_edges :=
  (drop_port_edges str_match str_actions str_action nx_shortest_path).
Abbreviation running := (running str_match str_actions str_action nx_shortest_path).
Abbreviation flow_steps := (flow_steps str_match str_actions str_action).
Abbreviation bookkeeping := (bookkeeping str_match str_actions str_action).
Abbreviation flow_key := (flow_key str_match str_actions).
Abbreviation flow_record_of := (flow_record_of str_action).
Abbreviation sound := (sound str_match str_actions str_action).
Abbreviation get_stats := ControllerEvents.get_stats.

(** *** The flow statistics *)

Lemma add_flow_bookkeeping (st : controller) (dp : datapath) (priority : Z)
  (m : ofp_match) (actions : list action) (idle hard : Z) :
bookkeeping st -> bookkeeping (add_flow st dp priority m actions idle hard).
Proof.
intros (Hnd & Hkeys & Hlog & Hcount). unfold Controller.add_flow.
destruct (decide _) as [Hin | Hnew]; [repeat split; assumption |].
unfold ControllerEvents.bookkeeping. cbn [sent existing_flows flow_log flow_count].
rewrite !omap_app.
change (omap flow_key [OFPFlowMod (dp_id dp) priority m actions idle hard])
  with [(dp_id dp, str_match m, str_actions actions)].
change (omap flow_record_of [OFPFlowMod (dp_id dp) priority m actions idle hard])
  with [mkFlowRecord (dp_id dp) (match_get "ipv4_src" m) (match_get "ipv4_dst" m)
                     (map str_action actions)].
split; [| split; [| split]].
- apply NoDup_app. split; [exact Hnd |]. split; [| apply NoDup_singleton].
  intros k Hk Hk'. apply list_elem_of_singleton in Hk'. subst k.
  apply Hnew. rewrite Hkeys. apply elem_of_list_to_set. exact Hk.
- rewrite list_to_set_app_L, list_to_set_singleton_L, Hkeys. apply (comm_L (∪)).
- rewrite Hlog. reflexivity.
- rewrite length_app, Hcount. cbn [length]. lia.
Qed.

Lemma flow_steps_bookkeeping (st st' : controller) :
flow_steps st st' -> bookkeeping st -> bookkeeping st'.
Proof.
induction 1 as [st | st st' dp priority m actions idle hard _ IH
                | st st' dpid buffer_id in_port actions data _ IH]; intros Hb.
- exact Hb.
- apply add_flow_bookkeeping, IH, Hb.
- destruct (IH Hb) as (Hnd & Hkeys & Hlog & Hcount).
  unfold ControllerEvents.bookkeeping, send_msg.
  cbn [sent existing_flows flow_log flow_count].
  rewrite !omap_app.
  change (omap flow_key [OFPPacketOut dpid buffer_id in_port actions data])
    with (@nil (Z * string * string)).
  change (omap flow_record_of [OFPPacketOut dpid buffer_id in_port actions data])
    with (@nil flow_record).
  rewrite !app_nil_r. repeat split; assumption.
Qed.

(** Flow installations leave the graph, the datapaths and the MAC tables
    alone, and only add to what has been sent. *)
Lemma flow_steps_frame (st st' : controller) :
flow_steps st st' ->
topology_graph st' = topology_graph st /\ datapaths st' = datapaths st
/\ mac_to_port st' = mac_to_port st
/\ exists new, sent st' = (sent st ++ new)%list.
Proof.
induction 1 as [st | st st' dp priority m actions idle hard _ IH
                | st st' dpid buffer_id in_port actions data _ IH].
- repeat split; try reflexivity. exists []. symmetry. apply app_nil_r.
- destruct IH as (Hg & Hd & Hm & new & Hs).
  unfold Controller.add_flow. destruct (decide _); [eauto 10 |].
  cbn [topology_graph datapaths mac_to_port sent].
  repeat split; try assumption. rewrite Hs, <- app_assoc. eauto.
- destruct IH as (Hg & Hd & Hm & new & Hs).
  unfold send_msg. cbn [topology_graph datapaths mac_to_port sent].
  repeat split; try assumption. rewrite Hs, <- app_assoc. eauto.
Qed.

Lemma flow_steps_trans (st1 st2 st3 : controller) :
flow_steps st1 st2 -> flow_steps st2 st3 -> flow_steps st1 st3.
Proof.
intros H12 H23. induction H23.
- exact H12.
- apply flow_steps_add. auto.
- apply flow_steps_send. auto.
Qed.

Lemma install_hop_steps (st : controller) (a b src_ip dst_ip : json) :
flow_steps st (fst (install_hop st a b src_ip dst_ip)).
Proof.
unfold Controller.install_hop.
destruct (as_dpid a) as [[u |] |]; try apply flow_steps_refl.
destruct (datapaths st !! u) as [dp |]; [| apply flow_steps_refl].
destruct (topology_graph st !! u) as [nb |]; [| apply flow_steps_refl].
destruct (as_dpid b) as [[v |] |]; try apply flow_steps_refl.
destruct (nb !! v) as [port |]; [| apply flow_steps_refl].
apply flow_steps_add, flow_steps_refl.
Qed.

Lemma install_hops_steps (items : list json) (st : controller) (src_ip dst_ip : json) :
flow_steps st (fst (install_hops st items src_ip dst_ip)).
Proof.
revert st. induction items as [| a rest IH]; intros st; [apply flow_steps_refl |].
destruct rest as [| b rest']; [apply flow_steps_refl |].
cbn [Controller.install_hops].
pose proof (install_hop_steps st a b src_ip dst_ip) as Hh.
destruct (install_hop st a b src_ip dst_ip) as [st' [u |]]; cbn [fst] in *.
- eapply flow_steps_trans; [exact Hh | apply IH].
- exact Hh.
Qed.

Lemma install_path_flows_steps (st : controller) (path src_ip dst_ip : json) :
flow_steps st (fst (_install_path_flows st path src_ip dst_ip)).
Proof.
unfold Controller._install_path_flows.
destruct (path_elements path) as [items |]; [apply install_hops_steps | apply flow_steps_refl].
Qed.

Lemma route_flow_steps (st : controller) (env : environment) (src_ip dst_ip : json) :
flow_steps st (fst (route_flow st env src_ip dst_ip)).
Proof.
unfold Controller.route_flow.
destruct (both_switches _ _) as [[s d] |]; [| apply flow_steps_refl].
destruct (request_path_with_fallback _ _ _ _ _) as [path |]; [| apply flow_steps_refl].
destruct (truthy path); [apply install_path_flows_steps | apply flow_steps_refl].
Qed.

Lemma reroute_loop_steps (affected : list (json * json)) (st : controller)
  (envs : nat -> environment) (i : nat) :
flow_steps st (fst (reroute_loop st envs i affected)).
Proof.
revert st i. induction affected as [| [src_ip dst_ip] rest IH]; intros st i;
  [apply flow_steps_refl |].
cbn [Controller.reroute_loop].
pose proof (route_flow_steps st (envs i) src_ip dst_ip) as Hr.
destruct (route_flow st (envs i) src_ip dst_ip) as [st' [u |]]; cbn [fst] in *.
- eapply flow_steps_trans; [exact Hr | apply IH].
- exact Hr.
Qed.

Lemma packet_in_handler_steps (st : controller) (env : environment) (ev : packet_in) :
fst (packet_in_handler st env ev) = st
\/ flow_steps (learn_mac st ev) (fst (packet_in_handler st env ev)).
Proof.
unfold Controller.packet_in_handler.
destruct (pi_ethertype ev =? 2054)%Z; [left; reflexivity | right].
cbv zeta.
destruct (_ =? OFPP_FLOOD)%Z.
- cbn [fst]. apply flow_steps_send, flow_steps_refl.
- destruct (pi_ipv4 ev) as [[src_ip dst_ip] |].
  + pose proof (route_flow_steps (learn_mac st ev) env (JStr src_ip) (JStr dst_ip)) as Hr.
    destruct (route_flow (learn_mac st ev) env (JStr src_ip) (JStr dst_ip))
      as [st2 [u |]]; cbn [fst] in *.
    * apply flow_steps_send. exact Hr.
    * exact Hr.
  + cbn [fst]. apply flow_steps_send, flow_steps_refl.
Qed.

Lemma force_path_installation_steps (st : controller) (env : environment)
  (req : option json) :
flow_steps st (fst (force_path_installation st env req)).
Proof.
unfold Controller.force_path_installation.
destruct req as [[| | | | | data] |]; try apply flow_steps_refl.
destruct (_ || _); [apply flow_steps_refl |].
destruct (nodes (topology_graph st)); [apply flow_steps_refl |].
destruct (both_switches _ _) as [[s d] |]; [| apply flow_steps_refl].
cbv zeta.
destruct (if truthy _ then _ else _) as [path' |]; [| apply flow_steps_refl].
destruct (truthy path'); [| apply flow_steps_refl].
pose proof (install_path_flows_steps st path' (default JNull (dict_get "src_ip" data))
              (default JNull (dict_get "dst_ip" data))) as Hi.
destruct (_install_path_flows st path' _ _) as [st' [u |]]; exact Hi.
Qed.

Lemma force_sp_path_installation_steps (st : controller) (req : option json) :
flow_steps st (fst (force_sp_path_installation st req)).
Proof.
unfold ControllerEvents.force_sp_path_installation.
destruct req as [[| | | | | data] |]; try apply flow_steps_refl.
destruct (_ || _); [apply flow_steps_refl |].
pose proof (install_path_flows_steps st (default (JArr []) (dict_get "path" data))
              (default JNull (dict_get "src_ip" data))
              (default JNull (dict_get "dst_ip" data))) as Hi.
destruct (_install_path_flows st _ _ _) as [st' [u |]]; exact Hi.
Qed.



(** *** The graph *)

Lemma edge_port_add_node (g : graph) (x u v : Z) :
edge_port (add_node g x) u v = edge_port g u v.
Proof.
unfold add_node, edge_port, graph in *. destruct (g !! x) eqn:E; [reflexivity |].
destruct (decide (x = u)) as [-> | Hne].
- rewrite lookup_insert_eq, E. apply lookup_empty.
- rewrite lookup_insert_ne by exact Hne. reflexivity.
Qed.

Lemma edge_port_add_edge (g : graph) (a b port u v : Z) :
edge_port (add_edge g a b port) u v
= if decide ((u = a /\ v = b) \/ (u = b /\ v = a)) then Some port
  else edge_port g u v.
Proof.
unfold add_edge, edge_port, neighbours, graph in *. cbv zeta.
destruct (decide (u = b)) as [-> | Hub].
- rewrite lookup_insert_eq.
  destruct (decide (v = a)) as [-> | Hva].
  + rewrite lookup_insert_eq. rewrite decide_True by auto. reflexivity.
  + rewrite lookup_insert_ne by congruence.
    destruct (decide (b = a)) as [-> | Hba].
    * rewrite lookup_insert_eq. cbn [default from_option id].
      rewrite lookup_insert_ne by congruence.
      rewrite decide_False by (intros [[_ ?] | [_ ?]]; congruence).
      destruct (g !! a); [reflexivity | apply lookup_empty].
    * rewrite lookup_insert_ne by congruence.
      rewrite decide_False by (intros [[? _] | [_ ?]]; congruence).
      destruct (g !! b); [reflexivity | apply lookup_empty].
- rewrite lookup_insert_ne by congruence.
  destruct (decide (u = a)) as [-> | Hua].
  + rewrite lookup_insert_eq.
    destruct (decide (v = b)) as [-> | Hvb].
    * rewrite lookup_insert_eq. rewrite decide_True by auto. reflexivity.
    * rewrite lookup_insert_ne by congruence.
      rewrite decide_False by (intros [[_ ?] | [? _]]; congruence).
      destruct (g !! a); [reflexivity | apply lookup_empty].
  + rewrite lookup_insert_ne by congruence.
    rewrite decide_False by (intros [[? _] | [? _]]; congruence). reflexivity.
Qed.

Lemma edge_port_remove_edge (g g' : graph) (a b u v : Z) :
remove_edge g a b = Returned g' ->
edge_port g' u v
= if decide ((u = a /\ v = b) \/ (u = b /\ v = a)) then None
  else edge_port g u v.
Proof.
unfold remove_edge. destruct (adjacent g a b); [| discriminate].
intros [= <-]. unfold edge_port, graph in *.
destruct (decide (u = b)) as [-> | Hub].
- rewrite lookup_alter_eq.
  destruct (decide (b = a)) as [-> | Hba].
  + rewrite lookup_alter_eq. destruct (g !! a) as [nb |]; cbn [fmap option_fmap option_map].
    * destruct (decide (v = a)) as [-> | Hva].
      -- rewrite lookup_delete_eq. rewrite decide_True by auto. reflexivity.
      -- rewrite !lookup_delete_ne by congruence.
         rewrite decide_False by (intros [[_ ?] | [_ ?]]; congruence). reflexivity.
    * destruct (decide _); reflexivity.
  + rewrite lookup_alter_ne by congruence.
    destruct (g !! b) as [nb |]; cbn [fmap option_fmap option_map].
    * destruct (decide (v = a)) as [-> | Hva].
      -- rewrite lookup_delete_eq. rewrite decide_True by auto. reflexivity.
      -- rewrite lookup_delete_ne by congruence.
         rewrite decide_False by (intros [[? _] | [_ ?]]; congruence). reflexivity.
    * destruct (decide _); reflexivity.
- rewrite lookup_alter_ne by congruence.
  destruct (decide (u = a)) as [-> | Hua].
  + rewrite lookup_alter_eq.
    destruct (g !! a) as [nb |]; cbn [fmap option_fmap option_map].
    * destruct (decide (v = b)) as [-> | Hvb].
      -- rewrite lookup_delete_eq. rewrite decide_True by auto. reflexivity.
      -- rewrite lookup_delete_ne by congruence.
         rewrite decide_False by (intros [[_ ?] | [? _]]; congruence). reflexivity.
    * destruct (decide _); reflexivity.
  + rewrite lookup_alter_ne by congruence.
    rewrite decide_False by (intros [[? _] | [? _]]; congruence). reflexivity.
Qed.

Lemma symmetric_add_node (g : graph) (x : Z) :
symmetric_ports g -> symmetric_ports (add_node g x).
Proof.
intros Hs u v. rewrite !edge_port_add_node. apply Hs.
Qed.

Lemma symmetric_add_edge (g : graph) (a b port : Z) :
symmetric_ports g -> symmetric_ports (add_edge g a b port).
Proof.
intros Hs u v. rewrite !edge_port_add_edge.
destruct (decide ((u = a /\ v = b) \/ (u = b /\ v = a))) as [H | H].
- rewrite decide_True by tauto. reflexivity.
- rewrite decide_False by tauto. apply Hs.
Qed.

Lemma symmetric_remove_edge (g g' : graph) (a b : Z) :
symmetric_ports g -> remove_edge g a b = Returned g' -> symmetric_ports g'.
Proof.
intros Hs Hr u v. rewrite !(edge_port_remove_edge g g' a b _ _ Hr).
destruct (decide ((u = a /\ v = b) \/ (u = b /\ v = a))) as [H | H].
- rewrite decide_True by tauto. reflexivity.
- rewrite decide_False by tauto. apply Hs.
Qed.



(** *** What the handlers keep true *)

Lemma sound_flow_steps (st st' : controller) :
flow_steps st st' -> sound st -> sound st'.
Proof.
intros Hsteps (Hb & Hg & Hd).
destruct (flow_steps_frame st st' Hsteps) as (Eg & Ed & _).
split; [exact (flow_steps_bookkeeping st st' Hsteps Hb) |].
rewrite Eg, Ed. split; assumption.
Qed.

Lemma sound_set_topology_graph (st : controller) (g : graph) :
sound st -> symmetric_ports g -> sound (set_topology_graph st g).
Proof.
intros (Hb & _ & Hd) Hg. split; [exact Hb |]. split; [exact Hg | exact Hd].
Qed.

Lemma sound_learn_mac (st : controller) (ev : packet_in) :
sound st -> sound (learn_mac st ev).
Proof.
intros (Hb & Hg & Hd). split; [exact Hb |]. split; [exact Hg | exact Hd].
Qed.

Lemma add_node_keeps_nodes (g : graph) (x u : Z) :
is_Some (g !! u) -> is_Some (add_node g x !! u).
Proof.
intros Hu. unfold add_node, graph in *. destruct (g !! x) eqn:E; [exact Hu |].
destruct (decide (x = u)) as [-> | Hne].
- rewrite lookup_insert_eq. eauto.
- rewrite lookup_insert_ne by exact Hne. exact Hu.
Qed.

(** The registration loops change the graph and the registries only. *)
Lemma register_switches_core (entries : list (string * switch_entry)) (s : app) :
exists g, core (foldl register_switch s entries) = set_topology_graph (core s) g
          /\ (symmetric_ports (topology_graph (core s)) -> symmetric_ports g)
          /\ (forall u, is_Some (topology_graph (core s) !! u) -> is_Some (g !! u)).
Proof.
revert s. induction entries as [| e rest IH]; intros s.
- exists (topology_graph (core s)). split; [destruct s as [[] ? ?]; reflexivity |].
  split; auto.
- cbn [foldl]. destruct (IH (register_switch s e)) as (g & Hcore & Hsym & Hn).
  exists g. split; [rewrite Hcore; reflexivity |]. split.
  + intros Hs. apply Hsym. cbn. apply symmetric_add_node, Hs.
  + intros u Hu. apply Hn. cbn. apply add_node_keeps_nodes, Hu.
Qed.

Lemma add_edge_keeps_nodes (g : graph) (a b port u : Z) :
is_Some (g !! u) -> is_Some (add_edge g a b port !! u).
Proof.
intros Hu. unfold add_edge, graph in *. cbv zeta.
destruct (decide (b = u)) as [-> | Hb]; [rewrite lookup_insert_eq; eauto |].
rewrite lookup_insert_ne by exact Hb.
destruct (decide (a = u)) as [-> | Ha]; [rewrite lookup_insert_eq; eauto |].
rewrite lookup_insert_ne by exact Ha. exact Hu.
Qed.

Lemma register_link_core (ti : topology_info) (s s' : app) (link : link_entry) :
register_link ti s link = Returned s' ->
exists g, core s' = set_topology_graph (core s) g
          /\ (symmetric_ports (topology_graph (core s)) -> symmetric_ports g)
          /\ (forall u, is_Some (topology_graph (core s) !! u) -> is_Some (g !! u)).
Proof.
unfold register_link.
assert (Hid : exists g, core s = set_topology_graph (core s) g
          /\ (symmetric_ports (topology_graph (core s)) -> symmetric_ports g)
          /\ (forall u, is_Some (topology_graph (core s) !! u) -> is_Some (g !! u))).
{ exists (topology_graph (core s)). split; [destruct s as [[] ? ?]; reflexivity |].
  split; auto. }
destruct (_ && _).
- destruct (dict_get (link_src link) (ti_switches ti)) as [a |]; [| discriminate].
  destruct (dict_get (link_dst link) (ti_switches ti)) as [b |]; [| discriminate].
  intros [= <-]. eexists. split; [reflexivity |]. split.
  + apply symmetric_add_edge.
  + intros u. apply add_edge_keeps_nodes.
- destruct (String.prefix "h" (link_src link)).
  + destruct (dict_get (link_src link) (ti_hosts ti)) as [h |]; [| discriminate].
    destruct (dict_get (link_dst link) (ti_switches ti)) as [sw |]; [| discriminate].
    intros [= <-]. exact Hid.
  + intros [= <-]. exact Hid.
Qed.

Lemma register_links_core (ti : topology_info) (links : list link_entry) (s : app) :
exists g, core (register_links ti s links) = set_topology_graph (core s) g
          /\ (symmetric_ports (topology_graph (core s)) -> symmetric_ports g)
          /\ (forall u, is_Some (topology_graph (core s) !! u) -> is_Some (g !! u)).
Proof.
revert s. induction links as [| link rest IH]; intros s.
- exists (topology_graph (core s)). split; [destruct s as [[] ? ?]; reflexivity |].
  split; auto.
- cbn [register_links]. destruct (register_link ti s link) as [s' |] eqn:E.
  + destruct (register_link_core ti s s' link E) as (g1 & Hc1 & Hs1 & Hn1).
    destruct (IH s') as (g & Hc & Hs & Hn).
    exists g. split; [rewrite Hc, Hc1; reflexivity |].
    rewrite Hc1 in Hs, Hn. cbn in Hs, Hn. split; auto.
  + exists (topology_graph (core s)). split; [destruct s as [[] ? ?]; reflexivity |].
    split; auto.
Qed.

Lemma switch_features_handler_sound (s : app) (descriptor : option topology_info)
  (dp : datapath) :
sound (core s) -> sound (core (switch_features_handler s descriptor dp)).
Proof.
intros (Hb & Hg & Hd). unfold ControllerEvents.switch_features_handler.
set (st0 := set_datapaths (core s) (<[dp_id dp := dp]> (datapaths (core s)))).
assert (H0 : sound st0).
{ split; [exact Hb |]. split; [exact Hg |].
  intros k dp' Hk. cbn in Hk.
  destruct (decide (dp_id dp = k)) as [<- | Hne].
  - rewrite lookup_insert_eq in Hk. congruence.
  - rewrite lookup_insert_ne in Hk by exact Hne. exact (Hd k dp' Hk). }
match goal with
| |- context [with_core s ?st2] => set (st := st2)
end.
assert (H2 : sound st).
{ subst st. eapply sound_flow_steps; [| exact H0].
  apply flow_steps_add, flow_steps_add, flow_steps_refl. }
destruct descriptor as [ti |]; [| exact H2].
destruct (register_switches_core (ti_switches ti) (with_core s st))
  as (g1 & Hc1 & Hs1 & _).
destruct (register_links_core ti (ti_links ti)
            (foldl register_switch (with_core s st) (ti_switches ti)))
  as (g & Hc & Hs & _).
rewrite Hc, Hc1. cbn [with_core core] in *.
apply (sound_set_topology_graph st g H2).
apply Hs. rewrite Hc1. cbn. apply Hs1. destruct H2 as (_ & H2 & _). exact H2.
Qed.

Lemma drop_port_edges_sound (neighbors : list Z) (st : controller)
  (envs : nat -> nat -> environment) (call : nat) (dpid port_no : Z) :
sound st -> sound (drop_port_edges st envs call dpid port_no neighbors).
Proof.
revert st call. induction neighbors as [| nb rest IH]; intros st call Hs; [exact Hs |].
cbn [ControllerEvents.drop_port_edges].
destruct (edge_port (topology_graph st) dpid nb) as [port |]; [| exact Hs].
destruct (port =? port_no)%Z; [| apply IH, Hs].
destruct (remove_edge (topology_graph st) dpid nb) as [g |] eqn:E; [| exact Hs].
assert (Hg : sound (set_topology_graph st g)).
{ apply sound_set_topology_graph; [exact Hs |].
  destruct Hs as (_ & Hsym & _). exact (symmetric_remove_edge _ _ _ _ Hsym E). }
pose proof (reroute_loop_steps
              (map (fun f => (fr_src_ip f, fr_dst_ip f))
                   (filter (fun f => fr_dpid f = dpid)
                           (flow_log (set_topology_graph st g))))
              (set_topology_graph st g) (envs call) 0) as Hr.
unfold Controller._reroute_affected_flows.
destruct (reroute_loop _ _ _ _) as [st' [u |]]; cbn [fst] in Hr.
- apply IH. exact (sound_flow_steps _ _ Hr Hg).
- exact (sound_flow_steps _ _ Hr Hg).
Qed.

Lemma port_status_handler_sound (st : controller) (envs : nat -> nat -> environment)
  (order : list Z) (dpid port_no reason : Z) :
sound st -> sound (port_status_handler st envs order dpid port_no reason).
Proof.
intros Hs. unfold ControllerEvents.port_status_handler.
destruct (_ || _); [| exact Hs].
destruct (topology_graph st !! dpid); [| exact Hs].
apply drop_port_edges_sound, Hs.
Qed.

Lemma running_sound (s : app) : running s -> sound (core s).
Proof.
induction 1 as [| s descriptor dp _ IH | s envs order dpid port_no reason _ IH _
                | s env ev _ IH | s env req _ IH | s req _ IH].
- split; [| split].
  + split; [apply NoDup_nil_2 |]. repeat split.
  + intros u v. reflexivity.
  + intros k dp Hk. cbn in Hk. rewrite lookup_empty in Hk. discriminate.
- apply switch_features_handler_sound, IH.
- cbn [with_core core]. apply port_status_handler_sound, IH.
- cbn [with_core core].
  destruct (packet_in_handler_steps (core s) env ev) as [-> | Hsteps]; [exact IH |].
  exact (sound_flow_steps _ _ Hsteps (sound_learn_mac _ ev IH)).
- cbn [with_core core].
  exact (sound_flow_steps _ _ (force_path_installation_steps (core s) env req) IH).
- cbn [with_core core].
  exact (sound_flow_steps _ _ (force_sp_path_installation_steps (core s) req) IH).
Qed.



(** X11. In every state of the running controller the flow statistics
    agree with what has been sent: no two flow-mods sent have the same
    (dpid, match, actions) key, the recorded keys are exactly those of
    the flow-mods sent, the flow log has one record per flow-mod, in
    order, and the flow counter is the length of the log. *)
Theorem running_flow_statistics_agree (s : app) :
running s ->
let st := core s in
NoDup (omap flow_key (sent st))
/\ (forall k, k ∈ existing_flows st <-> k ∈ omap flow_key (sent st))
/\ flow_log st = omap flow_record_of (sent st)
/\ flow_count st = Z.of_nat (length (flow_log st)).
Proof.
intros Hrun. destruct (running_sound s Hrun) as ((Hnd & Hkeys & Hlog & Hcount) & _).
split; [exact Hnd |]. split; [| split; assumption].
intros k. rewrite Hkeys. apply elem_of_list_to_set.
Qed.

(** X12. In every state of the running controller the port recorded for
    an edge is the same from both ends: the graph gives the hop from [v]
    to [u] the port that the descriptor listed for the link from [u] to
    [v]. *)
Theorem running_edge_ports_symmetric (s : app) (u v : Z) :
running s ->
edge_port (topology_graph (core s)) u v = edge_port (topology_graph (core s)) v u.
Proof.
intros Hrun. destruct (running_sound s Hrun) as (_ & Hsym & _). apply Hsym.
Qed.

Lemma as_dpid_node (z : Z) : as_dpid (JNum (inject_Z z)) = Returned (Some z).
Proof.
unfold as_dpid. rewrite Qfloor_Z.
assert (H : Qeq_bool (inject_Z z) (inject_Z z) = true) by (apply Qeq_bool_iff; reflexivity).
rewrite H. reflexivity.
Qed.

Lemma install_hop_messages (st : controller) (a b src_ip dst_ip : json) :
exists new,
  sent (fst (install_hop st a b src_ip dst_ip)) = (sent st ++ new)%list
  /\ length new <= 1
  /\ Forall (path_flow_mod st src_ip dst_ip) new.
Proof.
assert (Hnone : exists new, sent st = (sent st ++ new)%list /\ length new <= 1
                            /\ Forall (path_flow_mod st src_ip dst_ip) new).
{ exists []. split; [symmetry; apply app_nil_r |]. split; [cbn; lia | constructor]. }
unfold Controller.install_hop.
destruct (as_dpid a) as [[u |] |]; try exact Hnone.
destruct (datapaths st !! u) as [dp |] eqn:Edp; [| exact Hnone].
destruct (topology_graph st !! u) as [nb |] eqn:Enb; [| exact Hnone].
destruct (as_dpid b) as [[v |] |]; try exact Hnone.
destruct (nb !! v) as [port |] eqn:Ep; [| exact Hnone].
cbn [fst]. unfold Controller.add_flow. destruct (decide _); [exact Hnone |].
cbn [sent]. eexists. split; [reflexivity |]. split; [cbn; lia |].
constructor; [| constructor].
exists u, v, dp, port. split; [exact Edp |]. split; [| reflexivity].
unfold edge_port. rewrite Enb. exact Ep.
Qed.

Lemma install_hop_nodes (st : controller) (u v : Z) (src_ip dst_ip : json) :
snd (install_hop st (JNum (inject_Z u)) (JNum (inject_Z v)) src_ip dst_ip)
= Returned tt.
Proof.
unfold Controller.install_hop. rewrite !as_dpid_node.
destruct (datapaths st !! u); [| reflexivity].
destruct (topology_graph st !! u) as [nb |]; [| reflexivity].
destruct (nb !! v); reflexivity.
Qed.

Lemma path_flow_mod_frame (st st' : controller) (src_ip dst_ip : json) (m : message) :
flow_steps st st' -> path_flow_mod st' src_ip dst_ip m -> path_flow_mod st src_ip dst_ip m.
Proof.
intros Hsteps (u & v & dp & port & Hdp & Hport & Hm).
destruct (flow_steps_frame st st' Hsteps) as (Eg & Ed & _).
exists u, v, dp, port. rewrite <- Ed, <- Eg. auto.
Qed.

Lemma install_hops_messages (items : list json) (st : controller)
  (src_ip dst_ip : json) :
exists new,
  sent (fst (install_hops st items src_ip dst_ip)) = (sent st ++ new)%list
  /\ length new <= length items - 1
  /\ Forall (path_flow_mod st src_ip dst_ip) new.
Proof.
revert st. induction items as [| a rest IH]; intros st.
- exists []. split; [symmetry; apply app_nil_r |]. split; [cbn; lia | constructor].
- destruct rest as [| b rest'].
  + exists []. split; [symmetry; apply app_nil_r |]. split; [cbn; lia | constructor].
  + cbn [Controller.install_hops].
    destruct (install_hop_messages st a b src_ip dst_ip) as (new1 & Hs1 & Hl1 & Hf1).
    pose proof (install_hop_steps st a b src_ip dst_ip) as Hsteps.
    destruct (install_hop st a b src_ip dst_ip) as [st' [u |]]; cbn [fst] in *.
    * destruct (IH st') as (new2 & Hs2 & Hl2 & Hf2).
      exists (new1 ++ new2)%list.
      split; [transitivity (sent st' ++ new2)%list;
              [exact Hs2 | rewrite Hs1, app_assoc; reflexivity] |].
      split; [rewrite length_app; cbn [length] in *; lia |].
      apply Forall_app. split; [exact Hf1 |].
      eapply Forall_impl; [exact Hf2 |]. intros m. apply path_flow_mod_frame, Hsteps.
    * exists new1. split; [exact Hs1 |]. split; [cbn [length]; lia | exact Hf1].
Qed.

Lemma install_hops_nodes (p : list Z) (st : controller) (src_ip dst_ip : json) :
snd (install_hops st (map (fun z => JNum (inject_Z z)) p) src_ip dst_ip) = Returned tt.
Proof.
revert st. induction p as [| u rest IH]; intros st; [reflexivity |].
destruct rest as [| v rest']; [reflexivity |].
cbn [map Controller.install_hops].
pose proof (install_hop_nodes st u v src_ip dst_ip) as Hh.
destruct (install_hop st (JNum (inject_Z u)) (JNum (inject_Z v)) src_ip dst_ip)
  as [st' o]. cbn [snd] in Hh. subst o. apply (IH st').
Qed.

(** X13. [_install_path_flows] only adds flow-mods to what has been
    sent, each of priority 10 with the TCP match on the two addresses,
    for a registered switch and towards the port of one of its edges in
    the graph; on a list of switch ids it never raises and sends at most
    one flow-mod per hop. *)
Theorem install_path_flows_follow_graph (st : controller) (src_ip dst_ip : json) :
(forall path,
    exists new,
      sent (fst (_install_path_flows st path src_ip dst_ip)) = (sent st ++ new)%list
      /\ Forall (path_flow_mod st src_ip dst_ip) new)
/\ (forall p,
       snd (_install_path_flows st (path_of_nodes p) src_ip dst_ip) = Returned tt
       /\ exists new,
            sent (fst (_install_path_flows st (path_of_nodes p) src_ip dst_ip))
            = (sent st ++ new)%list
            /\ length new <= length p - 1).
Proof.
split.
- intros path. unfold Controller._install_path_flows.
  destruct (path_elements path) as [items |].
  + destruct (install_hops_messages items st src_ip dst_ip) as (new & Hs & _ & Hf).
    eauto.
  + exists []. split; [symmetry; apply app_nil_r | constructor].
- intros p. unfold Controller._install_path_flows, path_of_nodes.
  cbn [path_elements]. split; [apply install_hops_nodes |].
  destruct (install_hops_messages (map (fun z => JNum (inject_Z z)) p) st src_ip dst_ip)
    as (new & Hs & Hl & _).
  exists new. split; [exact Hs |]. rewrite length_map in Hl. exact Hl.
Qed.

Lemma add_flow_known (st : controller) (dp : datapath) (priority : Z)
  (m : ofp_match) (actions : list action) (idle hard : Z) :
(dp_id dp, str_match m, str_actions actions) ∈ existing_flows st ->
add_flow st dp priority m actions idle hard = st.
Proof.
intros Hin. unfold Controller.add_flow. rewrite decide_True by exact Hin. reflexivity.
Qed.

Lemma add_flow_records_key (st : controller) (dp : datapath) (priority : Z)
  (m : ofp_match) (actions : list action) (idle hard : Z) :
(dp_id dp, str_match m, str_actions actions)
  ∈ existing_flows (add_flow st dp priority m actions idle hard)
/\ (forall k, k ∈ existing_flows st ->
              k ∈ existing_flows (add_flow st dp priority m actions idle hard)).
Proof.
unfold Controller.add_flow. destruct (decide _) as [Hin | Hnew]; [auto |].
cbn [existing_flows]. split.
- apply elem_of_union_l, elem_of_singleton. reflexivity.
- intros k Hk. apply elem_of_union_r, Hk.
Qed.

(** X14. A switch that connects a second time is sent nothing: the
    table-miss and ARP flows of its first connection are taken for
    installed, whatever the descriptor holds by then. *)
Theorem switch_reconnect_sends_nothing (s : app)
  (descriptor descriptor' : option topology_info) (dp : datapath) :
let s1 := switch_features_handler s descriptor dp in
let s2 := switch_features_handler s1 descriptor' dp in
sent (core s2) = sent (core s1)
/\ flow_count (core s2) = flow_count (core s1)
/\ flow_log (core s2) = flow_log (core s1).
Proof.
assert (Hcore : forall s0 d,
          exists g st2,
            core (switch_features_handler s0 d dp) = set_topology_graph st2 g
            /\ st2 = add_flow
                       (add_flow (set_datapaths (core s0)
                                    (<[dp_id dp := dp]> (datapaths (core s0))))
                                 dp 0 [] [OFPActionOutput OFPP_CONTROLLER
                                                          (Some OFPCML_NO_BUFFER)] 0 0)
                       dp 5 [("eth_type", JNum (inject_Z 0x0806))]
                       [OFPActionOutput OFPP_FLOOD None] 120 300).
{ intros s0 d. unfold ControllerEvents.switch_features_handler.
  match goal with
  | |- context [with_core s0 ?x] => set (st2 := x)
  end.
  destruct d as [ti |].
  - destruct (register_switches_core (ti_switches ti) (with_core s0 st2))
      as (g1 & Hc1 & _).
    destruct (register_links_core ti (ti_links ti)
                (foldl register_switch (with_core s0 st2) (ti_switches ti)))
      as (g & Hc & _).
    exists g, st2. split; [rewrite Hc, Hc1; reflexivity | reflexivity].
  - exists (topology_graph st2), st2. split; [destruct st2; reflexivity | reflexivity]. }
intros s1 s2.
destruct (Hcore s descriptor) as (g1 & st1 & Hc1 & Hst1).
destruct (Hcore s1 descriptor') as (g2 & st2 & Hc2 & Hst2).
fold s1 in Hc1. fold s2 in Hc2.
assert (Hsame : st2 = set_datapaths (core s1) (<[dp_id dp := dp]> (datapaths (core s1)))).
{ rewrite Hst2.
  set (k0 := (dp_id dp, str_match [],
              str_actions [OFPActionOutput OFPP_CONTROLLER (Some OFPCML_NO_BUFFER)])).
  set (k5 := (dp_id dp, str_match [("eth_type", JNum (inject_Z 2054))],
              str_actions [OFPActionOutput OFPP_FLOOD None])).
  assert (Hk : k0 ∈ existing_flows (core s1) /\ k5 ∈ existing_flows (core s1)).
  { rewrite Hc1, Hst1. cbn [set_topology_graph existing_flows]. split.
    - apply (proj2 (add_flow_records_key _ _ _ _ _ _ _)).
      apply (proj1 (add_flow_records_key _ _ _ _ _ _ _)).
    - apply (proj1 (add_flow_records_key _ _ _ _ _ _ _)). }
  destruct Hk as [Hk0 Hk5].
  rewrite (add_flow_known (set_datapaths (core s1) _)) by exact Hk0.
  rewrite add_flow_known by exact Hk5. reflexivity. }
rewrite Hc2, Hsame. repeat split.
Qed.



(** X15. POST /force_sp_path with the two addresses and a path leaves
    the controller in the state that POST /force_path leaves for the
    same body once the topology is up and both addresses resolve, and
    succeeds exactly when that one does; without a path it answers 400
    and changes nothing. *)
Theorem force_sp_path_matches_force_path (st : controller) (env : environment)
  (data : list (string * json)) :
(forall src_ip dst_ip path sd,
    dict_get "src_ip" data = Some src_ip -> dict_get "dst_ip" data = Some dst_ip ->
    dict_get "path" data = Some path ->
    truthy src_ip = true -> truthy dst_ip = true -> truthy path = true ->
    nodes (topology_graph st) <> [] ->
    both_switches (_get_switch_for_ip (env_descriptor env) src_ip)
                  (_get_switch_for_ip (env_descriptor env) dst_ip) = Some sd ->
    fst (force_sp_path_installation st (Some (JObj data)))
    = fst (force_path_installation st env (Some (JObj data)))
    /\ (snd (force_sp_path_installation st (Some (JObj data))) = SpSuccess path
        <-> snd (force_path_installation st env (Some (JObj data))) = ApiSuccess path))
/\ (dict_get "path" data = None ->
    force_sp_path_installation st (Some (JObj data)) = (st, Sp400)).
Proof.
split.
- intros src_ip dst_ip path [sw_s sw_d] Hs Hd Hp Hts Htd Htp Hnodes Hboth.
  unfold ControllerEvents.force_sp_path_installation, Controller.force_path_installation.
  rewrite Hs, Hd, Hp. cbn [default from_option id].
  rewrite Hts, Htd, Htp. cbn [negb orb].
  destruct (nodes (topology_graph st)) as [| n ns]; [contradiction |].
  rewrite Hboth, Htp.
  destruct (_install_path_flows st path src_ip dst_ip) as [st' [u |]]; cbn [fst snd].
  + split; [reflexivity |]. split; reflexivity.
  + split; [reflexivity |]. split; discriminate.
- intros Hp. unfold ControllerEvents.force_sp_path_installation.
  rewrite Hp. cbn [default from_option id truthy negb].
  rewrite !orb_true_r. reflexivity.
Qed.

Lemma unknown_address_unresolved (descriptor : option topology_info) (ip : string) :
no_host_at ip descriptor = true -> _get_switch_for_ip descriptor (JStr ip) = None.
Proof.
destruct descriptor as [ti |]; [| reflexivity].
cbn [no_host_at _get_switch_for_ip]. intros Hall.
assert (Hfind : find (fun h : string * host_entry => ip_matches (host_ip h.2) (JStr ip))
                     (ti_hosts ti) = None).
{ induction (ti_hosts ti) as [| h rest IH]; [reflexivity |].
  cbn [forallb] in Hall. apply andb_true_iff in Hall as [Hh Hrest].
  cbn [find ip_matches]. apply negb_true_iff in Hh. rewrite Hh. apply IH, Hrest. }
rewrite Hfind. reflexivity.
Qed.

Lemma route_flow_unresolved (st : controller) (env : environment) (src_ip dst_ip : json) :
_get_switch_for_ip (env_descriptor env) src_ip = None
\/ _get_switch_for_ip (env_descriptor env) dst_ip = None ->
route_flow st env src_ip dst_ip = (st, Returned tt).
Proof.
intros H. unfold Controller.route_flow.
destruct H as [-> | ->]; [reflexivity |].
destruct (_get_switch_for_ip (env_descriptor env) src_ip); reflexivity.
Qed.

(** X16. Rerouting after a port change skips every recorded flow that
    has no source or no destination address (the table-miss and ARP
    flows): when the switch has no other flows, nothing is sent and the
    controller is unchanged. *)
Theorem reroute_skips_flows_without_addresses (st : controller)
  (envs : nat -> environment) (dpid port_no : Z) :
(forall i, no_host_at "unknown" (env_descriptor (envs i)) = true) ->
Forall (fun f => fr_dpid f = dpid ->
                 fr_src_ip f = JStr "unknown" \/ fr_dst_ip f = JStr "unknown")
       (flow_log st) ->
_reroute_affected_flows st envs dpid port_no = (st, Returned tt).
Proof.
intros Henv Hlog. unfold Controller._reroute_affected_flows.
generalize 0%nat. induction (flow_log st) as [| f rest IH]; intros i; [reflexivity |].
apply Forall_cons in Hlog as [Hf Hrest].
destruct (decide (fr_dpid f = dpid)) as [Heq | Hne].
- rewrite filter_cons_True by exact Heq. cbn [map Controller.reroute_loop].
  rewrite route_flow_unresolved; [apply IH, Hrest |].
  destruct (Hf Heq) as [-> | ->]; [left | right];
    apply unknown_address_unresolved, Henv.
- rewrite filter_cons_False by exact Hne. apply IH, Hrest.
Qed.

Lemma packet_in_handler_sends (st : controller) (env : environment) (ev : packet_in) :
(pi_ethertype ev =? 0x0806)%Z = false ->
flow_steps (learn_mac st ev) (fst (packet_in_handler st env ev))
/\ (snd (packet_in_handler st env ev) = Returned tt ->
    last (sent (fst (packet_in_handler st env ev)))
    = Some (packet_out ev (learned_out_port (learn_mac st ev) ev))).
Proof.
intros Harp. unfold Controller.packet_in_handler. rewrite Harp. cbv zeta.
set (st1 := learn_mac st ev). set (out := learned_out_port st1 ev).
assert (Hlast : forall st2, last (sent (send_msg st2 (packet_out ev out)))
                            = Some (packet_out ev out)).
{ intros st2. cbn [send_msg sent]. apply last_snoc. }
destruct (out =? OFPP_FLOOD)%Z.
- cbn [fst snd]. split; [apply flow_steps_send, flow_steps_refl | intros _; apply Hlast].
- destruct (pi_ipv4 ev) as [[src_ip dst_ip] |].
  + pose proof (route_flow_steps st1 env (JStr src_ip) (JStr dst_ip)) as Hr.
    destruct (route_flow st1 env (JStr src_ip) (JStr dst_ip)) as [st2 [u |]];
      cbn [fst snd] in *.
    * split; [apply flow_steps_send, Hr | intros _; apply Hlast].
    * split; [exact Hr | discriminate].
  + cbn [fst snd]. split; [apply flow_steps_send, flow_steps_refl | intros _; apply Hlast].
Qed.

(** X17. MAC learning: after a non-ARP packet from address [a] has been
    seen on a switch, a later non-ARP packet on that switch addressed to
    [a] from another address is sent out through the port on which [a]
    was seen (when its handling does not raise). *)
Theorem packet_in_learns_then_forwards (st : controller) (env env' : environment)
  (ev ev' : packet_in) :
(pi_ethertype ev =? 0x0806)%Z = false ->
(pi_ethertype ev' =? 0x0806)%Z = false ->
dp_id (pi_datapath ev') = dp_id (pi_datapath ev) ->
pi_eth_dst ev' = pi_eth_src ev ->
pi_eth_src ev' <> pi_eth_src ev ->
let st1 := fst (packet_in_handler st env ev) in
snd (packet_in_handler st1 env' ev') = Returned tt ->
last (sent (fst (packet_in_handler st1 env' ev')))
= Some (packet_out ev' (pi_in_port ev)).
Proof.
intros Harp Harp' Hdp Hdst Hsrc st1 Hret.
destruct (packet_in_handler_sends st env ev Harp) as [Hsteps _].
destruct (flow_steps_frame _ _ Hsteps) as (_ & _ & Hmac & _). fold st1 in Hmac.
destruct (packet_in_handler_sends st1 env' ev' Harp') as [_ Hlast].
rewrite (Hlast Hret). f_equal.
unfold learned_out_port, learn_mac. cbn [set_mac_to_port mac_to_port].
rewrite lookup_insert_eq. cbn [default from_option id].
rewrite Hdst, lookup_insert_ne by exact Hsrc.
rewrite Hmac, Hdp. unfold learn_mac. cbn [set_mac_to_port mac_to_port].
rewrite lookup_insert_eq. cbn [default from_option id].
rewrite lookup_insert_eq. reflexivity.
Qed.



(** One pass of the port-status loop: edges are only removed, and only
    edges at [dpid] whose port is [port_no]. *)
Lemma drop_port_edges_graph (neighbors : list Z) (st : controller)
  (envs : nat -> nat -> environment) (call : nat) (dpid port_no : Z) :
symmetric_ports (topology_graph st) ->
let g := topology_graph st in
let g' := topology_graph (drop_port_edges st envs call dpid port_no neighbors) in
(forall u v, edge_port g' u v = edge_port g u v
             \/ (edge_port g' u v = None /\ edge_port g u v = Some port_no
                 /\ (u = dpid \/ v = dpid)))
/\ (forall u, is_Some (g !! u) -> is_Some (g' !! u))
/\ datapaths (drop_port_edges st envs call dpid port_no neighbors) = datapaths st.
Proof.
revert st call. induction neighbors as [| nb rest IH]; intros st call Hsym;
  [split; [left; reflexivity | split; [auto | reflexivity]] |].
cbn [ControllerEvents.drop_port_edges].
assert (Hid : (forall u v, edge_port (topology_graph st) u v = edge_port (topology_graph st) u v
             \/ (edge_port (topology_graph st) u v = None
                 /\ edge_port (topology_graph st) u v = Some port_no
                 /\ (u = dpid \/ v = dpid)))
        /\ (forall u, is_Some (topology_graph st !! u) -> is_Some (topology_graph st !! u))
        /\ datapaths st = datapaths st)
  by (split; [left; reflexivity | split; [auto | reflexivity]]).
destruct (edge_port (topology_graph st) dpid nb) as [port |] eqn:Eport; [| exact Hid].
destruct (Z.eqb_spec port port_no) as [-> | Hne]; [| apply IH, Hsym].
destruct (remove_edge (topology_graph st) dpid nb) as [g1 |] eqn:E; [| exact Hid].
assert (Hsym1 : symmetric_ports g1) by exact (symmetric_remove_edge _ _ _ _ Hsym E).
assert (H1 : forall u v, edge_port g1 u v = edge_port (topology_graph st) u v
             \/ (edge_port g1 u v = None /\ edge_port (topology_graph st) u v = Some port_no
                 /\ (u = dpid \/ v = dpid))).
{ intros u v. rewrite (edge_port_remove_edge _ _ _ _ u v E).
  destruct (decide _) as [[[-> ->] | [-> ->]] | _]; [right | right | left; reflexivity].
  - split; [reflexivity |]. split; [exact Eport | left; reflexivity].
  - split; [reflexivity |]. split; [rewrite Hsym; exact Eport | right; reflexivity]. }
assert (Hn1 : forall u, is_Some (topology_graph st !! u) -> is_Some (g1 !! u)).
{ intros u Hu. unfold remove_edge in E.
  destruct (adjacent (topology_graph st) dpid nb); [| discriminate].
  injection E as <-. unfold graph in *.
  destruct Hu as [x Hx].
  destruct (decide (nb = u)) as [-> | Hnb].
  - rewrite lookup_alter_eq.
    destruct (decide (dpid = u)) as [-> | Hd].
    + rewrite lookup_alter_eq, Hx. cbn. eauto.
    + rewrite lookup_alter_ne by exact Hd. rewrite Hx. cbn. eauto.
  - rewrite lookup_alter_ne by exact Hnb.
    destruct (decide (dpid = u)) as [-> | Hd].
    + rewrite lookup_alter_eq, Hx. cbn. eauto.
    + rewrite lookup_alter_ne by exact Hd. eauto. }
pose proof (reroute_loop_steps
              (map (fun f => (fr_src_ip f, fr_dst_ip f))
                   (filter (fun f => fr_dpid f = dpid)
                           (flow_log (set_topology_graph st g1))))
              (set_topology_graph st g1) (envs call) 0) as Hr.
unfold Controller._reroute_affected_flows.
destruct (reroute_loop _ _ _ _) as [st' [u |]]; cbn [fst] in Hr;
  destruct (flow_steps_frame _ _ Hr) as (Eg & Ed & _);
  cbn [set_topology_graph topology_graph datapaths] in Eg, Ed.
- assert (Hsym' : symmetric_ports (topology_graph st')) by (rewrite Eg; exact Hsym1).
  destruct (IH st' (S call) Hsym') as (He & Hn & Hd). rewrite Eg in He, Hn.
  split; [| split].
  + intros a b. destruct (He a b) as [He1 | (He1 & He2 & He3)].
    * rewrite He1. apply H1.
    * right. split; [exact He1 |]. split; [| exact He3].
      destruct (H1 a b) as [H | (H & _)]; congruence.
  + intros a Ha. apply Hn, Hn1, Ha.
  + rewrite Hd. exact Ed.
- rewrite Eg. split; [exact H1 |]. split; [exact Hn1 | exact Ed].
Qed.

(** X18. A port-status event never adds an edge or changes a port: each
    edge is as before, or has been removed, and then it is an edge at
    the reporting switch whose recorded port is the reported one; no
    node or datapath is removed, and for a reason other than DELETE or
    MODIFY the controller is unchanged. *)
Theorem port_status_only_removes_edges_of_port (s : app)
  (envs : nat -> nat -> environment) (order : list Z) (dpid port_no reason : Z) :
running s ->
let g := topology_graph (core s) in
let st' := port_status_handler (core s) envs order dpid port_no reason in
(forall u v, edge_port (topology_graph st') u v = edge_port g u v
             \/ (edge_port (topology_graph st') u v = None
                 /\ edge_port g u v = Some port_no /\ (u = dpid \/ v = dpid)))
/\ (forall u, is_Some (g !! u) -> is_Some (topology_graph st' !! u))
/\ datapaths st' = datapaths (core s)
/\ (reason <> OFPPR_DELETE -> reason <> OFPPR_MODIFY -> st' = core s).
Proof.
intros Hrun g st'. destruct (running_sound s Hrun) as (_ & Hsym & _).
assert (Hid : (forall u v, edge_port g u v = edge_port g u v
             \/ (edge_port g u v = None /\ edge_port g u v = Some port_no
                 /\ (u = dpid \/ v = dpid)))
        /\ (forall u, is_Some (g !! u) -> is_Some (g !! u))
        /\ datapaths (core s) = datapaths (core s))
  by (split; [left; reflexivity | split; [auto | reflexivity]]).
subst st'. unfold ControllerEvents.port_status_handler.
destruct (Z.eqb_spec reason OFPPR_DELETE) as [Hdel | Hdel];
  [| destruct (Z.eqb_spec reason OFPPR_MODIFY) as [Hmod | Hmod]]; cbn [orb].
- destruct (topology_graph (core s) !! dpid).
  + destruct (drop_port_edges_graph order (core s) envs 0 dpid port_no Hsym)
      as (He & Hn & Hd).
    split; [exact He |]. split; [exact Hn |]. split; [exact Hd | intros; contradiction].
  + destruct Hid as (He & Hn & Hd).
    split; [exact He |]. split; [exact Hn |]. split; [exact Hd | reflexivity].
- destruct (topology_graph (core s) !! dpid).
  + destruct (drop_port_edges_graph order (core s) envs 0 dpid port_no Hsym)
      as (He & Hn & Hd).
    split; [exact He |]. split; [exact Hn |]. split; [exact Hd | intros; contradiction].
  + destruct Hid as (He & Hn & Hd).
    split; [exact He |]. split; [exact Hn |]. split; [exact Hd | reflexivity].
- destruct Hid as (He & Hn & Hd).
  split; [exact He |]. split; [exact Hn |]. split; [exact Hd | reflexivity].
Qed.

Lemma add_node_is_node (g : graph) (x : Z) : is_Some (add_node g x !! x).
Proof.
unfold add_node, graph in *. destruct (g !! x) eqn:E.
- rewrite E. eauto.
- rewrite lookup_insert_eq. eauto.
Qed.

Lemma register_switches_nodes (entries : list (string * switch_entry)) (s : app) :
forall e, e ∈ entries ->
          is_Some (topology_graph (core (foldl register_switch s entries)) !! sw_dpid e.2).
Proof.
revert s. induction entries as [| e0 rest IH]; intros s e He; [inversion He |].
cbn [foldl]. apply elem_of_cons in He as [-> | He]; [| apply IH, He].
destruct (register_switches_core rest (register_switch s e0)) as (g & Hc & _ & Hn).
rewrite Hc. cbn [set_topology_graph topology_graph]. apply Hn.
cbn. apply add_node_is_node.
Qed.

Lemma register_link_resolves (ti : topology_info) (s : app) (link : link_entry) :
link_resolves ti link = true -> exists s', register_link ti s link = Returned s'.
Proof.
unfold link_resolves, register_link.
destruct (_ && _).
- destruct (dict_get (link_src link) (ti_switches ti)); [| discriminate].
  destruct (dict_get (link_dst link) (ti_switches ti)); [eauto | discriminate].
- destruct (String.prefix "h" (link_src link)); [| eauto].
  destruct (dict_get (link_src link) (ti_hosts ti)); [| discriminate].
  destruct (dict_get (link_dst link) (ti_switches ti)); [eauto | discriminate].
Qed.

Lemma register_link_edges (ti : topology_info) (s s' : app) (link : link_entry) :
register_link ti s link = Returned s' ->
(forall u v, is_Some (edge_port (topology_graph (core s)) u v) ->
             is_Some (edge_port (topology_graph (core s')) u v))
/\ (forall a b,
       String.prefix "s" (link_src link) = true ->
       String.prefix "s" (link_dst link) = true ->
       dict_get (link_src link) (ti_switches ti) = Some a ->
       dict_get (link_dst link) (ti_switches ti) = Some b ->
       edge_port (topology_graph (core s')) (sw_dpid a) (sw_dpid b)
       = Some (link_port link)
       /\ edge_port (topology_graph (core s')) (sw_dpid b) (sw_dpid a)
          = Some (link_port link)).
Proof.
unfold register_link.
destruct (String.prefix "s" (link_src link)); cbn [andb];
  [destruct (String.prefix "s" (link_dst link)) |].
- destruct (dict_get (link_src link) (ti_switches ti)) as [a |]; [| discriminate].
  destruct (dict_get (link_dst link) (ti_switches ti)) as [b |]; [| discriminate].
  intros [= <-]. cbn [with_core core set_topology_graph topology_graph]. split.
  + intros u v Huv. rewrite edge_port_add_edge. destruct (decide _); [eauto | exact Huv].
  + intros a' b' _ _ [= <-] [= <-]. rewrite !edge_port_add_edge.
    rewrite !decide_True by auto. split; reflexivity.
- destruct (String.prefix "h" (link_src link)).
  + destruct (dict_get (link_src link) (ti_hosts ti)); [| discriminate].
    destruct (dict_get (link_dst link) (ti_switches ti)); [| discriminate].
    intros [= <-]. split; [auto | discriminate].
  + intros [= <-]. split; [auto | discriminate].
- destruct (String.prefix "h" (link_src link)).
  + destruct (dict_get (link_src link) (ti_hosts ti)); [| discriminate].
    destruct (dict_get (link_dst link) (ti_switches ti)); [| discriminate].
    intros [= <-]. split; [auto | discriminate].
  + intros [= <-]. split; [auto | discriminate].
Qed.

Lemma register_links_edges (ti : topology_info) (links : list link_entry) (s : app) :
forallb (link_resolves ti) links = true ->
(forall u v, is_Some (edge_port (topology_graph (core s)) u v) ->
             is_Some (edge_port (topology_graph (core (register_links ti s links))) u v))
/\ (forall link a b,
       link ∈ links ->
       String.prefix "s" (link_src link) = true ->
       String.prefix "s" (link_dst link) = true ->
       dict_get (link_src link) (ti_switches ti) = Some a ->
       dict_get (link_dst link) (ti_switches ti) = Some b ->
       is_Some (edge_port (topology_graph (core (register_links ti s links)))
                          (sw_dpid a) (sw_dpid b))
       /\ is_Some (edge_port (topology_graph (core (register_links ti s links)))
                             (sw_dpid b) (sw_dpid a))).
Proof.
revert s. induction links as [| l rest IH]; intros s Hall.
- split; [auto | intros link a b Hin; inversion Hin].
- cbn [forallb] in Hall. apply andb_true_iff in Hall as [Hl Hrest].
  cbn [register_links].
  destruct (register_link_resolves ti s l Hl) as [s' Hs']. rewrite Hs'.
  destruct (register_link_edges ti s s' l Hs') as [Hkeep Hnew].
  destruct (IH s' Hrest) as [Hkeep' Hnew'].
  split; [auto |].
  intros link a b Hin Hps Hpd Ha Hb.
  apply elem_of_cons in Hin as [-> | Hin]; [| eauto].
  destruct (Hnew a b Hps Hpd Ha Hb) as [Hab Hba].
  split; apply Hkeep'; [rewrite Hab | rewrite Hba]; eauto.
Qed.

(** X19. When a switch connects and the descriptor can be read, the
    switch's datapath is registered, every switch of the descriptor is a
    node of the graph, and, when all names in the links are listed,
    every switch-to-switch link is an edge, from both ends. *)
Theorem switch_features_registers_descriptor (s : app) (ti : topology_info)
  (dp : datapath) :
let s' := switch_features_handler s (Some ti) dp in
datapaths (core s') !! dp_id dp = Some dp
/\ (forall name sw, (name, sw) ∈ ti_switches ti ->
                    is_Some (topology_graph (core s') !! sw_dpid sw))
/\ (forallb (link_resolves ti) (ti_links ti) = true ->
    forall link a b,
      link ∈ ti_links ti ->
      String.prefix "s" (link_src link) = true ->
      String.prefix "s" (link_dst link) = true ->
      dict_get (link_src link) (ti_switches ti) = Some a ->
      dict_get (link_dst link) (ti_switches ti) = Some b ->
      is_Some (edge_port (topology_graph (core s')) (sw_dpid a) (sw_dpid b))
      /\ is_Some (edge_port (topology_graph (core s')) (sw_dpid b) (sw_dpid a))).
Proof.
intros s'. subst s'. unfold ControllerEvents.switch_features_handler.
match goal with
| |- context [with_core s ?x] => set (st2 := x)
end.
set (s1 := foldl register_switch (with_core s st2) (ti_switches ti)).
destruct (register_switches_core (ti_switches ti) (with_core s st2)) as (g1 & Hc1 & _).
destruct (register_links_core ti (ti_links ti) s1) as (g & Hc & Hsym & Hn).
split; [| split].
- rewrite Hc. fold s1 in Hc1. rewrite Hc1.
  cbn [set_topology_graph datapaths with_core core]. subst st2.
  assert (Hadd : forall st (d : datapath) pr m a i h,
             datapaths (add_flow st d pr m a i h) = datapaths st).
  { intros. unfold Controller.add_flow. destruct (decide _); reflexivity. }
  rewrite !Hadd. cbn [set_datapaths datapaths]. apply lookup_insert_eq.
- intros name sw Hin. rewrite Hc. cbn [set_topology_graph topology_graph]. apply Hn.
  apply (register_switches_nodes (ti_switches ti) (with_core s st2) (name, sw) Hin).
- intros Hall link a b Hin Hps Hpd Ha Hb.
  destruct (register_links_edges ti (ti_links ti) s1 Hall) as [_ Hnew].
  exact (Hnew link a b Hin Hps Hpd Ha Hb).
Qed.



Lemma flow_records_count (l : list message) :
length (omap flow_record_of l) = length (omap flow_key l).
Proof.
induction l as [| m rest IH]; [reflexivity |].
destruct m; cbn; [f_equal |]; exact IH.
Qed.

(** X20. With the agent unreachable, GET /stats of the running
    controller answers with the number of flow-mods sent, twice (the
    counter and the length of the log), the link density and 0 rewards;
    an agent answer without [recent_rewards] gives the 500 answer. *)
Theorem get_stats_without_agent (s : app) :
running s ->
let st := core s in
let n := inject_Z (Z.of_nat (length (omap flow_key (sent st)))) in
(exists density, get_stats st AgentError = Some [n; n; density; 0%Q])
/\ (forall fields, dict_get "recent_rewards" fields = None ->
                   get_stats st (AgentJson (JObj fields)) = None).
Proof.
intros Hrun st n. destruct (running_sound s Hrun) as ((_ & _ & Hlog & Hcount) & _).
fold st in Hlog, Hcount. split.
- unfold ControllerEvents.get_stats, _get_current_network_state.
  cbn [dict_get String.eqb Ascii.eqb Bool.eqb py_len length].
  eexists. rewrite Hcount, Hlog, flow_records_count. reflexivity.
- intros fields Hnone. unfold ControllerEvents.get_stats, _get_current_network_state.
  rewrite Hnone. reflexivity.
Qed.

End ControllerEventProperties.

(** *** Examples *)

Section ControllerEventExamples.

Import Controller ControllerEvents Samples Scenarios.

Lemma two_switch_app_running :
running sample_str_match sample_str_actions sample_str_action one_hop_search
        two_switch_app.
Proof.
unfold two_switch_app, connect_switch.
apply running_switch_features, running_switch_features, running_start.
Defined.

(** X11 after the two switches have connected: four flow-mods, four
    records. *)
Lemma running_flow_statistics_agree_witness :
flow_count (core two_switch_app) = 4%Z
/\ length (flow_log (core two_switch_app)) = 4.
Proof.
destruct (running_flow_statistics_agree sample_str_match sample_str_actions
            sample_str_action one_hop_search two_switch_app two_switch_app_running)
  as (_ & _ & _ & Hcount).
split; [rewrite Hcount |]; vm_compute; reflexivity.
Defined.

(** X12 on the link between the two switches. *)
Lemma running_edge_ports_symmetric_witness :
edge_port (topology_graph (core two_switch_app)) 1 2
= edge_port (topology_graph (core two_switch_app)) 2 1.
Proof.
apply (running_edge_ports_symmetric sample_str_match sample_str_actions
         sample_str_action one_hop_search two_switch_app 1%Z 2%Z
         two_switch_app_running).
Defined.

(** X15 on a body that names the path s1, s2. *)
Lemma force_sp_path_matches_force_path_witness :
fst (force_sp_path_installation sample_str_match sample_str_actions sample_str_action
       (core two_switch_app) (Some (JObj forced_path_request)))
= fst (force_path_installation sample_str_match sample_str_actions sample_str_action
         one_hop_search (core two_switch_app) sample_env
         (Some (JObj forced_path_request))).
Proof.
destruct (force_sp_path_matches_force_path sample_str_match sample_str_actions
            sample_str_action one_hop_search (core two_switch_app) sample_env
            forced_path_request) as [Hsame _].
apply (Hsame (JStr "10.0.0.1") (JStr "10.0.0.2") (path_of_nodes [1%Z; 2%Z])
             (1%Z, 2%Z)); try reflexivity.
vm_compute. discriminate.
Defined.

(** X16: after the two switches have connected, a port change on s1
    reroutes nothing. *)
Lemma reroute_skips_flows_without_addresses_witness :
_reroute_affected_flows sample_str_match sample_str_actions sample_str_action
  one_hop_search (core two_switch_app) (fun _ => sample_env) 1 2
= (core two_switch_app, Returned tt).
Proof.
apply (reroute_skips_flows_without_addresses sample_str_match sample_str_actions
         sample_str_action one_hop_search (core two_switch_app)
         (fun _ => sample_env) 1%Z 2%Z).
- intros i. reflexivity.
- vm_compute. repeat constructor.
Defined.

(** X17: the answer to [first_packet] leaves through port 1, where its
    sender was seen. *)
Lemma packet_in_learns_then_forwards_witness :
last (sent (fst (packet_in_handler sample_str_match sample_str_actions
                   sample_str_action one_hop_search
                   (fst (packet_in_handler sample_str_match sample_str_actions
                           sample_str_action one_hop_search (core two_switch_app)
                           sample_env first_packet))
                   sample_env reply_packet)))
= Some (packet_out reply_packet 1).
Proof.
pose proof (packet_in_learns_then_forwards sample_str_match sample_str_actions
              sample_str_action one_hop_search (core two_switch_app) sample_env
              sample_env first_packet reply_packet) as H.
cbv zeta in H. apply H; try reflexivity.
vm_compute. discriminate.
Defined.

(** X18: port 2 of s1 goes down. *)
Lemma port_status_only_removes_edges_of_port_witness :
datapaths (port_status_handler sample_str_match sample_str_actions sample_str_action
             one_hop_search (core two_switch_app) (fun _ _ => sample_env) [2%Z]
             1 2 OFPPR_DELETE)
= datapaths (core two_switch_app).
Proof.
destruct (port_status_only_removes_edges_of_port sample_str_match sample_str_actions
            sample_str_action one_hop_search two_switch_app (fun _ _ => sample_env)
            [2%Z] 1%Z 2%Z OFPPR_DELETE two_switch_app_running)
  as (_ & _ & Hd & _).
exact Hd.
Defined.

(** X19 on [sample_descriptor]: s1 and s2 are joined from both ends. *)
Lemma switch_features_registers_descriptor_witness :
is_Some (edge_port (topology_graph (core (connect_switch initial_app 1))) 1 2)
/\ is_Some (edge_port (topology_graph (core (connect_switch initial_app 1))) 2 1).
Proof.
destruct (switch_features_registers_descriptor sample_str_match sample_str_actions
            sample_str_action one_hop_search initial_app sample_descriptor
            (mkDatapath 1))
  as (_ & _ & Hlinks).
apply (Hlinks eq_refl (mkLink "s1" "s2" 2) (mkSwitch 1 [("h1", 1%Z); ("s2", 2%Z)])
              (mkSwitch 2 [("h2", 1%Z); ("s1", 2%Z)])); try reflexivity.
vm_compute. repeat constructor.
Defined.

(** X20 after the two switches have connected. *)
Lemma get_stats_without_agent_witness :
exists density,
  get_stats (core two_switch_app) AgentError = Some [4%Q; 4%Q; density; 0%Q].
Proof.
destruct (get_stats_without_agent sample_str_match sample_str_actions
            sample_str_action one_hop_search two_switch_app two_switch_app_running)
  as [[density Hstats] _].
exists density. rewrite Hstats. vm_compute. reflexivity.
Defined.

End ControllerEventExamples.

(** ** The monitor's series and state vector *)

Section MonitorStateProperties.

Import Monitor MonitorState.

Variable np_std : list Q -> Q.

Lemma deque_append_length (n : nat) (x : Q) (d : list Q) :
0 < n -> length d <= n ->
length (deque_append n x d) = Nat.min (S (length d)) n.
Proof.
intros Hn Hd. unfold deque_append. cbv zeta.
rewrite length_app. cbn [length].
destruct (Nat.ltb_spec n (length d + 1)) as [Hlt | Hge].
- rewrite length_drop, length_app. cbn [length]. lia.
- rewrite length_app. cbn [length]. lia.
Qed.

Lemma deque_append_members (n : nat) (x : Q) (d : list Q) (P : Q -> Prop) :
P x -> Forall P d -> Forall P (deque_append n x d).
Proof.
intros Hx Hd. unfold deque_append. cbv zeta.
assert (Hall : Forall P (d ++ [x])) by (apply Forall_app; split; [exact Hd | repeat constructor; exact Hx]).
destruct (Nat.ltb n _); [apply Forall_drop, Hall | exact Hall].
Qed.

(** X22. Whatever the monitoring threads have done, the latency and
    throughput series hold at most 100 samples, the packet-loss series
    is as long as the throughput series, and no latency sample is 0. *)
Theorem reachable_series_bounded (pm : performance_metrics) :
reachable pm ->
length (latency_samples pm) <= 100
/\ length (throughput_samples pm) <= 100
/\ length (packet_loss_samples pm) = length (throughput_samples pm)
/\ Forall (fun x => ~ (x == 0)%Q) (latency_samples pm).
Proof.
induction 1 as [| pm pm' _ (Hl & Ht & Hp & Hz) Hpoll].
- cbn. repeat split; try lia. constructor.
- destruct Hpoll as [pm avg_throughput avg_packet_loss | pm latency Hlat];
    cbn [latency_samples throughput_samples packet_loss_samples].
  + split; [exact Hl |].
    rewrite !deque_append_length by lia. repeat split; try lia. exact Hz.
  + rewrite deque_append_length by lia. split; [lia |]. split; [exact Ht |].
    split; [exact Hp |]. apply deque_append_members; assumption.
Qed.

Lemma q_min_spec (l : list Q) (x : Q) :
(q_min x l <= x)%Q
/\ Forall (fun y => (q_min x l <= y)%Q) l
/\ q_min x l ∈ x :: l.
Proof.
revert x. induction l as [| y rest IH]; intros x; unfold q_min in *; cbn [foldl].
- split; [apply Qle_refl |]. split; [constructor | left].
- destruct (Qle_bool y x) eqn:E.
  + apply Qle_bool_iff in E. destruct (IH y) as (H1 & H2 & H3).
    split; [eapply Qle_trans; eassumption |].
    split; [constructor; assumption |].
    right. exact H3.
  + assert (Hxy : (x <= y)%Q).
    { destruct (Qlt_le_dec x y) as [Hlt | Hle]; [apply Qlt_le_weak, Hlt |].
      apply Qle_bool_iff in Hle. congruence. }
    destruct (IH x) as (H1 & H2 & H3).
    split; [exact H1 |].
    split; [constructor; [eapply Qle_trans; eassumption | exact H2] |].
    apply elem_of_cons in H3 as [H3 | H3]; [rewrite H3; left | right; right; exact H3].
Qed.

Lemma q_max_spec (l : list Q) (x : Q) :
(x <= q_max x l)%Q
/\ Forall (fun y => (y <= q_max x l)%Q) l
/\ q_max x l ∈ x :: l.
Proof.
revert x. induction l as [| y rest IH]; intros x; unfold q_max in *; cbn [foldl].
- split; [apply Qle_refl |]. split; [constructor | left].
- destruct (Qle_bool x y) eqn:E.
  + apply Qle_bool_iff in E. destruct (IH y) as (H1 & H2 & H3).
    split; [eapply Qle_trans; eassumption |].
    split; [constructor; assumption |].
    right. exact H3.
  + assert (Hxy : (y <= x)%Q).
    { destruct (Qlt_le_dec y x) as [Hlt | Hle]; [apply Qlt_le_weak, Hlt |].
      apply Qle_bool_iff in Hle. congruence. }
    destruct (IH x) as (H1 & H2 & H3).
    split; [exact H1 |].
    split; [constructor; [eapply Qle_trans; eassumption | exact H2] |].
    apply elem_of_cons in H3 as [H3 | H3]; [rewrite H3; left | right; right; exact H3].
Qed.

(** X21. For a non-empty series the report's min and max are samples of
    the series that bound every sample, and its count is the length of
    the series. *)
Theorem calculate_stats_orders_samples (x : Q) (rest : list Q) :
exists mn mx,
  dict_get "min" (calculate_stats np_std (x :: rest)) = Some mn
  /\ dict_get "max" (calculate_stats np_std (x :: rest)) = Some mx
  /\ dict_get "count" (calculate_stats np_std (x :: rest))
     = Some (inject_Z (Z.of_nat (S (length rest))))
  /\ Forall (fun y => (mn <= y /\ y <= mx)%Q) (x :: rest)
  /\ mn ∈ x :: rest /\ mx ∈ x :: rest.
Proof.
destruct (q_min_spec rest x) as (Hmin_x & Hmin_all & Hmin_in).
destruct (q_max_spec rest x) as (Hmax_x & Hmax_all & Hmax_in).
exists (q_min x rest), (q_max x rest).
split; [reflexivity |]. split; [reflexivity |]. split; [reflexivity |].
split; [| split; assumption].
constructor; [split; assumption |].
apply Forall_forall. intros y Hy.
rewrite Forall_forall in Hmin_all, Hmax_all. split; auto.
Qed.

Lemma cap_le_1 (x : Q) : (cap x <= 1)%Q.
Proof.
unfold cap. destruct (Qle_bool x 1) eqn:E; [apply Qle_bool_iff, E | apply Qle_refl].
Qed.

Lemma cap_nonneg (x : Q) : (0 <= x)%Q -> (0 <= cap x)%Q.
Proof.
intros Hx. unfold cap. destruct (Qle_bool x 1); [exact Hx | lra].
Qed.

Lemma sum_ports_nonneg (f : list (string * Z) -> Z) (ports : gmap Z (list (string * Z))) :
(forall port port_stats, ports !! port = Some port_stats -> (0 <= f port_stats)%Z) ->
(0 <= sum_ports f ports)%Z.
Proof.
intros H. unfold sum_ports.
assert (Hall : Forall (fun kv : Z * list (string * Z) => (0 <= f kv.2)%Z)
                      (map_to_list ports)).
{ apply Forall_forall. intros [port port_stats] Hin.
  apply elem_of_map_to_list in Hin. exact (H port port_stats Hin). }
induction Hall as [| kv rest Hkv _ IH]; cbn [map foldr]; lia.
Qed.

Lemma measure_nonneg (now : Q) (switch_stats : list (string * bridge_stats)) :
counters_nonneg switch_stats ->
(0 <= ns_avg_throughput (measure now switch_stats))%Q
/\ (0 <= ns_avg_packet_loss (measure now switch_stats))%Q.
Proof.
intros Hnn. unfold measure. cbv zeta.
cbn [ns_avg_throughput ns_avg_packet_loss].
set (bridges := filter _ switch_stats).
set (active := omap _ bridges).
assert (Hactive : Forall (fun ports => (0 <= sum_ports port_bytes ports)%Z
                                      /\ (0 <= sum_ports port_drops ports)%Z) active).
{ apply Forall_forall. intros ports Hin. subst active.
  apply list_elem_of_omap in Hin as ([name stats] & Hin & Hact).
  subst bridges. apply list_elem_of_filter in Hin as [_ Hin].
  cbn [snd] in Hact. unfold active_ports in Hact.
  destruct (bs_ports stats) as [ports' |] eqn:Ep; [| discriminate].
  destruct (bs_timestamp stats); [| discriminate]. injection Hact as ->.
  split; apply sum_ports_nonneg; intros port port_stats Hport;
    apply (Hnn name stats ports port port_stats Hin Ep Hport). }
assert (Hsums : (0 <= foldr Z.add 0 (map (sum_ports port_bytes) active))%Z
                /\ (0 <= foldr Z.add 0 (map (sum_ports port_drops) active))%Z).
{ clear -Hactive. induction Hactive as [| p rest [Hb Hd] _ [IHb IHd]];
    cbn [map foldr]; split; lia. }
destruct Hsums as [Hb Hd].
destruct (Nat.ltb_spec 0 (length active)) as [Hpos | Hzero]; [| split; apply Qle_refl].
assert (Hq : (0 < inject_Z (Z.of_nat (length active)))%Q).
{ change 0%Q with (inject_Z 0). rewrite <- Zlt_Qlt. lia. }
split; apply Qle_shift_div_l; try exact Hq; rewrite Qmult_0_l;
  change 0%Q with (inject_Z 0); rewrite <- Zle_Qle; assumption.
Qed.

Lemma last_deque_push {A : Type} (n : nat) (x : A) (d : list A) :
0 < n -> last (deque_push n x d) = Some x.
Proof.
intros Hn. unfold deque_push. cbv zeta.
destruct (Nat.ltb_spec n (length (d ++ [x]))) as [Hlt | Hge]; [| apply last_snoc].
rewrite length_app in Hlt. cbn [length] in Hlt.
destruct d as [| y d']; [cbn in Hlt; lia |].
cbn [app drop]. rewrite drop_0. apply last_snoc.
Qed.

(** X23. After a measurement the state handed to the agent has
    utilization, packet-loss rate and network size at most 1, the
    network size at least 0, and the queue length equal to the
    packet-loss rate; with non-negative port counters utilization and
    loss rate are at least 0, and with no active switch the first three
    are 0. *)
Theorem network_state_normalised (now : Q)
  (switch_stats : list (string * bridge_stats)) (m : monitor) :
let '(utilization, packet_loss_rate, network_size, queue_length) :=
  get_current_network_state (collect_tick now switch_stats m) in
(utilization <= 1)%Q /\ (packet_loss_rate <= 1)%Q
/\ (0 <= network_size <= 1)%Q
/\ queue_length = packet_loss_rate
/\ (counters_nonneg switch_stats ->
    (0 <= utilization)%Q /\ (0 <= packet_loss_rate)%Q)
/\ (ns_num_active_switches (measure now switch_stats) = 0 ->
    (utilization == 0)%Q /\ (packet_loss_rate == 0)%Q /\ (network_size == 0)%Q).
Proof.
unfold get_current_network_state, collect_tick. cbv zeta.
cbn [network_metrics]. rewrite last_deque_push by lia.
split; [apply cap_le_1 |]. split; [apply cap_le_1 |].
split; [split; [| apply cap_le_1] |].
- apply cap_nonneg. apply Qle_shift_div_l; [reflexivity |].
  rewrite Qmult_0_l. change 0%Q with (inject_Z 0). rewrite <- Zle_Qle. lia.
- split; [reflexivity |]. split.
  + intros Hnn. destruct (measure_nonneg now switch_stats Hnn) as [Ht Hl].
    split; apply cap_nonneg; apply Qle_shift_div_l; try reflexivity;
      rewrite Qmult_0_l; assumption.
  + intros Hzero. unfold measure in *. cbv zeta in *.
    cbn [ns_avg_throughput ns_avg_packet_loss ns_num_active_switches] in *.
    rewrite Hzero. cbn [Nat.ltb Nat.leb]. repeat split; reflexivity.
Qed.

End MonitorStateProperties.

(** *** Examples *)

Section MonitorStateExamples.

Import Monitor MonitorState Samples Scenarios.

(** X22 after one network poll and one ping. *)
Lemma reachable_series_bounded_witness :
length (packet_loss_samples
          (mkMetrics (deque_append 100 (7 # 2) [])
                     (deque_append 100 476 []) (deque_append 100 1 []) []))
= length (throughput_samples
            (mkMetrics (deque_append 100 (7 # 2) [])
                       (deque_append 100 476 []) (deque_append 100 1 []) [])).
Proof.
apply (reachable_series_bounded
         (mkMetrics (deque_append 100 (7 # 2) [])
                    (deque_append 100 476 []) (deque_append 100 1 []) [])).
eapply reachable_poll;
  [eapply reachable_poll; [apply reachable_initial | apply (poll_network _ 476 1)] |].
apply (poll_ping (mkMetrics [] (deque_append 100 476 []) (deque_append 100 1 []) [])
                 (7 # 2)).
vm_compute. discriminate.
Defined.

(** X23 on the statistics of one polled bridge. *)
Lemma network_state_normalised_witness :
(0 <= (get_current_network_state
         (collect_tick 2 polled_switch_stats initial_monitor)).1.1.1)%Q.
Proof.
pose proof (network_state_normalised 2 polled_switch_stats initial_monitor) as H.
destruct (get_current_network_state (collect_tick 2 polled_switch_stats initial_monitor))
  as [[[utilization packet_loss_rate] network_size] queue_length].
destruct H as (_ & _ & _ & _ & Hnn & _). cbn [fst].
apply Hnn.
intros name stats ports port port_stats Hin Hports Hport.
apply list_elem_of_singleton in Hin. injection Hin as -> ->.
cbn in Hports. injection Hports as <-.
apply lookup_singleton_Some in Hport as [_ <-].
vm_compute. split; discriminate.
Defined.

End MonitorStateExamples.

(** ** The grid descriptor read by the controller *)

Section GridDeploymentProperties.

Import Topology GridLayout Controller ControllerEvents.

Variable str_match : ofp_match -> string.
Variable str_actions : list action -> string.
Variable str_action : action -> string.

Lemma set_port_links (sw nb : string) (port : Z) (ti ti' : topology_info) :
set_port sw nb port ti = Some ti' -> ti_links ti' = ti_links ti.
Proof.
unfold set_port. destruct (dict_get sw (ti_switches ti)); [| discriminate].
intros [= <-]. reflexivity.
Qed.

Lemma connect_links (current next : string) (st st' : gen_state) :
connect current next st = Some st' ->
exists port, ti_links (gs_info st')
             = (ti_links (gs_info st) ++ [mkLink current next port])%list.
Proof.
unfold connect.
destruct (gs_ports st !! current) as [port_cur |]; [| discriminate].
destruct (set_port current next port_cur (gs_info st)) as [ti1 |] eqn:E1; [| discriminate].
destruct (gs_ports st !! next) as [port_next |]; [| discriminate].
destruct (set_port next current port_next ti1) as [ti2 |] eqn:E2; [| discriminate].
destruct (_ !! next) as [port_next' |]; [| discriminate].
intros [= <-]. exists port_cur. cbn [gs_info add_link ti_links].
rewrite (set_port_links _ _ _ _ _ E2), (set_port_links _ _ _ _ _ E1). reflexivity.
Qed.

Lemma grid_cell_links (size : Z) (ij : Z * Z) (st st' : gen_state) :
grid_cell size st ij = Some st' ->
exists new, ti_links (gs_info st') = (ti_links (gs_info st) ++ new)%list
            /\ map link_ends new = cell_pairs size ij.
Proof.
destruct ij as [i j]. unfold grid_cell, cell_pairs. cbn [fst snd].
destruct (j <? size - 1)%Z.
- destruct (connect _ _ st) as [st1 |] eqn:E1; [| discriminate].
  destruct (connect_links _ _ _ _ E1) as [p1 H1].
  destruct (i <? size - 1)%Z.
  + intros E2. destruct (connect_links _ _ _ _ E2) as [p2 H2].
    eexists. split; [rewrite H2, H1, <- app_assoc; reflexivity | reflexivity].
  + intros [= <-]. eexists. split; [exact H1 | reflexivity].
- destruct (i <? size - 1)%Z.
  + intros E2. destruct (connect_links _ _ _ _ E2) as [p2 H2].
    eexists. split; [exact H2 | reflexivity].
  + intros [= <-]. exists []. split; [symmetry; apply app_nil_r | reflexivity].
Qed.

Lemma grid_loop_links (size : Z) (cells : list (Z * Z)) (st st' : gen_state) :
for_each (grid_cell size) cells st = Some st' ->
exists new, ti_links (gs_info st') = (ti_links (gs_info st) ++ new)%list
            /\ map link_ends new = flat_map (cell_pairs size) cells.
Proof.
revert st. induction cells as [| ij rest IH]; intros st; cbn [for_each].
- intros [= <-]. exists []. split; [symmetry; apply app_nil_r | reflexivity].
- destruct (grid_cell size st ij) as [st1 |] eqn:E; [| discriminate].
  intros Hrest. destruct (grid_cell_links size ij st st1 E) as (new1 & H1 & Hp1).
  destruct (IH st1 Hrest) as (new2 & H2 & Hp2).
  exists (new1 ++ new2)%list. split; [rewrite H2, H1, <- app_assoc; reflexivity |].
  rewrite map_app, Hp1, Hp2. reflexivity.
Qed.

(** The descriptor of the grid, in full as far as the controller reads
    it. *)
Lemma build_grid (size : Z) :
(2 <= size)%Z ->
exists ti host_links grid_links,
  build size = Some ti
  /\ switch_ids ti = expected_ids size
  /\ ti_hosts ti = corner_hosts size
  /\ ti_links ti = (host_links ++ grid_links)%list
  /\ map link_ends host_links
     = [("h1", switch_name 1); ("h2", switch_name size);
        ("h3", switch_name (size * (size - 1) + 1)); ("h4", switch_name (size * size))]
  /\ map link_ends grid_links = flat_map (cell_pairs size) (grid_positions size).
Proof.
intros Hsize.
assert (Hc1 : (1 <= 1 <= size * size)%Z) by nia.
assert (Hc2 : (1 <= size <= size * size)%Z) by nia.
assert (Hc3 : (1 <= size * (size - 1) + 1 <= size * size)%Z) by nia.
assert (Hc4 : (1 <= size * size <= size * size)%Z) by nia.
unfold build. destruct (Z.leb_spec size 0) as [Hle | _]; [lia |].
unfold Topology.generate_topology_info.
set (hosts0 := dict_comprehension _ _ (py_range 4)).
assert (Hhosts0 : hosts0 = [("h1", mkHost "10.0.0.1" "00:00:00:00:00:01" "");
                            ("h2", mkHost "10.0.0.2" "00:00:00:00:00:02" "");
                            ("h3", mkHost "10.0.0.3" "00:00:00:00:00:03" "");
                            ("h4", mkHost "10.0.0.4" "00:00:00:00:00:04" "")])
  by (vm_compute; reflexivity).
clearbody hosts0. subst hosts0.
set (st0 := mkGenState _ _).
assert (Hgood0 : good size st0).
{ split; [apply initial_switches | intros k Hk; apply initial_counters, Hk]. }
change "s1" with (switch_name 1).
cbn [for_each].
destruct (attach_host_ok size 1 "h1" _ st0 Hgood0 Hc1 eq_refl)
  as (st1 & p1 & -> & Hgood1 & Hh1 & Hl1).
destruct (attach_host_ok size size "h2" (mkHost "10.0.0.2" "00:00:00:00:00:02" "")
                         st1 Hgood1 Hc2)
  as (st2 & p2 & -> & Hgood2 & Hh2 & Hl2); [rewrite Hh1; reflexivity |].
destruct (attach_host_ok size (size * (size - 1) + 1) "h3"
                         (mkHost "10.0.0.3" "00:00:00:00:00:03" "")
                         st2 Hgood2 Hc3)
  as (st3 & p3 & -> & Hgood3 & Hh3 & Hl3); [rewrite Hh2, Hh1; reflexivity |].
destruct (attach_host_ok size (size * size) "h4"
                         (mkHost "10.0.0.4" "00:00:00:00:00:04" "")
                         st3 Hgood3 Hc4)
  as (st4 & p4 & -> & Hgood4 & Hh4 & Hl4); [rewrite Hh3, Hh2, Hh1; reflexivity |].
destruct (grid_loop_ok size st4 (grid_positions size)
                       (grid_positions_in_range size) st4 0
                       (extends_refl size st4 Hgood4))
  as (st5 & Hloop & (Hids & _) & Hh5 & _).
rewrite Hloop.
destruct (grid_loop_links size _ st4 st5 Hloop) as (grid_links & Hl5 & Hpairs).
exists (gs_info st5),
       [mkLink "h1" (switch_name 1) p1; mkLink "h2" (switch_name size) p2;
        mkLink "h3" (switch_name (size * (size - 1) + 1)) p3;
        mkLink "h4" (switch_name (size * size)) p4],
       grid_links.
split; [reflexivity |]. split; [exact Hids |].
split; [rewrite Hh5, Hh4, Hh3, Hh2, Hh1; reflexivity |].
split; [rewrite Hl5, Hl4, Hl3, Hl2, Hl1; reflexivity |].
split; [reflexivity | exact Hpairs].
Qed.

Lemma lookup_by_id (names : list Z) (d : list (string * switch_entry)) (k : Z) :
map (fun e : string * switch_entry => (e.1, sw_dpid e.2)) d
= map (fun k => (switch_name k, k)) names ->
k ∈ names ->
exists sw, dict_get (switch_name k) d = Some sw /\ sw_dpid sw = k
           /\ (switch_name k, sw) ∈ d.
Proof.
revert d. induction names as [| n rest IH]; intros d Hmap Hk; [inversion Hk |].
destruct d as [| [name sw] d']; [discriminate |].
cbn [map fst snd] in Hmap. injection Hmap. intros Hrest Hid Hname.
cbn [dict_get]. subst name.
destruct (String.eqb_spec (switch_name n) (switch_name k)) as [Heq | Hne].
- apply switch_name_inj in Heq.
  exists sw. split; [reflexivity |]. split; [congruence | rewrite Heq; left].
- apply elem_of_cons in Hk as [-> | Hk]; [contradiction |].
  destruct (IH d' Hrest Hk) as (sw' & Hget & Hid' & Hin).
  exists sw'. split; [exact Hget |]. split; [exact Hid' | right; exact Hin].
Qed.

Lemma grid_switch (size k : Z) (ti : topology_info) :
switch_ids ti = expected_ids size -> (1 <= k <= size * size)%Z ->
exists sw, dict_get (switch_name k) (ti_switches ti) = Some sw /\ sw_dpid sw = k
           /\ (switch_name k, sw) ∈ ti_switches ti.
Proof.
intros Hids Hk. apply (lookup_by_id (seqZ 1 (size * size))); [exact Hids |].
apply elem_of_seqZ. lia.
Qed.

Lemma resolve_host (ti : topology_info) (name ip : string) (h : host_entry)
  (before after : list (string * host_entry)) (sw : switch_entry) :
ti_hosts ti = (before ++ (name, h) :: after)%list ->
Forall (fun e : string * host_entry => host_ip e.2 <> ip) before ->
host_ip h = ip ->
dict_get (host_connected_to h) (ti_switches ti) = Some sw ->
_get_switch_for_ip (Some ti) (JStr ip) = Some (sw_dpid sw).
Proof.
intros Hhosts Hbefore Hip Hsw. cbn [_get_switch_for_ip]. rewrite Hhosts.
assert (Hfind : find (fun e : string * host_entry => ip_matches (host_ip e.2) (JStr ip))
                     (before ++ (name, h) :: after) = Some (name, h)).
{ clear Hhosts. induction Hbefore as [| e rest He _ IH]; simpl.
  - rewrite Hip, String.eqb_refl. reflexivity.
  - apply String.eqb_neq in He. rewrite He. exact IH. }
rewrite Hfind, Hsw. reflexivity.
Qed.

(** X24. With the descriptor that the grid builder writes for a size
    N >= 2, the controller locates the four hosts 10.0.0.1 .. 10.0.0.4
    at the corner switches 1, N, N*(N-1)+1 and N*N, and no other
    address at any switch. *)
Theorem grid_descriptor_locates_hosts (size : Z) :
(2 <= size)%Z ->
exists ti,
  build size = Some ti
  /\ _get_switch_for_ip (Some ti) (JStr "10.0.0.1") = Some 1%Z
  /\ _get_switch_for_ip (Some ti) (JStr "10.0.0.2") = Some size
  /\ _get_switch_for_ip (Some ti) (JStr "10.0.0.3") = Some (size * (size - 1) + 1)%Z
  /\ _get_switch_for_ip (Some ti) (JStr "10.0.0.4") = Some (size * size)%Z
  /\ (forall ip, ip ∉ ["10.0.0.1"; "10.0.0.2"; "10.0.0.3"; "10.0.0.4"] ->
                 _get_switch_for_ip (Some ti) (JStr ip) = None).
Proof.
intros Hsize.
destruct (build_grid size Hsize) as (ti & hl & gl & Hbuild & Hids & Hhosts & _).
exists ti. split; [exact Hbuild |].
destruct (grid_switch size 1 ti Hids) as (sw1 & Hg1 & Hd1 & _); [nia |].
destruct (grid_switch size size ti Hids) as (sw2 & Hg2 & Hd2 & _); [nia |].
destruct (grid_switch size (size * (size - 1) + 1) ti Hids) as (sw3 & Hg3 & Hd3 & _); [nia |].
destruct (grid_switch size (size * size) ti Hids) as (sw4 & Hg4 & Hd4 & _); [nia |].
unfold corner_hosts in Hhosts.
split; [| split; [| split; [| split]]].
- rewrite <- Hd1. eapply (resolve_host ti _ _ _ []); [exact Hhosts | constructor | reflexivity | exact Hg1].
- rewrite <- Hd2.
  eapply (resolve_host ti _ _ _ [_]); [exact Hhosts | | reflexivity | exact Hg2].
  repeat constructor; discriminate.
- rewrite <- Hd3.
  eapply (resolve_host ti _ _ _ [_; _]); [exact Hhosts | | reflexivity | exact Hg3].
  repeat constructor; discriminate.
- rewrite <- Hd4.
  eapply (resolve_host ti _ _ _ [_; _; _]); [exact Hhosts | | reflexivity | exact Hg4].
  repeat constructor; discriminate.
- intros ip Hip. cbn [_get_switch_for_ip]. rewrite Hhosts.
  cbn [find ip_matches fst snd host_ip].
  do 4 (apply not_elem_of_cons in Hip as [Hne Hip]; apply not_eq_sym in Hne;
        apply String.eqb_neq in Hne; rewrite Hne; clear Hne).
  reflexivity.
Qed.



Lemma prefix_switch_name (k : Z) : String.prefix "s" (switch_name k) = true.
Proof.
unfold switch_name. cbn. destruct (pretty k); reflexivity.
Qed.

Lemma grid_position_member (size i j : Z) :
(0 <= i < size)%Z -> (0 <= j < size)%Z -> (i, j) ∈ grid_positions size.
Proof.
intros Hi Hj. unfold grid_positions, py_range.
apply list_elem_of_In, in_flat_map. exists i.
split; [apply list_elem_of_In, elem_of_seqZ; lia |].
apply in_map, list_elem_of_In, elem_of_seqZ. lia.
Qed.

(** Both ends of a grid link are switches of the grid. *)
Lemma cell_pair_ends (size : Z) (ij : Z * Z) (ends : string * string) :
(2 <= size)%Z ->
(0 <= ij.1 < size)%Z /\ (0 <= ij.2 < size)%Z ->
ends ∈ cell_pairs size ij ->
exists a b, ends = (switch_name a, switch_name b)
            /\ (1 <= a <= size * size)%Z /\ (1 <= b <= size * size)%Z.
Proof.
intros Hsize [Hi Hj] Hin. destruct ij as [i j]. unfold cell_pairs in Hin.
cbn [fst snd] in *.
apply elem_of_app in Hin as [Hin | Hin].
- destruct (Z.ltb_spec j (size - 1)) as [Hlt | _]; [| inversion Hin].
  apply list_elem_of_singleton in Hin. subst ends.
  exists (i * size + j + 1)%Z, (i * size + j + 2)%Z. split; [reflexivity |]. nia.
- destruct (Z.ltb_spec i (size - 1)) as [Hlt | _]; [| inversion Hin].
  apply list_elem_of_singleton in Hin. subst ends.
  exists (i * size + j + 1)%Z, ((i + 1) * size + j + 1)%Z. split; [reflexivity |]. nia.
Qed.

Lemma switch_link_resolves (size a b : Z) (ti : topology_info) (link : link_entry) :
switch_ids ti = expected_ids size ->
(1 <= a <= size * size)%Z -> (1 <= b <= size * size)%Z ->
link_ends link = (switch_name a, switch_name b) ->
link_resolves ti link = true.
Proof.
intros Hids Ha Hb Hends. injection Hends as Hsrc Hdst.
destruct (grid_switch size a ti Hids Ha) as (swa & Hga & _).
destruct (grid_switch size b ti Hids Hb) as (swb & Hgb & _).
unfold link_resolves, register_link.
rewrite Hsrc, Hdst, !prefix_switch_name, Hga, Hgb. reflexivity.
Qed.

Lemma host_link_resolves (size c : Z) (ti : topology_info) (link : link_entry)
  (host : string) :
switch_ids ti = expected_ids size -> ti_hosts ti = corner_hosts size ->
(1 <= c <= size * size)%Z ->
host ∈ ["h1"; "h2"; "h3"; "h4"] ->
link_ends link = (host, switch_name c) ->
link_resolves ti link = true.
Proof.
intros Hids Hhosts Hc Hhost Hends. injection Hends as Hsrc Hdst.
destruct (grid_switch size c ti Hids Hc) as (sw & Hg & _).
unfold link_resolves, register_link. rewrite Hsrc, Hdst, Hhosts, Hg.
repeat (apply elem_of_cons in Hhost as [-> | Hhost]; [reflexivity |]).
inversion Hhost.
Qed.

Lemma grid_links_resolve (size : Z) (ti : topology_info)
  (host_links grid_links : list link_entry) :
(2 <= size)%Z ->
switch_ids ti = expected_ids size -> ti_hosts ti = corner_hosts size ->
ti_links ti = (host_links ++ grid_links)%list ->
map link_ends host_links
= [("h1", switch_name 1); ("h2", switch_name size);
   ("h3", switch_name (size * (size - 1) + 1)); ("h4", switch_name (size * size))] ->
map link_ends grid_links = flat_map (cell_pairs size) (grid_positions size) ->
forallb (link_resolves ti) (ti_links ti) = true.
Proof.
intros Hsize Hids Hhosts Hlinks Hhl Hgl. rewrite Hlinks, forallb_app.
apply andb_true_iff. split.
- destruct host_links as [| l1 [| l2 [| l3 [| l4 [| l5 rest]]]]]; try discriminate.
  cbn [map] in Hhl.
  assert (H1 : link_ends l1 = ("h1", switch_name 1)) by congruence.
  assert (H2 : link_ends l2 = ("h2", switch_name size)) by congruence.
  assert (H3 : link_ends l3 = ("h3", switch_name (size * (size - 1) + 1)))
    by congruence.
  assert (H4 : link_ends l4 = ("h4", switch_name (size * size))) by congruence.
  cbn [forallb].
  assert (Hm1 : "h1" ∈ ["h1"; "h2"; "h3"; "h4"]) by (rewrite !elem_of_cons; auto 10).
  assert (Hm2 : "h2" ∈ ["h1"; "h2"; "h3"; "h4"]) by (rewrite !elem_of_cons; auto 10).
  assert (Hm3 : "h3" ∈ ["h1"; "h2"; "h3"; "h4"]) by (rewrite !elem_of_cons; auto 10).
  assert (Hm4 : "h4" ∈ ["h1"; "h2"; "h3"; "h4"]) by (rewrite !elem_of_cons; auto 10).
  assert (Hc1 : (1 <= 1 <= size * size)%Z) by nia.
  assert (Hc2 : (1 <= size <= size * size)%Z) by nia.
  assert (Hc3 : (1 <= size * (size - 1) + 1 <= size * size)%Z) by nia.
  assert (Hc4 : (1 <= size * size <= size * size)%Z) by nia.
  rewrite (host_link_resolves size _ ti l1 "h1" Hids Hhosts Hc1 Hm1 H1).
  rewrite (host_link_resolves size _ ti l2 "h2" Hids Hhosts Hc2 Hm2 H2).
  rewrite (host_link_resolves size _ ti l3 "h3" Hids Hhosts Hc3 Hm3 H3).
  rewrite (host_link_resolves size _ ti l4 "h4" Hids Hhosts Hc4 Hm4 H4).
  reflexivity.
- apply forallb_forall. intros link Hin.
  assert (Hends : link_ends link ∈ flat_map (cell_pairs size) (grid_positions size)).
  { rewrite <- Hgl. apply list_elem_of_In, in_map, Hin. }
  apply list_elem_of_In, in_flat_map in Hends as (ij & Hij & Hends).
  pose proof (grid_positions_in_range size) as Hrange.
  rewrite Forall_forall in Hrange.
  apply list_elem_of_In in Hij, Hends.
  destruct (cell_pair_ends size ij _ Hsize (Hrange ij Hij) Hends)
    as (a & b & Hab & Ha & Hb).
  exact (switch_link_resolves size a b ti link Hids Ha Hb Hab).
Qed.

(** The graph after a switch has connected while the descriptor [ti] was
    readable. *)
Lemma switch_features_graph (s : app) (ti : topology_info) (dp : datapath) :
let g := topology_graph (core (switch_features_handler str_match str_actions
                                 str_action s (Some ti) dp)) in
(forall e, e ∈ ti_switches ti -> is_Some (g !! sw_dpid e.2))
/\ (forallb (link_resolves ti) (ti_links ti) = true ->
    forall link a b,
      link ∈ ti_links ti ->
      String.prefix "s" (link_src link) = true ->
      String.prefix "s" (link_dst link) = true ->
      dict_get (link_src link) (ti_switches ti) = Some a ->
      dict_get (link_dst link) (ti_switches ti) = Some b ->
      is_Some (edge_port g (sw_dpid a) (sw_dpid b))
      /\ is_Some (edge_port g (sw_dpid b) (sw_dpid a))).
Proof.
unfold switch_features_handler.
match goal with
| |- context [with_core s ?x] => set (st2 := x)
end.
set (s1 := foldl register_switch (with_core s st2) (ti_switches ti)).
cbv zeta. split.
- intros e He.
  destruct (register_links_core (fun _ _ _ => NxNoPath) ti (ti_links ti) s1)
    as (g & Hc & _ & Hn).
  rewrite Hc. cbn [set_topology_graph topology_graph]. apply Hn.
  apply (register_switches_nodes (ti_switches ti) (with_core s st2) e He).
- intros Hall. exact (proj2 (register_links_edges ti (ti_links ti) s1 Hall)).
Qed.

(** X25. When a switch connects while the descriptor of the grid of size
    N >= 2 is in place, the controller's graph has the switches
    1 .. N*N as nodes and an edge, from both ends, between every grid
    position and its right and lower neighbours. *)
Theorem grid_descriptor_builds_graph (size : Z) (s : app) (dp : datapath) :
(2 <= size)%Z ->
exists ti,
  build size = Some ti
  /\ let g := topology_graph (core (switch_features_handler str_match str_actions
                                      str_action s (Some ti) dp)) in
     (forall k, (1 <= k <= size * size)%Z -> is_Some (g !! k))
     /\ (forall i j, (0 <= i < size)%Z -> (0 <= j < size - 1)%Z ->
                     is_Some (edge_port g (i * size + j + 1) (i * size + j + 2))
                     /\ is_Some (edge_port g (i * size + j + 2) (i * size + j + 1)))
     /\ (forall i j, (0 <= i < size - 1)%Z -> (0 <= j < size)%Z ->
                     is_Some (edge_port g (i * size + j + 1) ((i + 1) * size + j + 1))
                     /\ is_Some (edge_port g ((i + 1) * size + j + 1)
                                           (i * size + j + 1))).
Proof.
intros Hsize.
destruct (build_grid size Hsize)
  as (ti & hl & gl & Hbuild & Hids & Hhosts & Hlinks & Hhl & Hgl).
exists ti. split; [exact Hbuild |].
destruct (switch_features_graph s ti dp) as [Hnodes Hedges].
pose proof (grid_links_resolve size ti hl gl Hsize Hids Hhosts Hlinks Hhl Hgl) as Hall.
specialize (Hedges Hall).
assert (Hedge : forall i j a b,
          (0 <= i < size)%Z -> (0 <= j < size)%Z ->
          (1 <= a <= size * size)%Z -> (1 <= b <= size * size)%Z ->
          (switch_name a, switch_name b) ∈ cell_pairs size (i, j) ->
          is_Some (edge_port (topology_graph
                                (core (switch_features_handler str_match str_actions
                                         str_action s (Some ti) dp))) a b)
          /\ is_Some (edge_port (topology_graph
                                   (core (switch_features_handler str_match str_actions
                                            str_action s (Some ti) dp))) b a)).
{ intros i j a b Hi Hj Ha Hb Hpair.
  assert (Hin : (switch_name a, switch_name b) ∈ map link_ends gl).
  { rewrite Hgl. apply list_elem_of_In, in_flat_map. exists (i, j).
    split; apply list_elem_of_In; [apply grid_position_member; assumption | exact Hpair]. }
  apply list_elem_of_In, in_map_iff in Hin as (link & Hends & Hlink).
  injection Hends as Hsrc Hdst.
  destruct (grid_switch size a ti Hids Ha) as (swa & Hga & Hda & _).
  destruct (grid_switch size b ti Hids Hb) as (swb & Hgb & Hdb & _).
  rewrite <- Hda, <- Hdb.
  apply (Hedges link swa swb).
  - rewrite Hlinks. apply elem_of_app. right. apply list_elem_of_In, Hlink.
  - rewrite Hsrc. apply prefix_switch_name.
  - rewrite Hdst. apply prefix_switch_name.
  - rewrite Hsrc. exact Hga.
  - rewrite Hdst. exact Hgb. }
cbv zeta. split; [| split].
- intros k Hk. destruct (grid_switch size k ti Hids Hk) as (sw & _ & Hd & Hin).
  rewrite <- Hd. exact (Hnodes (switch_name k, sw) Hin).
- intros i j Hi Hj. apply (Hedge i j); try nia.
  unfold cell_pairs. cbn [fst snd]. apply elem_of_app. left.
  destruct (Z.ltb_spec j (size - 1)); [left | lia].
- intros i j Hi Hj. apply (Hedge i j); try nia.
  unfold cell_pairs. cbn [fst snd]. apply elem_of_app. right.
  destruct (Z.ltb_spec i (size - 1)); [left | lia].
Qed.

End GridDeploymentProperties.

(** ** The linear topology *)

Section LinearTopologyProperties.

Import Topology LinearTopology.

Lemma host_name_inj : Inj (=) (=) host_name.
Proof.
intros a b H. unfold host_name in H.
injection H as H. exact (inj pretty a b H).
Qed.

(** The switch table lists [s1 .. sn] with dpids [1 .. n]. *)
Lemma linear_switches (n : Z) :
map (fun e : string * switch_entry => (e.1, sw_dpid e.2))
    (dict_comprehension (fun i => switch_name (i + 1))
                        (fun i => mkSwitch (i + 1) []) (py_range n))
= map (fun k => (switch_name k, k)) (seqZ 1 n).
Proof.
rewrite dict_comprehension_map.
- unfold py_range. rewrite map_map. cbn [fst snd sw_dpid].
  rewrite <- (fmap_add_seqZ 1 0). rewrite <- list_fmap_compose.
  apply map_ext. intros i. unfold compose. rewrite (Z.add_comm 1 i). reflexivity.
- unfold py_range. apply NoDup_fmap_2_strong; [| apply NoDup_seqZ].
  intros a b _ _ H. apply switch_name_inj in H. lia.
Qed.

Lemma linear_key (n k : Z) (ti : topology_info) :
switch_ids ti = map (fun k => (switch_name k, k)) (seqZ 1 n) ->
switch_name k ∈ map fst (ti_switches ti) <-> (1 <= k <= n)%Z.
Proof.
intros Hids. rewrite <- switch_ids_keys, Hids, map_map. cbn [fst].
split.
- intros Hin. apply list_elem_of_In, in_map_iff in Hin as (k' & Heq & Hk').
  apply switch_name_inj in Heq. subst k'.
  apply list_elem_of_In, elem_of_seqZ in Hk'. lia.
- intros Hk. apply (list_elem_of_fmap_2 switch_name). apply elem_of_seqZ. lia.
Qed.

Lemma host_step_ok (n i : Z) (ti : topology_info) :
switch_ids ti = map (fun k => (switch_name k, k)) (seqZ 1 n) ->
(0 <= i < n)%Z ->
exists ti', host_step ti i = Some ti'
            /\ switch_ids ti' = switch_ids ti
            /\ ti_hosts ti' = ti_hosts ti
            /\ ti_links ti'
               = (ti_links ti ++ [mkLink (host_name (i + 1)) (switch_name (i + 1)) 1])%list.
Proof.
intros Hids Hi.
destruct (set_port_ok (switch_name (i + 1)) (host_name (i + 1)) 1 ti)
  as (ti1 & Hset & Hids1 & Hh1 & Hl1); [apply (linear_key n); [exact Hids | lia] |].
unfold host_step. rewrite Hset. eexists. split; [reflexivity |].
cbn [add_link ti_hosts ti_links]. unfold switch_ids in *. cbn [add_link ti_switches].
rewrite Hl1. auto.
Qed.

Lemma switch_step_ok (n i : Z) (ti : topology_info) :
switch_ids ti = map (fun k => (switch_name k, k)) (seqZ 1 n) ->
(0 <= i)%Z -> (i + 2 <= n)%Z ->
exists ti', switch_step ti i = Some ti'
            /\ switch_ids ti' = switch_ids ti
            /\ ti_hosts ti' = ti_hosts ti
            /\ ti_links ti'
               = (ti_links ti
                  ++ [mkLink (switch_name (i + 1)) (switch_name (i + 2)) (2 + i)])%list.
Proof.
intros Hids Hi Hn.
destruct (set_port_ok (switch_name (i + 1)) (switch_name (i + 2)) (2 + i) ti)
  as (ti1 & Hset1 & Hids1 & Hh1 & Hl1); [apply (linear_key n); [exact Hids | lia] |].
destruct (set_port_ok (switch_name (i + 2)) (switch_name (i + 1)) 2 ti1)
  as (ti2 & Hset2 & Hids2 & Hh2 & Hl2).
{ apply (linear_key n); [rewrite Hids1; exact Hids | lia]. }
unfold switch_step. cbv zeta. rewrite Hset1, Hset2. eexists. split; [reflexivity |].
cbn [add_link ti_hosts ti_links]. unfold switch_ids in *. cbn [add_link ti_switches].
rewrite Hids2, Hids1, Hh2, Hh1, Hl2, Hl1. auto.
Qed.

Lemma host_loop_ok (n : Z) (l : list Z) (ti : topology_info) :
switch_ids ti = map (fun k => (switch_name k, k)) (seqZ 1 n) ->
Forall (fun i => (0 <= i < n)%Z) l ->
exists ti', for_each host_step l ti = Some ti'
            /\ switch_ids ti' = switch_ids ti
            /\ ti_hosts ti' = ti_hosts ti
            /\ ti_links ti'
               = (ti_links ti
                  ++ map (fun i => mkLink (host_name (i + 1)) (switch_name (i + 1)) 1) l)%list.
Proof.
intros Hids Hl. revert ti Hids.
induction Hl as [| i rest Hi _ IH]; intros ti Hids; cbn [for_each map].
- exists ti. rewrite app_nil_r. auto.
- destruct (host_step_ok n i ti Hids Hi) as (ti1 & Hstep & Hids1 & Hh1 & Hl1).
  rewrite Hstep.
  destruct (IH ti1) as (ti2 & Hloop & Hids2 & Hh2 & Hl2); [rewrite Hids1; exact Hids |].
  exists ti2. split; [exact Hloop |].
  rewrite Hids2, Hids1, Hh2, Hh1, Hl2, Hl1, <- app_assoc. auto.
Qed.

Lemma switch_loop_ok (n : Z) (l : list Z) (ti : topology_info) :
switch_ids ti = map (fun k => (switch_name k, k)) (seqZ 1 n) ->
Forall (fun i => (0 <= i)%Z /\ (i + 2 <= n)%Z) l ->
exists ti', for_each switch_step l ti = Some ti'
            /\ switch_ids ti' = switch_ids ti
            /\ ti_hosts ti' = ti_hosts ti
            /\ ti_links ti'
               = (ti_links ti
                  ++ map (fun i => mkLink (switch_name (i + 1)) (switch_name (i + 2))
                                          (2 + i)) l)%list.
Proof.
intros Hids Hl. revert ti Hids.
induction Hl as [| i rest [Hi Hn] _ IH]; intros ti Hids; cbn [for_each map].
- exists ti. rewrite app_nil_r. auto.
- destruct (switch_step_ok n i ti Hids Hi Hn) as (ti1 & Hstep & Hids1 & Hh1 & Hl1).
  rewrite Hstep.
  destruct (IH ti1) as (ti2 & Hloop & Hids2 & Hh2 & Hl2); [rewrite Hids1; exact Hids |].
  exists ti2. split; [exact Hloop |].
  rewrite Hids2, Hids1, Hh2, Hh1, Hl2, Hl1, <- app_assoc. auto.
Qed.

Lemma for_each_app {A S : Type} (body : S -> A -> option S) (l1 l2 : list A) (s : S) :
for_each body (l1 ++ l2) s
= match for_each body l1 s with
  | Some s' => for_each body l2 s'
  | None => None
  end.
Proof.
revert s. induction l1 as [| a rest IH]; intros s; cbn [for_each]; [reflexivity |].
change ((a :: rest) ++ l2)%list with (a :: (rest ++ l2))%list. cbn [for_each].
destruct (body s a); [apply IH | reflexivity].
Qed.

(** X26. The descriptor of the linear topology for n switches and
    h <= n hosts lists the switches s1 .. sn with dpids 1 .. n, the
    hosts h1 .. hh with address 10.0.0.k at switch sk, the h host links
    on port 1 and then the n-1 links from sk to s(k+1) on port k+1;
    with more hosts than switches it raises before the file is
    written. *)
Theorem linear_descriptor_shape (n_switches n_hosts : Z) :
((0 <= n_hosts <= n_switches)%Z ->
 exists ti,
   generate_topology_info n_switches n_hosts = Some ti
   /\ map (fun e : string * switch_entry => (e.1, sw_dpid e.2)) (ti_switches ti)
      = map (fun k => (switch_name k, k)) (seqZ 1 n_switches)
   /\ map (fun h : string * host_entry => (h.1, host_ip h.2, host_connected_to h.2))
          (ti_hosts ti)
      = map (fun k => (host_name k, "10.0.0." ++ pretty k, switch_name k))
            (seqZ 1 n_hosts)
   /\ ti_links ti
      = (map (fun k => mkLink (host_name k) (switch_name k) 1) (seqZ 1 n_hosts)
         ++ map (fun k => mkLink (switch_name k) (switch_name (k + 1)) (1 + k))
                (seqZ 1 (n_switches - 1)))%list)
/\ ((0 <= n_switches < n_hosts)%Z ->
    generate_topology_info n_switches n_hosts = None).
Proof.
unfold generate_topology_info.
set (hosts0 := dict_comprehension _ _ (py_range n_hosts)).
set (ti0 := mkTopologyInfo _ hosts0 []).
assert (Hids0 : switch_ids ti0 = map (fun k => (switch_name k, k)) (seqZ 1 n_switches))
  by apply linear_switches.
split.
- intros Hh.
  destruct (host_loop_ok n_switches (py_range n_hosts) ti0 Hids0)
    as (ti1 & Hloop1 & Hids1 & Hh1 & Hl1).
  { apply Forall_forall. intros i Hi. apply elem_of_seqZ in Hi. lia. }
  cbv zeta. rewrite Hloop1.
  destruct (switch_loop_ok n_switches (py_range (n_switches - 1)) ti1)
    as (ti2 & Hloop2 & Hids2 & Hh2 & Hl2).
  { rewrite Hids1. exact Hids0. }
  { apply Forall_forall. intros i Hi. apply elem_of_seqZ in Hi. lia. }
  exists ti2. split; [exact Hloop2 |].
  split; [fold (switch_ids ti2); rewrite Hids2, Hids1; exact Hids0 |].
  split.
  + rewrite Hh2, Hh1. subst ti0 hosts0. cbn [ti_hosts].
    rewrite dict_comprehension_map.
    * unfold py_range. rewrite map_map. cbn [fst snd host_ip host_connected_to].
      rewrite <- (fmap_add_seqZ 1 0). rewrite <- list_fmap_compose.
      apply map_ext. intros i. unfold compose. rewrite (Z.add_comm 1 i). reflexivity.
    * unfold py_range. apply NoDup_fmap_2_strong; [| apply NoDup_seqZ].
      intros a b _ _ H. apply host_name_inj in H. lia.
  + rewrite Hl2, Hl1. subst ti0. cbn [ti_links app]. unfold py_range.
    rewrite <- !(fmap_add_seqZ 1 0). rewrite <- !list_fmap_compose.
    f_equal; apply map_ext; intros i; unfold compose; rewrite (Z.add_comm 1 i).
    * reflexivity.
    * f_equal; [f_equal; lia | lia].
- intros Hh.
  assert (Hsplit : py_range n_hosts
                   = (seqZ 0 n_switches ++ n_switches :: seqZ (n_switches + 1)
                                                              (n_hosts - n_switches - 1))%list).
  { unfold py_range.
    replace n_hosts with (n_switches + (1 + (n_hosts - n_switches - 1)))%Z at 1 by lia.
    rewrite seqZ_app by lia. f_equal.
    rewrite seqZ_cons by lia. repeat (f_equal; try lia). }
  cbv zeta. rewrite Hsplit, for_each_app.
  destruct (host_loop_ok n_switches (seqZ 0 n_switches) ti0 Hids0)
    as (ti1 & Hloop1 & Hids1 & _).
  { apply Forall_forall. intros i Hi. apply elem_of_seqZ in Hi. lia. }
  rewrite Hloop1. cbn [for_each].
  assert (Hstep : host_step ti1 n_switches = None).
  { unfold host_step, set_port.
    destruct (dict_get (switch_name (n_switches + 1)) (ti_switches ti1)) eqn:E;
      [| reflexivity].
    assert (Hin : switch_name (n_switches + 1) ∈ map fst (ti_switches ti1))
      by (apply dict_get_is_Some; rewrite E; eauto).
    apply (linear_key n_switches) in Hin; [lia | rewrite Hids1; exact Hids0]. }
  rewrite Hstep. reflexivity.
Qed.

End LinearTopologyProperties.

(** ** Seeding the flows *)

Section SeedingProperties.

Import Seeding.

(** The requests for one pair: the pair, between 1 and [retries] times,
    and once when the first request succeeds. *)
Lemma post_pair_repeats (ok : nat -> bool) (pair : string * string) (retries : nat)
  (log : list (string * string)) :
0 < retries ->
exists k, 1 <= k <= retries
          /\ post_pair ok pair retries log = (log ++ replicate k pair)%list
          /\ (ok (length log) = true -> k = 1).
Proof.
revert log. induction retries as [| r IH]; intros log Hr; [lia |].
cbn [post_pair]. destruct (ok (length log)) eqn:E.
- exists 1. split; [lia |]. split; [reflexivity | auto].
- destruct r as [| r'].
  + exists 1. split; [lia |]. split; [reflexivity | discriminate].
  + destruct (IH (log ++ [pair])%list) as (k & Hk & Hlog & _); [lia |].
    exists (S k). split; [lia |]. split; [| discriminate].
    rewrite Hlog, <- app_assoc. reflexivity.
Qed.

(** The requests for a list of pairs. *)
Lemma post_pairs_repeat (ok : nat -> bool) (pairs : list (string * string))
  (log : list (string * string)) :
exists counts,
  length counts = length pairs
  /\ Forall (fun k => 1 <= k <= 5) counts
  /\ foldl (fun log pair => post_pair ok pair 5 log) log pairs
     = (log ++ flat_map (fun kp : nat * (string * string) => replicate kp.1 kp.2)
                        (zip counts pairs))%list
  /\ ((forall n, ok n = true) -> Forall (fun k => k = 1) counts).
Proof.
revert log. induction pairs as [| pair rest IH]; intros log.
- exists []. split; [reflexivity |]. split; [constructor |].
  split; [cbn; rewrite app_nil_r; reflexivity | constructor].
- cbn [foldl].
  destruct (post_pair_repeats ok pair 5 log) as (k & Hk & Hlog & Hone); [lia |].
  destruct (IH (post_pair ok pair 5 log)) as (counts & Hlen & Hall & Hrest & Hones).
  exists (k :: counts). split; [cbn [length]; lia |].
  split; [constructor; assumption |].
  split.
  + rewrite Hrest, Hlog, <- app_assoc. reflexivity.
  + intros Hok. constructor; [apply Hone, Hok | apply Hones, Hok].
Qed.

Lemma flat_map_replicate_bounds {A : Type} (counts : list nat) (pairs : list A) :
length counts = length pairs ->
Forall (fun k => 1 <= k <= 5) counts ->
length pairs
<= length (flat_map (fun kp : nat * A => replicate kp.1 kp.2) (zip counts pairs))
<= 5 * length pairs.
Proof.
intros Hlen Hall. revert pairs Hlen.
induction Hall as [| k counts Hk _ IH]; intros pairs Hlen.
- destruct pairs; [cbn; lia | discriminate].
- destruct pairs as [| p pairs]; [discriminate |].
  cbn [zip zip_with flat_map fst snd]. rewrite length_app, length_replicate.
  cbn [length] in *. specialize (IH pairs ltac:(lia)). lia.
Qed.

Lemma flat_map_replicate_members {A : Type} (counts : list nat) (pairs : list A) (x : A) :
length counts = length pairs ->
Forall (fun k => 1 <= k <= 5) counts ->
x ∈ flat_map (fun kp : nat * A => replicate kp.1 kp.2) (zip counts pairs) <-> x ∈ pairs.
Proof.
intros Hlen Hall. revert pairs Hlen.
induction Hall as [| k counts Hk _ IH]; intros pairs Hlen.
- destruct pairs; [reflexivity | discriminate].
- destruct pairs as [| p pairs]; [discriminate |].
  cbn [zip zip_with flat_map fst snd].
  rewrite elem_of_app, elem_of_cons, (IH pairs) by (cbn [length] in Hlen; lia).
  rewrite elem_of_replicate. intuition lia.
Qed.

Lemma flat_map_replicate_once {A : Type} (counts : list nat) (pairs : list A) :
length counts = length pairs ->
Forall (fun k => k = 1) counts ->
flat_map (fun kp : nat * A => replicate kp.1 kp.2) (zip counts pairs) = pairs.
Proof.
intros Hlen Hall. revert pairs Hlen.
induction Hall as [| k counts -> _ IH]; intros pairs Hlen.
- destruct pairs; [reflexivity | discriminate].
- destruct pairs as [| p pairs]; [discriminate |].
  cbn [zip zip_with flat_map fst snd replicate app]. f_equal.
  apply IH. cbn [length] in Hlen. lia.
Qed.

(** The pairs with source number [i] among destinations numbered from
    [o]. *)
Lemma destinations_count (i : nat) (src : string) (ips : list string) (o : nat) :
length (omap (fun dst : nat * string =>
                if decide (i = dst.1) then None else Some (src, dst.2))
             (imap (fun j ip => (o + j, ip)) ips))
= length ips - (if decide (o <= i < o + length ips) then 1 else 0).
Proof.
revert o. induction ips as [| ip rest IH]; intros o.
- cbn. destruct (decide _); reflexivity.
- cbn [imap]. change (omap ?f (?x :: ?l)) with
    (match f x with Some y => y :: omap f l | None => omap f l end).
  cbn [fst snd].
  assert (Himap : imap ((fun j ip => (o + j, ip)) ∘ S) rest
                  = imap (fun j ip => (S o + j, ip)) rest).
  { apply imap_ext. intros j x _. unfold compose. f_equal. lia. }
  rewrite Himap. rewrite Nat.add_0_r.
  destruct (decide (i = o)) as [-> | Hne].
  + rewrite IH. cbn [length].
    rewrite decide_False by lia. rewrite decide_True by lia. lia.
  + cbn [length]. rewrite IH.
    destruct (decide (S o <= i < S o + length rest)).
    * rewrite decide_True by lia. lia.
    * rewrite decide_False by lia. lia.
Qed.

Lemma host_pairs_from (ips all : list string) (o : nat) :
o + length ips <= length all ->
length (flat_map (fun src : nat * string =>
                    omap (fun dst : nat * string =>
                            if decide (src.1 = dst.1) then None
                            else Some (src.2, dst.2))
                         (imap (fun j ip => (j, ip)) all))
                 (imap (fun i ip => (o + i, ip)) ips))
= length ips * (length all - 1).
Proof.
revert o. induction ips as [| ip rest IH]; intros o Ho; [reflexivity |].
cbn [imap flat_map]. rewrite length_app. cbn [fst snd length] in *.
assert (Himap : imap ((fun i ip => (o + i, ip)) ∘ S) rest
                = imap (fun i ip => (S o + i, ip)) rest).
{ apply imap_ext. intros j x _. unfold compose. f_equal. lia. }
rewrite Himap, IH by lia.
pose proof (destinations_count (o + 0) ip all 0) as Hd.
cbn [Nat.add] in Hd. rewrite Hd.
rewrite decide_True by lia. lia.
Qed.

(** X27. [trigger_initial_flows] posts nothing when no readiness poll
    succeeds; otherwise it posts, for each of the n*(n-1) ordered pairs
    of distinct hosts in turn, between one and five requests, hence at
    most 5*n*(n-1), and exactly one per pair when every request
    succeeds. *)
Theorem trigger_initial_flows_requests (polls : list bool) (ok : nat -> bool)
  (ips : list string) :
let log := trigger_initial_flows polls ok ips in
let pairs := host_pairs ips in
length pairs = length ips * (length ips - 1)
/\ (controller_ready polls = false -> log = [])
/\ (controller_ready polls = true ->
    (exists counts,
        length counts = length pairs
        /\ Forall (fun k => 1 <= k <= 5) counts
        /\ log = flat_map (fun kp : nat * (string * string) => replicate kp.1 kp.2)
                          (zip counts pairs))
    /\ length pairs <= length log <= 5 * length pairs
    /\ (forall pair, pair ∈ log <-> pair ∈ pairs)
    /\ ((forall n, ok n = true) -> log = pairs)).
Proof.
intros log pairs. split; [| split].
- subst pairs. unfold host_pairs.
  pose proof (host_pairs_from ips ips 0) as H. cbn [Nat.add] in H.
  apply H. lia.
- intros Hready. subst log. unfold trigger_initial_flows. rewrite Hready. reflexivity.
- intros Hready. subst log. unfold trigger_initial_flows. rewrite Hready.
  fold pairs.
  destruct (post_pairs_repeat ok pairs []) as (counts & Hlen & Hall & Hlog & Hones).
  cbn [app] in Hlog. rewrite Hlog.
  split; [exists counts; auto |].
  split; [apply flat_map_replicate_bounds; assumption |].
  split; [intros pair; apply flat_map_replicate_members; assumption |].
  intros Hok. apply flat_map_replicate_once; [exact Hlen | apply Hones, Hok].
Qed.

End SeedingProperties.

(** *** Examples *)

Section DeploymentExamples.

Import Topology Controller ControllerEvents Samples Scenarios.

(** X24 for the 3 x 3 grid: h3 sits at switch 7. *)
Lemma grid_descriptor_locates_hosts_witness :
exists ti, build 3 = Some ti
           /\ _get_switch_for_ip (Some ti) (JStr "10.0.0.3") = Some 7%Z.
Proof.
destruct (grid_descriptor_locates_hosts 3) as (ti & Hbuild & _ & _ & H3 & _); [lia |].
exists ti. split; [exact Hbuild | exact H3].
Defined.

(** X25 for the 2 x 2 grid: switch 1 is joined to switches 2 and 3. *)
Lemma grid_descriptor_builds_graph_witness :
exists ti,
  build 2 = Some ti
  /\ is_Some (edge_port (topology_graph
                           (core (switch_features_handler sample_str_match
                                    sample_str_actions sample_str_action initial_app
                                    (Some ti) (mkDatapath 1)))) 1 2)
  /\ is_Some (edge_port (topology_graph
                           (core (switch_features_handler sample_str_match
                                    sample_str_actions sample_str_action initial_app
                                    (Some ti) (mkDatapath 1)))) 1 3).
Proof.
destruct (grid_descriptor_builds_graph sample_str_match sample_str_actions
            sample_str_action 2 initial_app (mkDatapath 1))
  as (ti & Hbuild & _ & Hright & Hdown); [lia |].
exists ti. split; [exact Hbuild |]. split.
- apply (Hright 0%Z 0%Z); lia.
- apply (Hdown 0%Z 0%Z); lia.
Defined.

(** X26 for the topology that [LinearTopo.build] asks for, and for one
    host too many. *)
Lemma linear_descriptor_shape_witness :
(exists ti, LinearTopology.build = Some ti /\ length (ti_links ti) = 7)
/\ LinearTopology.generate_topology_info 3 4 = None.
Proof.
destruct (linear_descriptor_shape 4 4) as [Hok _].
destruct (linear_descriptor_shape 3 4) as [_ Hfail].
split.
- destruct Hok as (ti & Hbuild & _ & _ & Hlinks); [lia |].
  exists ti. split; [exact Hbuild |]. rewrite Hlinks. reflexivity.
- apply Hfail. lia.
Defined.

(** X27 for four hosts and a controller that answers the second poll and
    every request. *)
Lemma trigger_initial_flows_requests_witness :
length (Seeding.trigger_initial_flows [false; true] (fun _ => true)
          ["10.0.0.1"; "10.0.0.2"; "10.0.0.3"; "10.0.0.4"]) = 12.
Proof.
destruct (trigger_initial_flows_requests [false; true] (fun _ => true)
            ["10.0.0.1"; "10.0.0.2"; "10.0.0.3"; "10.0.0.4"])
  as (Hcount & _ & Hready).
destruct (Hready eq_refl) as (_ & _ & _ & Hall).
rewrite (Hall (fun _ => eq_refl)), Hcount. reflexivity.
Defined.

End DeploymentExamples.

(** ** The controller's request at the agent *)

Section IntegrationProperties.

Import Agent Controller Integration.

Variable py_str : json -> string.
Variable predict : list Q -> Q.

Lemma network_state_length (st : controller) (reply : agent_reply) (state : list Q) :
_get_current_network_state st reply = Returned state -> length state = 4.
Proof.
unfold _get_current_network_state.
destruct (match reply with AgentError => _ | AgentJson body => body end)
  as [| | | | | fields]; try discriminate.
destruct (dict_get "recent_rewards" fields) as [rewards |]; [| discriminate].
destruct (py_len rewards) as [n |]; [| discriminate].
intros [= <-]. reflexivity.
Qed.

(** X28. The state vector that the controller sends with a path request
    has four entries, so that an agent configured with another state
    size answers every such request 400 and stays as it was; so does an
    agent whose table of pairs lacks the pair of the two switch ids
    written as text. *)
Theorem agent_checks_controller_request (st : controller) (reply : agent_reply)
  (state : list Q) (ag : agent) (src_switch dst_switch : Z) :
_get_current_network_state st reply = Returned state ->
length state = 4
/\ (state_size ag <> 4 ->
    exists msg, get_path py_str predict ag
                         (Some (path_request src_switch dst_switch state))
                = (ag, Error400 msg))
/\ (possible_paths ag
      !! path_key py_str (JStr (pretty src_switch)) (JStr (pretty dst_switch)) = None ->
    exists msg, get_path py_str predict ag
                         (Some (path_request src_switch dst_switch state))
                = (ag, Error400 msg)).
Proof.
intros Hstate. pose proof (network_state_length st reply state Hstate) as Hlen.
split; [exact Hlen |].
assert (Hget : forall key, key = "src" \/ key = "dst" \/ key = "state" ->
          get_or_null key [("src", JStr (pretty src_switch));
                           ("dst", JStr (pretty dst_switch));
                           ("state", JArr (map JNum state))]
          = match key with
            | "src" => JStr (pretty src_switch)
            | "dst" => JStr (pretty dst_switch)
            | _ => JArr (map JNum state)
            end).
{ intros key [-> | [-> | ->]]; reflexivity. }
unfold get_path, path_request. cbn [truthy negb].
rewrite !Hget by auto. 
split.
- intros Hsize.
  destruct (negb (truthy (JStr (pretty src_switch)))
            || negb (truthy (JStr (pretty dst_switch)))); [eauto |].
  unfold is_state_list. rewrite length_map, Hlen.
  destruct (Nat.eqb_spec 4 (state_size ag)) as [Heq | _]; [congruence | eauto].
- intros Hkey.
  destruct (negb (truthy (JStr (pretty src_switch)))
            || negb (truthy (JStr (pretty dst_switch)))); [eauto |].
  destruct (is_state_list ag (JArr (map JNum state))); [| eauto].
  rewrite Hkey. eauto.
Qed.

End IntegrationProperties.

(** *** Examples *)

Section IntegrationExamples.

Import Agent Controller Integration Samples Scenarios.

(** X28: the sample agent knows the pair 1->4 only, and is asked for a
    path from switch 2 to switch 1 while the agent's statistics are out
    of reach. *)
Lemma agent_checks_controller_request_witness :
exists state msg,
  _get_current_network_state sample_controller AgentError = Returned state
  /\ get_path sample_str sample_model sample_agent (Some (path_request 2 1 state))
     = (sample_agent, Error400 msg).
Proof.
assert (Hstate : exists state,
           _get_current_network_state sample_controller AgentError = Returned state)
  by (eexists; reflexivity).
destruct Hstate as [state Hstate].
destruct (agent_checks_controller_request sample_str sample_model sample_controller
            AgentError state sample_agent 2 1 Hstate) as (_ & _ & Hpair).
destruct Hpair as [msg Hmsg]; [vm_compute; reflexivity |].
exists state, msg. split; [exact Hstate | exact Hmsg].
Defined.

End IntegrationExamples.
